(** * calendar-app: text-to-structured-event normalization

    A shallow embedding of the date/time normalizer ([shared/datetime.ts]),
    of the create and update branches of the two assistant handlers (the
    browser modal and the messaging webhook), of the address lists of the
    event detail view and of the flight-status correlator, together with
    the properties the specification states about them.  The second half
    adds the phone links, the flight badge and the mid-stop line of the
    detail view, a declarative semantics of the patterns against which the
    matcher is proved sound, and further properties of all of these.

    Conventions of the embedding:
    - a JavaScript string is the sequence of its UTF-16 code units, and a
      regular expression is interpreted by a backtracking matcher with the
      priorities of the ECMAScript one;
    - a [Date] is its time value, an integer number of milliseconds or
      NaN; date strings of the interchange format are parsed here, any
      other string is left to the host, as the language leaves it;
    - the host's local zone is a fixed offset from UTC: a zone whose
      offset changes with the date is that host over the dates at which
      it keeps the offset, as [Asia/Taipei] has kept +08:00, with no
      daylight saving time, since 1980;
    - the arguments of a tool call have the types its declared schema
      gives them: strings for the times, a boolean for the all-day flag;
    - case is folded on ASCII letters, which is what the [i] flag does on
      the patterns used here, and what [toLowerCase] and [toUpperCase] do
      on the ASCII texts they are compared with; the correlator, which
      upper-cases codes of any text and asks [Intl] for the day of an
      instant in [Asia/Taipei], takes both from its runtime;
    - a Number is a binary64 value: the differences and quotients of the
      correlator are rounded as the format rounds them;
    - [Array.prototype.sort] is the stable sort the language requires. *)

From Stdlib Require Import ZArith List Bool Lia Ascii String Sorted Permutation.
From stdpp Require Import gmap strings list.
Import ListNotations.
Open Scope Z_scope.

(* ===================================================================== *)
(** ** JavaScript strings *)
(* ===================================================================== *)

Module JsString.

(** A string value: its UTF-16 code units. *)
Definition jsstring := list Z.

Definition jsstring_eqb (a b : jsstring) : bool :=
  bool_decide (a = b).

(** Source literals are written as UTF-8 text and decoded here. *)
Fixpoint bytes (s : string) : list Z :=
  match s with
  | EmptyString => []
  | String a r => Z.of_N (N_of_ascii a) :: bytes r
  end.

Definition units (cp : Z) : list Z :=
  if cp <? 65536 then [cp]
  else [55296 + (cp - 65536) / 1024; 56320 + (cp - 65536) mod 1024].

Fixpoint utf8 (bs : list Z) (need : nat) (acc : Z) : list Z :=
  match bs with
  | [] => []
  | b :: r =>
      match need with
      | O =>
          if b <? 128 then b :: utf8 r 0 0
          else if b <? 224 then utf8 r 1 (b - 192)
          else if b <? 240 then utf8 r 2 (b - 224)
          else utf8 r 3 (b - 240)
      | S n =>
          let acc' := acc * 64 + (b - 128) in
          match n with
          | O => units acc' ++ utf8 r 0 0
          | S _ => utf8 r n acc'
          end
      end
  end.

Definition js (s : string) : jsstring := utf8 (bytes s) 0 0.

(** Character predicates of the regular-expression grammar. *)
Definition isDigit (c : Z) : bool := (48 <=? c) && (c <=? 57).

Definition isWordChar (c : Z) : bool :=
  isDigit c || ((65 <=? c) && (c <=? 90)) || ((97 <=? c) && (c <=? 122))
  || (c =? 95).

Definition isLineTerminator (c : Z) : bool :=
  (c =? 10) || (c =? 13) || (c =? 8232) || (c =? 8233).

(** WhiteSpace and LineTerminator: what [\s] matches and [trim] strips. *)
Definition isSpace (c : Z) : bool :=
  ((9 <=? c) && (c <=? 13)) || (c =? 32) || (c =? 160) || (c =? 5760)
  || ((8192 <=? c) && (c <=? 8202)) || (c =? 8232) || (c =? 8233)
  || (c =? 8239) || (c =? 8287) || (c =? 12288) || (c =? 65279).

Definition inRange (lo hi c : Z) : bool := (lo <=? c) && (c <=? hi).

Definition oneOf (cs : jsstring) (c : Z) : bool := existsb (Z.eqb c) cs.

Definition noneOf (cs : jsstring) (c : Z) : bool := negb (oneOf cs c).

(** ASCII case folding; on the letters of the patterns below the [i] flag
    and [toLowerCase] agree with it. *)
Definition lowerUnit (c : Z) : Z :=
  if (65 <=? c) && (c <=? 90) then c + 32 else c.

Definition upperUnit (c : Z) : Z :=
  if (97 <=? c) && (c <=? 122) then c - 32 else c.

Definition toLowerCase (s : jsstring) : jsstring := map lowerUnit s.

Definition toUpperCase (s : jsstring) : jsstring := map upperUnit s.

Fixpoint trimStart (s : jsstring) : jsstring :=
  match s with
  | c :: r => if isSpace c then trimStart r else s
  | [] => []
  end.

Definition trimEnd (s : jsstring) : jsstring := rev (trimStart (rev s)).

Definition trim (s : jsstring) : jsstring := trimEnd (trimStart s).

(** Truthiness of a string: non-empty. *)
Definition truthy (s : jsstring) : bool :=
  match s with [] => false | _ => true end.

End JsString.
Export JsString.

(* ===================================================================== *)
(** ** Regular expressions *)
(* ===================================================================== *)

Module Regex.

Inductive regex : Type :=
| Empty                              (* the empty pattern *)
| Class (p : Z -> bool)              (* one code unit satisfying p *)
| Seq (r1 r2 : regex)
| Alt (r1 r2 : regex)                (* r1|r2, r1 tried first *)
| Star (greedy : bool) (r : regex)   (* r* and r*? *)
| Group (i : nat) (r : regex)        (* the i-th capturing group *)
| Bol                                (* ^ *)
| Eol                                (* $ *)
| WordB.                             (* \b *)

Definition captures := list (nat * jsstring).

Fixpoint cap (i : nat) (caps : captures) : option jsstring :=
  match caps with
  | [] => None
  | (j, v) :: r => if Nat.eqb i j then Some v else cap i r
  end.

Definition isWordOpt (c : option Z) : bool :=
  match c with Some x => isWordChar x | None => false end.

Section Matcher.

Context {A : Type}.

(** A continuation receives the unit before the current position, the
    rest of the input and the captures so far. *)
Definition cont := option Z -> jsstring -> captures -> option A.

Fixpoint rmatch (r : regex) (prev : option Z) (s : jsstring)
    (caps : captures) (k : cont) {struct r} : option A :=
  match r with
  | Empty => k prev s caps
  | Class p =>
      match s with
      | c :: s' => if p c then k (Some c) s' caps else None
      | [] => None
      end
  | Seq r1 r2 =>
      rmatch r1 prev s caps (fun prev' s' caps' => rmatch r2 prev' s' caps' k)
  | Alt r1 r2 =>
      match rmatch r1 prev s caps k with
      | Some x => Some x
      | None => rmatch r2 prev s caps k
      end
  | Star greedy r1 =>
      (fix loop (fuel : nat) (prev : option Z) (s : jsstring)
           (caps : captures) {struct fuel} : option A :=
         match fuel with
         | O => k prev s caps
         | S fuel' =>
             let again (_ : unit) :=
               rmatch r1 prev s caps
                 (fun prev' s' caps' =>
                    if (length s' <? length s)%nat
                    then loop fuel' prev' s' caps' else None) in
             if greedy then
               match again tt with
               | Some x => Some x
               | None => k prev s caps
               end
             else
               match k prev s caps with
               | Some x => Some x
               | None => again tt
               end
         end) (length s) prev s caps
  | Group i r1 =>
      rmatch r1 prev s caps
        (fun prev' s' caps' =>
           k prev' s' ((i, firstn (length s - length s') s) :: caps'))
  | Bol => match prev with None => k prev s caps | Some _ => None end
  | Eol => match s with [] => k prev s caps | _ :: _ => None end
  | WordB =>
      if xorb (isWordOpt prev) (isWordOpt (head s))
      then k prev s caps else None
  end.

End Matcher.

(** Derived forms. *)
Definition Opt (r : regex) : regex := Alt r Empty.            (* r? *)
Definition Plus (r : regex) : regex := Seq r (Star true r).   (* r+ *)

Fixpoint Rep (n : nat) (r : regex) : regex :=                 (* r{n} *)
  match n with O => Empty | S n' => Seq r (Rep n' r) end.

Fixpoint UpTo (n : nat) (r : regex) : regex :=                (* r{0,n} *)
  match n with O => Empty | S n' => Opt (Seq r (UpTo n' r)) end.

Definition Range (lo hi : nat) (r : regex) : regex :=         (* r{lo,hi} *)
  Seq (Rep lo r) (UpTo (hi - lo) r).

Definition Chr (c : Z) : regex := Class (Z.eqb c).

Fixpoint Lit (s : jsstring) : regex :=
  match s with [] => Empty | c :: r => Seq (Chr c) (Lit r) end.

(** A literal under the [i] flag. *)
Fixpoint LitI (s : jsstring) : regex :=
  match s with
  | [] => Empty
  | c :: r => Seq (Class (fun x => upperUnit x =? upperUnit c)) (LitI r)
  end.

Fixpoint Alts (rs : list regex) : regex :=
  match rs with
  | [] => Class (fun _ => false)
  | [r] => r
  | r :: rest => Alt r (Alts rest)
  end.

Fixpoint Seqs (rs : list regex) : regex :=
  match rs with
  | [] => Empty
  | [r] => r
  | r :: rest => Seq r (Seqs rest)
  end.

Definition Dot : regex := Class (fun c => negb (isLineTerminator c)).
Definition Digit : regex := Class isDigit.
Definition Space : regex := Class isSpace.

(** The result of a successful match. *)
Record mresult : Type := MResult {
  m_pre : jsstring;       (* the input before the match, reversed *)
  m_text : jsstring;      (* the matched text *)
  m_caps : captures;
  m_post : jsstring       (* the input after the match *)
}.

Definition matchAt (r : regex) (pre_rev s : jsstring) : option mresult :=
  rmatch r (head pre_rev) s []
    (fun _ s' caps =>
       Some (MResult pre_rev (firstn (length s - length s') s) caps s')).

(** [RegExp.prototype.exec] on a regex without the [g] flag: the leftmost
    match. *)
Fixpoint searchFrom (r : regex) (pre_rev s : jsstring) : option mresult :=
  match matchAt r pre_rev s with
  | Some m => Some m
  | None =>
      match s with
      | [] => None
      | c :: s' => searchFrom r (c :: pre_rev) s'
      end
  end.

Definition exec (r : regex) (s : jsstring) : option mresult :=
  searchFrom r [] s.

Definition test (r : regex) (s : jsstring) : bool :=
  match exec r s with Some _ => true | None => false end.

(** [m[i]] of a match array: [undefined] for a group that took no part. *)
Definition group (i : nat) (m : mresult) : option jsstring :=
  match i with
  | O => Some (m_text m)
  | _ => cap i (m_caps m)
  end.

Definition groupOr (i : nat) (m : mresult) : jsstring :=
  match group i m with Some v => v | None => [] end.

(** [s.replace(r, '')] for a regex without the [g] flag. *)
Definition removeFirst (r : regex) (s : jsstring) : jsstring :=
  match exec r s with
  | Some m => rev (m_pre m) ++ m_post m
  | None => s
  end.

(** [s.matchAll(r)] for a regex with the [g] flag; after an empty match
    the search resumes one unit further. *)
Fixpoint matchAllFrom (fuel : nat) (r : regex) (pre_rev s : jsstring)
  : list mresult :=
  match fuel with
  | O => []
  | S fuel' =>
      match searchFrom r pre_rev s with
      | None => []
      | Some m =>
          let pre' := rev (m_text m) ++ m_pre m in
          match m_text m, m_post m with
          | [], [] => [m]
          | [], c :: rest => m :: matchAllFrom fuel' r (c :: pre') rest
          | _ :: _, post => m :: matchAllFrom fuel' r pre' post
          end
      end
  end.

Definition matchAll (r : regex) (s : jsstring) : list mresult :=
  matchAllFrom (S (length s)) r [] s.

(** [s.split(r)] for a separator without capturing groups. *)
Fixpoint splitFrom (fuel : nat) (r : regex) (pre_rev piece_rev s : jsstring)
  : list jsstring :=
  match fuel with
  | O => [rev piece_rev ++ s]
  | S fuel' =>
      match s with
      | [] => [rev piece_rev]
      | c :: s' =>
          let step := splitFrom fuel' r (c :: pre_rev) (c :: piece_rev) s' in
          match matchAt r pre_rev s with
          | None => step
          | Some m =>
              match m_text m, piece_rev with
              | [], [] => step
              | _, _ =>
                  rev piece_rev
                  :: splitFrom fuel' r (rev (m_text m) ++ pre_rev) []
                       (m_post m)
              end
          end
      end
  end.

Definition splitRe (r : regex) (s : jsstring) : list jsstring :=
  splitFrom (2 * length s + 2) r [] [] s.

(** [s.split(c)] with a one-unit string separator. *)
Definition splitOn (c : Z) (s : jsstring) : list jsstring :=
  splitRe (Chr c) s.

End Regex.
Export Regex.

(* ===================================================================== *)
(** ** Dates *)
(* ===================================================================== *)

Module JsDate.

(** The time value of a [Date]: milliseconds since the epoch, [None] for
    NaN (an Invalid Date). *)
Definition Date := option Z.

Definition msPerDay : Z := 86400000.
Definition msPerHour : Z := 3600000.
Definition msPerMinute : Z := 60000.
Definition msPerSecond : Z := 1000.
Definition maxTime : Z := 8640000000000000.

Definition TimeClip (t : Z) : Date :=
  if Z.abs t <=? maxTime then Some t else None.

Definition Day (t : Z) : Z := t / msPerDay.
Definition TimeWithinDay (t : Z) : Z := t mod msPerDay.

Definition DayFromYear (y : Z) : Z :=
  365 * (y - 1970) + (y - 1969) / 4 - (y - 1901) / 100 + (y - 1601) / 400.

Definition InLeapYear (y : Z) : bool :=
  ((y mod 4 =? 0) && negb (y mod 100 =? 0)) || (y mod 400 =? 0).

Definition leapDays (y : Z) : Z := if InLeapYear y then 1 else 0.

(** The year of a day number: the largest [y] with [DayFromYear y <= d]. *)
Definition YearFromDay (d : Z) : Z :=
  let y := 1970 + (d * 400) / 146097 in
  if d <? DayFromYear y then y - 1
  else if DayFromYear (y + 1) <=? d then y + 1
  else y.

(** The day-within-year on which month [m] (0..11) starts. *)
Definition monthStart (m : Z) (leap : Z) : Z :=
  if m <=? 0 then 0
  else if m =? 1 then 31
  else if m =? 2 then 59 + leap
  else if m =? 3 then 90 + leap
  else if m =? 4 then 120 + leap
  else if m =? 5 then 151 + leap
  else if m =? 6 then 181 + leap
  else if m =? 7 then 212 + leap
  else if m =? 8 then 243 + leap
  else if m =? 9 then 273 + leap
  else if m =? 10 then 304 + leap
  else if m =? 11 then 334 + leap
  else 365 + leap.

Definition monthOfDayInYear (dwy leap : Z) : Z :=
  if dwy <? 31 then 0
  else if dwy <? 59 + leap then 1
  else if dwy <? 90 + leap then 2
  else if dwy <? 120 + leap then 3
  else if dwy <? 151 + leap then 4
  else if dwy <? 181 + leap then 5
  else if dwy <? 212 + leap then 6
  else if dwy <? 243 + leap then 7
  else if dwy <? 273 + leap then 8
  else if dwy <? 304 + leap then 9
  else if dwy <? 334 + leap then 10
  else 11.

Definition YearFromTime (t : Z) : Z := YearFromDay (Day t).

Definition DayWithinYear (t : Z) : Z := Day t - DayFromYear (YearFromTime t).

Definition MonthFromTime (t : Z) : Z :=
  monthOfDayInYear (DayWithinYear t) (leapDays (YearFromTime t)).

Definition DateFromTime (t : Z) : Z :=
  DayWithinYear t
  - monthStart (MonthFromTime t) (leapDays (YearFromTime t)) + 1.

Definition DaysInMonth (y m : Z) : Z :=
  monthStart (m + 1) (leapDays y) - monthStart m (leapDays y).

Definition MakeDay (year month date : Z) : Z :=
  let ym := year + month / 12 in
  let mn := month mod 12 in
  DayFromYear ym + monthStart mn (leapDays ym) + date - 1.

Definition MakeTime (hour min sec ms : Z) : Z :=
  hour * msPerHour + min * msPerMinute + sec * msPerSecond + ms.

Definition MakeDate (day time : Z) : Z := day * msPerDay + time.

(** Years 0..99 given to [Date.UTC] or to the [Date] constructor mean
    1900..1999. *)
Definition fullYear (y : Z) : Z :=
  if (0 <=? y) && (y <=? 99) then 1900 + y else y.

(** What the host decides: its local zone, as a fixed offset from UTC in
    milliseconds; the instant [new Date()] reads; and the date strings it
    accepts beyond the interchange format, which the language leaves to
    the implementation.  A zone whose offset changes with the date
    (daylight saving time, a change of standard time) is such a host
    over the dates at which it keeps the offset, and over those only. *)
Record Host : Type := MkHost {
  localTZA : Z;
  now : Z;
  hostParse : jsstring -> option Z
}.

(** [Date.UTC(y, m, d, h, mi, s)] *)
Definition DateUTC (y m d h mi s : Z) : Date :=
  TimeClip (MakeDate (MakeDay (fullYear y) m d) (MakeTime h mi s 0)).

(** [new Date(y, m, d, h, mi, s, ms)]: the fields are local time. *)
Definition newDateLocal (env : Host) (y m d h mi s ms : Z) : Date :=
  TimeClip (MakeDate (MakeDay (fullYear y) m d) (MakeTime h mi s ms)
            - localTZA env).

(** [new Date(n)] for a number [n], NaN included. *)
Definition newDateNum (n : option Z) : Date :=
  match n with Some t => TimeClip t | None => None end.

Definition getTime (d : Date) : option Z := d.

(** [a + b] on numbers, NaN included. *)
Definition numAdd (a : option Z) (b : Z) : option Z :=
  match a with Some x => Some (x + b) | None => None end.

Definition LocalTime (env : Host) (t : Z) : Z := t + localTZA env.

Definition getFullYear (env : Host) (d : Date) : option Z :=
  match d with Some t => Some (YearFromTime (LocalTime env t)) | None => None end.

Definition getMonth (env : Host) (d : Date) : option Z :=
  match d with Some t => Some (MonthFromTime (LocalTime env t)) | None => None end.

Definition getDate (env : Host) (d : Date) : option Z :=
  match d with Some t => Some (DateFromTime (LocalTime env t)) | None => None end.

Definition getUTCFullYear (d : Date) : option Z :=
  match d with Some t => Some (YearFromTime t) | None => None end.

Definition getUTCMonth (d : Date) : option Z :=
  match d with Some t => Some (MonthFromTime t) | None => None end.

Definition getUTCDate (d : Date) : option Z :=
  match d with Some t => Some (DateFromTime t) | None => None end.

(** [new Date(y, m, d, 0, 0, 0, 0)] with fields that may be NaN. *)
Definition newDateLocalMidnight (env : Host) (y m d : option Z) : Date :=
  match y, m, d with
  | Some y, Some m, Some d => newDateLocal env y m d 0 0 0 0
  | _, _, _ => None
  end.

(** Relational comparison of two dates: through their time values, false
    as soon as one is NaN. *)
Definition dateLe (a b : Date) : bool :=
  match a, b with
  | Some x, Some y => x <=? y
  | _, _ => false
  end.

Definition dateLt (a b : Date) : bool :=
  match a, b with
  | Some x, Some y => x <? y
  | _, _ => false
  end.

(** *** The date-time interchange format

    [YYYY-MM-DDTHH:mm:ss.sssZ] and its shorter forms, with four-digit or
    signed six-digit years.  A string of this format with legal fields has
    one meaning on every host; any other string is left to the host. *)

Fixpoint readDigits (n : nat) (acc : Z) (s : jsstring)
  : option (Z * jsstring) :=
  match n with
  | O => Some (acc, s)
  | S n' =>
      match s with
      | c :: r =>
          if isDigit c then readDigits n' (acc * 10 + (c - 48)) r else None
      | [] => None
      end
  end.

Definition readYear (s : jsstring) : option (Z * jsstring) :=
  match s with
  | 43 :: r => readDigits 6 0 r                                (* + *)
  | 45 :: r =>                                                 (* - *)
      match readDigits 6 0 r with
      | Some (y, r') => if y =? 0 then None else Some (- y, r')
      | None => None
      end
  | _ => readDigits 4 0 s
  end.

(** [-MM] and [-MM-DD], both optional: month and day, counted from 1. *)
Definition readMonthDay (s : jsstring) : option (Z * Z * jsstring) :=
  match s with
  | 45 :: r =>
      match readDigits 2 0 r with
      | Some (mo, 45 :: r') =>
          match readDigits 2 0 r' with
          | Some (d, r'') => Some (mo, d, r'')
          | None => None
          end
      | Some (mo, r') => Some (mo, 1, r')
      | None => None
      end
  | _ => Some (1, 1, s)
  end.

(** [HH:mm], [HH:mm:ss] or [HH:mm:ss.sss], as milliseconds. *)
Definition readTime (s : jsstring) : option (Z * jsstring) :=
  match readDigits 2 0 s with
  | Some (h, 58 :: r) =>
      match readDigits 2 0 r with
      | Some (mi, r') =>
          if (h <=? 23) && (mi <=? 59) then
            match r' with
            | 58 :: r2 =>
                match readDigits 2 0 r2 with
                | Some (sec, r3) =>
                    if sec <=? 59 then
                      match r3 with
                      | 46 :: r4 =>
                          match readDigits 3 0 r4 with
                          | Some (ms, r5) => Some (MakeTime h mi sec ms, r5)
                          | None => None
                          end
                      | _ => Some (MakeTime h mi sec 0, r3)
                      end
                    else None
                | None => None
                end
            | _ => Some (MakeTime h mi 0 0, r')
            end
          else None
      | None => None
      end
  | _ => None
  end.

(** The offset: [Z], [+HH:mm], [-HH:mm] or none; [None] inside [Some] is
    the absent offset. *)
Definition readOffset (s : jsstring) : option (option Z) :=
  match s with
  | [] => Some None
  | [90] => Some (Some 0)                                      (* Z *)
  | sign :: r =>
      if (sign =? 43) || (sign =? 45) then
        match readDigits 2 0 r with
        | Some (h, 58 :: r') =>
            match readDigits 2 0 r' with
            | Some (mi, []) =>
                if (h <=? 23) && (mi <=? 59) then
                  let off := h * msPerHour + mi * msPerMinute in
                  Some (Some (if sign =? 43 then off else - off))
                else None
            | _ => None
            end
        | _ => None
        end
      else None
  end.

(** The time value a string of the interchange format denotes, before
    [TimeClip]; [None] when the string is not of the format. *)
Definition isoParse (tza : Z) (s : jsstring) : option Z :=
  match readYear s with
  | None => None
  | Some (y, r) =>
      match readMonthDay r with
      | None => None
      | Some (mo, d, r') =>
          if (1 <=? mo) && (mo <=? 12) && (1 <=? d)
             && (d <=? DaysInMonth y (mo - 1)) then
            let day := MakeDay y (mo - 1) d in
            match r' with
            | [] => Some (MakeDate day 0)          (* date only: UTC *)
            | 84 :: r2 =>                          (* T *)
                match readTime r2 with
                | None => None
                | Some (time, r3) =>
                    match readOffset r3 with
                    | None => None
                    | Some (Some off) => Some (MakeDate day time - off)
                    | Some None => Some (MakeDate day time - tza)
                    end
                end
            | _ => None
            end
          else None
      end
  end.

(** [new Date(s)] for a string [s]. *)
Definition newDateStr (env : Host) (s : jsstring) : Date :=
  match isoParse (localTZA env) s with
  | Some t => TimeClip t
  | None =>
      match hostParse env s with
      | Some t => TimeClip t
      | None => None
      end
  end.

(** [isNaN(d.getTime()) ? null : d] *)
Definition validOrNull (d : Date) : option Date :=
  match d with Some t => Some (Some t) | None => None end.

End JsDate.
Export JsDate.

(* ===================================================================== *)
(** ** shared/datetime.ts *)
(* ===================================================================== *)

Module DateTime.

Definition hourMs : Z := 60 * 60 * 1000.
Definition dayMs : Z := 24 * 60 * 60 * 1000.

(** [/T.*[Z\+\-]\d{0,2}:?\d{0,2}$/] *)
Definition reIsoWithZone : regex :=
  Seqs [Chr 84; Star true Dot; Class (oneOf (js "Z+-"));
        Range 0 2 Digit; Opt (Chr 58); Range 0 2 Digit; Eol].

(** [\d{4}-\d{2}-\d{2}] *)
Definition reYmd : regex :=
  Seqs [Rep 4 Digit; Chr 45; Rep 2 Digit; Chr 45; Rep 2 Digit].

(** [/^(\d{4}-\d{2}-\d{2})[ T](\d{2}:\d{2})$/] *)
Definition reDateTime : regex :=
  Seqs [Bol; Group 1 reYmd; Class (oneOf (js " T"));
        Group 2 (Seqs [Rep 2 Digit; Chr 58; Rep 2 Digit]); Eol].

(** [/^(\d{4}-\d{2}-\d{2})$/] *)
Definition reDateOnly : regex := Seqs [Bol; Group 1 reYmd; Eol].

(** [parseModelDateTimeLocal(value)]; [None] is [null].  The argument is
    [None] for [undefined]. *)
Definition parseModelDateTimeLocal (env : Host) (value : option jsstring)
  : option Date :=
  match value with
  | None => None
  | Some [] => None
  | Some v =>
      if test reIsoWithZone v then validOrNull (newDateStr env v)
      else
        match exec reDateTime v with
        | Some m =>
            let s := groupOr 1 m ++ js "T" ++ groupOr 2 m ++ js "+08:00" in
            validOrNull (newDateStr env s)
        | None =>
            match exec reDateOnly v with
            | Some m2 =>
                let s := groupOr 1 m2 ++ js "T00:00+08:00" in
                validOrNull (newDateStr env s)
            | None => validOrNull (newDateStr env v)
            end
        end
  end.

(** [parseInt(s, 10)]: leading white space, an optional sign, then the
    longest run of digits; [None] is NaN. *)
Fixpoint digitRun (s : jsstring) (acc : option Z) : option Z :=
  match s with
  | c :: r =>
      if isDigit c
      then digitRun r (Some (match acc with Some a => a | None => 0 end * 10
                             + (c - 48)))
      else acc
  | [] => acc
  end.

Definition parseInt10 (s : jsstring) : option Z :=
  match trimStart s with
  | 45 :: r => match digitRun r None with Some n => Some (- n) | None => None end
  | 43 :: r => digitRun r None
  | r => digitRun r None
  end.

(** [n.toString()] for an integer. *)
Fixpoint digitsOf (fuel : nat) (n : Z) (acc : jsstring) : jsstring :=
  match fuel with
  | O => acc
  | S f =>
      let acc' := (48 + n mod 10) :: acc in
      if n <? 10 then acc' else digitsOf f (n / 10) acc'
  end.

Definition numToString (n : Z) : jsstring :=
  if n <? 0 then 45 :: digitsOf (S (Z.to_nat (Z.log2 (- n)))) (- n) []
  else digitsOf (S (Z.to_nat (Z.log2 n))) n [].

(** [s.padStart(n, "0")] *)
Definition padStart (n : nat) (s : jsstring) : jsstring :=
  repeat 48 (n - length s) ++ s.

Definition reColon : regex := Class (oneOf (js ":："))%Z.

(** [(\d{4})年(\d{1,2})月(\d{1,2})日] with groups numbered from [g]. *)
Definition reChineseDate (g : nat) : regex :=
  Seqs [Group g (Rep 4 Digit); Lit (js "年");
        Group (S g) (Range 1 2 Digit); Lit (js "月");
        Group (S (S g)) (Range 1 2 Digit); Lit (js "日")].

(** [([0-2]?\d:[0-5]\d)] as group [g]. *)
Definition reClock (g : nat) : regex :=
  Group g (Seqs [Opt (Class (inRange 48 50)); Digit; Chr 58;
                 Class (inRange 48 53); Digit]).

(** The two date patterns of [parseTransportDateTimeV2], each with the
    length of its match array. *)
Definition dateRegexes : list (regex * nat) :=
  [ (Seqs [Group 1 (Alt (Lit (js "行程日期")) (Lit (js "日期")));
           Opt reColon; Star true Space; reChineseDate 2], 5%nat);
    (reChineseDate 1, 4%nat) ].

Definition timeRegexes : list (regex * nat) :=
  [ (Seqs [Group 1 (Alt (Lit (js "行程時間")) (Lit (js "時間")));
           Opt reColon; Star true Space; reClock 2], 3%nat);
    (Seqs [WordB; reClock 1; WordB], 2%nat) ].

(** The first pattern of a list that matches, with its match. *)
Fixpoint firstMatch (res : list (regex * nat)) (text : jsstring)
  : option (mresult * nat) :=
  match res with
  | [] => None
  | (re, len) :: rest =>
      match exec re text with
      | Some m => Some (m, len)
      | None => firstMatch rest text
      end
  end.

Definition parseGroup (i : nat) (m : mresult) : option Z :=
  parseInt10 (groupOr i m).

(** [parseTransportDateTimeV2(text)]; [None] is [null].  A field that
    [parseInt] turns into NaN makes the assembled string unparseable. *)
Definition parseTransportDateTimeV2 (env : Host) (text : jsstring)
  : option Date :=
  match text with
  | [] => None
  | _ =>
      match firstMatch dateRegexes text, firstMatch timeRegexes text with
      | Some (md, dlen), Some (mt, tlen) =>
          let g := if (5 <=? dlen)%nat then 2%nat else 1%nat in
          let t := splitOn 58 (groupOr (tlen - 1) mt) in
          match parseGroup g md, parseGroup (S g) md, parseGroup (S (S g)) md,
                parseInt10 (nth 0 t []), parseInt10 (nth 1 t []) with
          | Some y, Some mo, Some d, Some hh, Some mm =>
              let m := mo - 1 in
              let iso :=
                padStart 4 (numToString y) ++ js "-"
                ++ padStart 2 (numToString (m + 1)) ++ js "-"
                ++ padStart 2 (numToString d) ++ js "T"
                ++ padStart 2 (numToString hh) ++ js ":"
                ++ padStart 2 (numToString mm) ++ js ":00+08:00" in
              validOrNull (newDateStr env iso)
          | _, _, _, _, _ => None
          end
      | _, _ => None
      end
  end.

(** The normalized times of an event: [{ start, end, allDay }], with
    [endTime] for the source's [end]. *)
Record EventTimes : Type := MkTimes {
  start : Date;
  endTime : Date;
  allDay : bool
}.

(** A nullable date where the source tests [!d]: only [null] is falsy, an
    Invalid Date is an object and so truthy. *)
Definition orElse (d : option Date) (alt : option Date) : option Date :=
  match d with Some _ => d | None => alt end.

(** [normalizeEventTimesFromText({ startTime, endTime, allDay })].
    [startTime] and [endTime] are strings or [undefined]. *)
Definition normalizeEventTimesFromText (env : Host)
    (startTime endTime : option jsstring) (allDayArg : bool) : EventTimes :=
  let start0 := parseModelDateTimeLocal env startTime in
  let end0 := parseModelDateTimeLocal env endTime in
  (* if (!start && args.startTime) start = new Date(args.startTime) *)
  let start1 :=
    match start0, startTime with
    | None, Some (c :: v) => Some (newDateStr env (c :: v))
    | _, _ => start0
    end in
  let end1 :=
    match end0, endTime with
    | None, Some (c :: v) => Some (newDateStr env (c :: v))
    | _, _ => end0
    end in
  (* if (!start && /^\d{4}-\d{2}-\d{2}$/.test(startTime)) ... *)
  let start2 :=
    match start1, startTime with
    | None, Some v =>
        if test reDateOnly v
        then orElse (parseModelDateTimeLocal env startTime) start1
        else start1
    | _, _ => start1
    end in
  (* if (!start) start = new Date() *)
  let start3 : Date :=
    match start2 with Some d => d | None => Some (now env) end in
  (* if (!end) end = new Date(start.getTime() + 60 * 60 * 1000) *)
  let end3 : Date :=
    match end1 with
    | Some d => d
    | None => newDateNum (numAdd (getTime start3) hourMs)
    end in
  let '(start4, end4) :=
    if allDayArg then
      let y := getFullYear env start3 in
      let m := getMonth env start3 in
      let d := getDate env start3 in
      let startLocal := newDateLocalMidnight env y m d in
      (startLocal, newDateNum (numAdd (getTime startLocal) dayMs))
    else (start3, end3) in
  let end5 :=
    if dateLe end4 start4
    then newDateNum (numAdd (getTime start4) hourMs)
    else end4 in
  MkTimes start4 end5 allDayArg.

End DateTime.

(* ===================================================================== *)
(** ** Tool-call arguments and stored events *)
(* ===================================================================== *)

Module Payload.

(** The values of a tool call's JSON arguments, and the dates the
    handlers put in their place. *)
Inductive value : Type :=
| VStr (s : jsstring)
| VBool (b : bool)
| VDate (d : Date).

(** Truthiness of a property that may be missing. *)
Definition toBoolean (v : option value) : bool :=
  match v with
  | Some (VStr s) => truthy s
  | Some (VBool b) => b
  | Some (VDate _) => true
  | None => false
  end.

(** [v || ''] for a property read as text. *)
Definition strOrEmpty (v : option value) : jsstring :=
  match v with
  | Some (VStr s) => s
  | _ => []
  end.

(** A property handed to the normalizer as a time.  A string goes through
    as it is and a missing or falsy value counts as [undefined]; a truthy
    value that is not a string has no [match] method, so the parser
    throws: the outer [None]. *)
Definition asTimeArg (v : option value) : option (option jsstring) :=
  match v with
  | None => Some None
  | Some (VStr s) => Some (Some s)
  | Some (VBool false) => Some None
  | Some (VBool true) => None
  | Some (VDate _) => None
  end.

(** The arguments of [createCalendarEvent], typed by the tool's declared
    schema. *)
Record CreateArgs : Type := MkCreateArgs {
  arg_title : option jsstring;
  arg_startTime : option jsstring;
  arg_endTime : option jsstring;
  arg_description : option jsstring;
  arg_location : option jsstring;
  arg_allDay : option bool
}.

(** The record handed to the persistence layer on creation. *)
Record NewEvent : Type := MkNewEvent {
  ev_title : option jsstring;
  ev_startTime : Date;
  ev_endTime : Date;
  ev_description : jsstring;
  ev_location : jsstring;
  ev_allDay : bool
}.

Definition optStr (s : option jsstring) : jsstring :=
  match s with Some v => v | None => [] end.

Definition optBool (b : option bool) : bool :=
  match b with Some v => v | None => false end.

(** The time triple of a created event. *)
Definition timesOf (e : NewEvent) : DateTime.EventTimes :=
  DateTime.MkTimes (ev_startTime e) (ev_endTime e) (ev_allDay e).

(** [doc.update(fields)]: the fields given are written, the others of the
    stored document stay.  The webhook calls it with the fields as they
    are; the browser's persistence layer calls it with the same fields,
    dates turned into timestamps. *)
Definition applyUpdate (stored fields : gmap string value)
  : gmap string value :=
  fields ∪ stored.

End Payload.
Export Payload.

(* ===================================================================== *)
(** ** The messaging webhook (server) *)
(* ===================================================================== *)

Module Server.

Import DateTime.

(** [/行程日期[:：]\s*(\d{4})年(\d{1,2})月(\d{1,2})日/] *)
Definition reLegacyDate : regex :=
  Seqs [Lit (js "行程日期"); reColon; Star true Space; reChineseDate 1].

(** [/行程時間[:：]\s*([0-2]?\d:[0-5]\d)/] *)
Definition reLegacyTime : regex :=
  Seqs [Lit (js "行程時間"); reColon; Star true Space; reClock 1].

(** [parseTransportDateTime(text)], the legacy parser. *)
Definition parseTransportDateTime (text : jsstring) : option Date :=
  match text with
  | [] => None
  | _ =>
      match exec reLegacyDate text, exec reLegacyTime text with
      | Some dateMatch, Some timeMatch =>
          let t := map parseInt10 (splitOn 58 (groupOr 1 timeMatch)) in
          match parseGroup 1 dateMatch, parseGroup 2 dateMatch,
                parseGroup 3 dateMatch, nth 0 t None, nth 1 t None with
          | Some y, Some mo, Some d, Some hh, Some mm =>
              Some (newDateNum (DateUTC y (mo - 1) d (hh - 8) mm 0))
          | _, _, _, _, _ => Some None
          end
      | _, _ => None
      end
  end.

(** The webhook's own copy of the normalizer, which [handleEvent] does not
    call.  Its [parseModelDateTimeLocal] is the shared one word for word;
    it differs from the shared normalizer in the all-day branch, which
    reads the UTC fields of [start]. *)
Definition normalizeEventTimesFromText (env : Host)
    (startTime endTime : option jsstring) (allDayArg : bool) : EventTimes :=
  let start0 := parseModelDateTimeLocal env startTime in
  let end0 := parseModelDateTimeLocal env endTime in
  let start1 :=
    match start0, startTime with
    | None, Some (c :: v) => Some (newDateStr env (c :: v))
    | _, _ => start0
    end in
  let end1 :=
    match end0, endTime with
    | None, Some (c :: v) => Some (newDateStr env (c :: v))
    | _, _ => end0
    end in
  let start2 :=
    match start1, startTime with
    | None, Some v =>
        if test reDateOnly v
        then orElse (parseModelDateTimeLocal env startTime) start1
        else start1
    | _, _ => start1
    end in
  let start3 : Date :=
    match start2 with Some d => d | None => Some (now env) end in
  let end3 : Date :=
    match end1 with
    | Some d => d
    | None => newDateNum (numAdd (getTime start3) hourMs)
    end in
  let '(start4, end4) :=
    if allDayArg then
      match getUTCFullYear start3, getUTCMonth start3, getUTCDate start3 with
      | Some y, Some m, Some d =>
          let startUtc := DateUTC y m d 0 0 0 in
          (newDateNum startUtc, newDateNum (numAdd startUtc dayMs))
      | _, _, _ => (None, None)
      end
    else (start3, end3) in
  let end5 :=
    if dateLe end4 start4
    then newDateNum (numAdd (getTime start4) hourMs)
    else end4 in
  MkTimes start4 end5 allDayArg.

(** The embedded date and time of a description:
    [parseTransportDateTimeV2(desc) || parseTransportDateTime(desc)]. *)
Definition transportOverride (env : Host) (desc : jsstring) : option Date :=
  orElse (parseTransportDateTimeV2 env desc) (parseTransportDateTime desc).

(** [{ start: dt, end: new Date(dt.getTime() + 60 * 60 * 1000),
      allDay: false }] *)
Definition overrideTimes (dt : Date) : EventTimes :=
  MkTimes dt (newDateNum (numAdd (getTime dt) hourMs)) false.

(** The all-day block of the handler: back to midnight of the host's
    local day, one day long. *)
Definition snapAllDay (env : Host) (n : EventTimes) : EventTimes :=
  let yy := getFullYear env (start n) in
  let mm := getMonth env (start n) in
  let dd := getDate env (start n) in
  let startLocal := newDateLocalMidnight env yy mm dd in
  MkTimes startLocal (newDateNum (numAdd (getTime startLocal) dayMs)) true.

(** The [createCalendarEvent] branch of [handleEvent]: the document added
    to the [events] collection. *)
Definition createCalendarEvent (env : Host) (args : CreateArgs) : NewEvent :=
  let norm :=
    DateTime.normalizeEventTimesFromText env (arg_startTime args)
      (arg_endTime args) (optBool (arg_allDay args)) in
  let dt := transportOverride env (optStr (arg_description args)) in
  let norm1 :=
    match dt with
    | Some d => overrideTimes d
    | None => norm
    end in
  let norm2 :=
    if optBool (arg_allDay args) then snapAllDay env norm1 else norm1 in
  MkNewEvent (arg_title args) (start norm2) (endTime norm2)
    (optStr (arg_description args)) (optStr (arg_location args))
    (optBool (arg_allDay args)).

(** Whether the update branch normalizes:
    [startTime || endTime || allDay !== undefined]. *)
Definition touchesTimes (updates : gmap string value) : bool :=
  toBoolean (updates !! "startTime") || toBoolean (updates !! "endTime")
  || bool_decide (is_Some (updates !! "allDay")).

(** [new Date(v)] for a truthy property of the else branch. *)
Definition newDateValue (env : Host) (v : value) : value :=
  match v with
  | VStr s => VDate (newDateStr env s)
  | VBool b => VDate (Some (if b then 1 else 0))
  | VDate d => VDate d
  end.

Definition reparse (env : Host) (k : string) (m : gmap string value)
  : gmap string value :=
  match m !! k with
  | Some v => if toBoolean (Some v) then <[k := newDateValue env v]> m else m
  | None => m
  end.

(** The [updateCalendarEvent] branch of [handleEvent]: the fields passed
    to [update].  The outer [None] is a thrown exception, and [Some None]
    is the branch doing nothing for want of an [id]. *)
Definition updateCalendarEvent (env : Host) (args : gmap string value)
  : option (option (gmap string value)) :=
  let updates := delete "id" args in
  if toBoolean (args !! "id") then
    if touchesTimes updates then
      match asTimeArg (updates !! "startTime"),
            asTimeArg (updates !! "endTime") with
      | Some st, Some en =>
          let norm :=
            DateTime.normalizeEventTimesFromText env st en
              (toBoolean (updates !! "allDay")) in
          let dt2 :=
            transportOverride env (strOrEmpty (updates !! "description")) in
          let norm1 :=
            match dt2 with
            | Some d => overrideTimes d
            | None => norm
            end in
          let norm2 :=
            if toBoolean (updates !! "allDay") then snapAllDay env norm1
            else norm1 in
          Some (Some (<["startTime" := VDate (start norm2)]>
                     (<["endTime" := VDate (endTime norm2)]>
                     (<["allDay" := VBool (allDay norm2)]> updates))))
      | _, _ => None
      end
    else
      Some (Some (reparse env "endTime" (reparse env "startTime" updates)))
  else Some None.

End Server.

(* ===================================================================== *)
(** ** The assistant modal (client) *)
(* ===================================================================== *)

Module Client.

Import DateTime.

(** [safeParseDate(dateStr)] *)
Definition safeParseDate (env : Host) (dateStr : jsstring) : Date :=
  match dateStr with
  | [] => Some (now env)
  | _ =>
      let safeStr :=
        if existsb (Z.eqb 32) dateStr && negb (existsb (Z.eqb 84) dateStr)
        then
          match exec (Chr 32) dateStr with
          | Some m => rev (m_pre m) ++ js "T" ++ m_post m
          | None => dateStr
          end
        else dateStr in
      match newDateStr env safeStr with
      | Some t => Some t
      | None => Some (now env)
      end
  end.

(** The [createCalendarEvent] branch of [handleSubmit]: the event passed
    to [onAddEvent]. *)
Definition createCalendarEvent (env : Host) (args : CreateArgs) : NewEvent :=
  let norm := normalizeEventTimesFromText env (arg_startTime args)
                (arg_endTime args) (optBool (arg_allDay args)) in
  MkNewEvent
    (Some (match arg_title args with
           | Some (c :: t) => c :: t
           | _ => js "New Event"
           end))
    (start norm) (endTime norm)
    (optStr (arg_description args)) (optStr (arg_location args))
    (allDay norm).

Definition touchesTimes (updates : gmap string value) : bool :=
  toBoolean (updates !! "startTime") || toBoolean (updates !! "endTime")
  || bool_decide (is_Some (updates !! "allDay")).

(** [parseModelDateTimeLocal(v) || safeParseDate(v)] of the else branch. *)
Definition reparse (env : Host) (k : string) (m : gmap string value)
  : gmap string value :=
  match m !! k with
  | Some (VStr (c :: s)) =>
      let d := match parseModelDateTimeLocal env (Some (c :: s)) with
               | Some d => d
               | None => safeParseDate env (c :: s)
               end in
      <[k := VDate d]> m
  | _ => m
  end.

(** The [updateCalendarEvent] branch of [handleSubmit]: the updates passed
    to [onUpdateEvent], with the conventions of the server's. *)
Definition updateCalendarEvent (env : Host) (args : gmap string value)
  : option (option (gmap string value)) :=
  let updates := delete "id" args in
  if toBoolean (args !! "id") then
    if touchesTimes updates then
      match asTimeArg (updates !! "startTime"),
            asTimeArg (updates !! "endTime") with
      | Some st, Some en =>
          let normU := normalizeEventTimesFromText env st en
                         (toBoolean (updates !! "allDay")) in
          Some (Some (<["startTime" := VDate (start normU)]>
                     (<["endTime" := VDate (endTime normU)]>
                     (<["allDay" := VBool (allDay normU)]> updates))))
      | _, _ => None
      end
    else
      Some (Some (reparse env "endTime" (reparse env "startTime" updates)))
  else Some None.

End Client.

(* ===================================================================== *)
(** ** Numbers *)
(* ===================================================================== *)

(** The arithmetic of the correlator is that of the Number type, the
    binary64 format: a difference or a quotient is the value of the
    format nearest to the exact one, halves going to the even
    significand.  The operands met here are time values and small
    constants, so that every result is finite, below [2^54] in size. *)
Module JsNumber.

(** The integer nearest to [n / d], for a positive [d]; a half goes to the
    even neighbour. *)
Definition roundHalfEven (n d : Z) : Z :=
  let q := n / d in
  let r := n mod d in
  if 2 * r <? d then q
  else if d <? 2 * r then q + 1
  else if Z.even q then q else q + 1.

(** The Number nearest to an integer: itself up to 53 bits, and beyond
    them the nearest multiple of the power of two that leaves 53. *)
Definition ofInteger (z : Z) : Z :=
  let e := Z.log2 (Z.abs z) - 52 in
  if e <=? 0 then z
  else Z.sgn z * (roundHalfEven (Z.abs z) (2 ^ e) * 2 ^ e).

(** [a - b] on two integral Numbers. *)
Definition minus (a b : Z) : Z := ofInteger (a - b).

(** [floor (log2 (n / d))], for positive [n] and [d]. *)
Definition log2Quot (n d : Z) : Z :=
  let k := Z.log2 n - Z.log2 d in
  if 0 <=? k
  then (if d * 2 ^ k <=? n then k else k - 1)
  else (if d <=? n * 2 ^ (- k) then k else k - 1).

(** A finite Number as a significand and an exponent: the value
    [significand * 2^exponent]. *)
Record number : Type := MkNumber {
  significand : Z;
  exponent : Z
}.

(** [n / d] for an integral Number [n] and a positive integer [d]: 53
    bits of the exact quotient, or fewer below the least normal
    exponent. *)
Definition quotient (n d : Z) : number :=
  if n =? 0 then MkNumber 0 0
  else
    let a := Z.abs n in
    let e := Z.max (log2Quot a d - 52) (-1074) in
    let m :=
      if 0 <=? e then roundHalfEven a (d * 2 ^ e)
      else roundHalfEven (a * 2 ^ (- e)) d in
    MkNumber (Z.sgn n * m) e.

(** [Math.round(x)]: the integer nearest to [x], a half going up. *)
Definition mathRound (x : number) : Z :=
  if 0 <=? exponent x then significand x * 2 ^ exponent x
  else (significand x + 2 ^ (- exponent x - 1)) / 2 ^ (- exponent x).

End JsNumber.

(* ===================================================================== *)
(** ** The flight-status correlator (server) *)
(* ===================================================================== *)

Module Flights.

Import JsNumber.

(** An airport of a provider record. *)
Record FlightEndpoint : Type := MkEndpoint {
  code : option jsstring;
  code_iata : option jsstring;
  code_icao : option jsstring;
  code_lid : option jsstring;
  name : option jsstring;
  city : option jsstring;
  timezone : option jsstring
}.

(** A provider record, with the fields the correlator reads. *)
Record FlightRecord : Type := MkFlight {
  ident : jsstring;
  ident_iata : option jsstring;
  ident_icao : option jsstring;
  operator : option jsstring;
  status : jsstring;
  origin : option FlightEndpoint;
  destination : option FlightEndpoint;
  scheduled_out : option jsstring;
  estimated_out : option jsstring;
  actual_out : option jsstring;
  scheduled_off : option jsstring;
  estimated_off : option jsstring;
  actual_off : option jsstring;
  scheduled_on : option jsstring;
  estimated_on : option jsstring;
  actual_on : option jsstring;
  scheduled_in : option jsstring;
  estimated_in : option jsstring;
  actual_in : option jsstring;
  gate_origin : option jsstring;
  gate_destination : option jsstring;
  terminal_origin : option jsstring;
  terminal_destination : option jsstring;
  baggage_claim : option jsstring;
  arrival_delay : option Z
}.

Record FlightEndpointInfo : Type := MkEndpointInfo {
  info_code : option jsstring;
  info_alternateCode : option jsstring;
  info_airportName : option jsstring;
  info_city : option jsstring;
  info_terminal : option jsstring;
  info_gate : option jsstring;
  info_timezone : option jsstring
}.

(** The payload of a status answer.  [trackingUrl], a constant prefix
    before the encoded [ident], is left out; [fetchedAt] is kept as the
    instant it renders. *)
Record FlightStatusPayload : Type := MkPayload {
  p_ident : jsstring;
  p_operator : option jsstring;
  p_flightNumber : jsstring;
  p_status : jsstring;
  p_statusText : jsstring;
  p_origin : FlightEndpointInfo;
  p_destination : FlightEndpointInfo;
  p_scheduledDeparture : option jsstring;
  p_estimatedDeparture : option jsstring;
  p_scheduledArrival : option jsstring;
  p_estimatedArrival : option jsstring;
  p_actualArrival : option jsstring;
  p_gateDeparture : option jsstring;
  p_gateArrival : option jsstring;
  p_terminalDeparture : option jsstring;
  p_terminalArrival : option jsstring;
  p_baggage : option jsstring;
  p_durationMinutes : option Z;
  p_arrivalDelayMinutes : option Z;
  p_provider : jsstring;
  p_fetchedAt : Z
}.

Definition TAIWAN_AIRPORT_CODES : list jsstring :=
  map js ["TPE"; "TSA"; "KHH"; "RMQ"; "TTT"; "HUN"; "KNH"; "MZG"; "LZN";
          "GNI"; "MFK"; "KYD"; "CYI"; "TNN"; "PIF"; "RCTP"; "RCSS"; "RCKH";
          "RCMQ"; "RCNN"; "RCYU"; "RCFN"; "RCQC"; "RCBS"; "RCMT"; "RCFG";
          "RCGI"; "RCLY"]%string.

(** What the runtime supplies to the correlator besides the host of the
    dates: [String.prototype.toUpperCase], whose case mapping is that of
    the Unicode tables, and the date key that [Intl.DateTimeFormat]
    spells for a valid date, with the locale [en-CA], the zone
    [Asia/Taipei] and the numeric year and two-digit month and day that
    [formatDateKey] asks for; the zone rules and the calendar data are
    the runtime's. *)
Record Runtime : Type := MkRuntime {
  host :> Host;
  upperCase : jsstring -> jsstring;
  taipeiDateKey : Z -> jsstring
}.

(** [a || b] on strings that may be missing. *)
Definition strOr (a b : option jsstring) : option jsstring :=
  match a with
  | Some (c :: s) => Some (c :: s)
  | _ => b
  end.

Definition isTaiwanAirport (env : Runtime) (c : option jsstring) : bool :=
  match c with
  | Some (u :: s) =>
      existsb (jsstring_eqb (upperCase env (u :: s))) TAIWAN_AIRPORT_CODES
  | _ => false
  end.

(** The first value that is neither missing nor the empty string. *)
Fixpoint pickFirstNonNull (values : list (option jsstring))
  : option jsstring :=
  match values with
  | [] => None
  | Some (c :: s) :: _ => Some (c :: s)
  | _ :: rest => pickFirstNonNull rest
  end.

(** [parseDate(iso)]: the time value, [None] for [null]. *)
Definition parseDate (env : Host) (iso : option jsstring) : option Z :=
  match iso with
  | Some (c :: s) => newDateStr env (c :: s)
  | _ => None
  end.

(** [formatDateKey(date, 'Asia/Taipei')] for a valid date, the only zone
    and the only dates it is called with. *)
Definition formatDateKey (env : Runtime) (t : Z) : jsstring :=
  taipeiDateKey env t.

Definition isoStringToDateKey (env : Runtime) (iso : option jsstring)
  : option jsstring :=
  match parseDate env iso with
  | Some t => Some (formatDateKey env t)
  | None => None
  end.

Definition toEndpointInfo (airport : option FlightEndpoint)
  : FlightEndpointInfo :=
  match airport with
  | None => MkEndpointInfo None None None None None None None
  | Some a =>
      MkEndpointInfo
        (strOr (code a) (strOr (code_iata a) (strOr (code_icao a) None)))
        (strOr (code_iata a) (strOr (code_icao a) (strOr (code_lid a) None)))
        (name a) (city a) None None (timezone a)
  end.

(** [Math.round((arr.getTime() - dep.getTime()) / 60000)], kept when it
    is positive; it is finite always. *)
Definition computeDurationMinutes (env : Host)
    (depIso arrIso : option jsstring) : option Z :=
  match parseDate env depIso, parseDate env arrIso with
  | Some dep, Some arr =>
      let diff := mathRound (quotient (minus arr dep) 60000) in
      if 0 <? diff then Some diff else None
  | _, _ => None
  end.

Definition isTaiwanArrival (env : Runtime) (flight : FlightRecord) : bool :=
  match destination flight with
  | None => false
  | Some dest =>
      isTaiwanAirport env (code dest) || isTaiwanAirport env (code_iata dest)
      || isTaiwanAirport env (code_icao dest)
      || isTaiwanAirport env (code_lid dest)
  end.

(** The six arrival timestamps in the order the source lists them. *)
Definition arrivalCandidates (flight : FlightRecord)
  : list (option jsstring) :=
  [actual_in flight; estimated_in flight; actual_on flight;
   estimated_on flight; scheduled_in flight; scheduled_on flight].

Definition departureCandidates (flight : FlightRecord)
  : list (option jsstring) :=
  [actual_out flight; estimated_out flight; actual_off flight;
   estimated_off flight; scheduled_out flight; scheduled_off flight].

Definition mapFlightToStatus (env : Host) (flight : FlightRecord)
  : FlightStatusPayload :=
  let estDep := pickFirstNonNull (departureCandidates flight) in
  let estArr := pickFirstNonNull (arrivalCandidates flight) in
  MkPayload
    (ident flight)
    (operator flight)
    (match strOr (ident_iata flight) (strOr (ident_icao flight) None) with
     | Some s => s
     | None => ident flight
     end)
    (status flight)
    (status flight)
    (toEndpointInfo (origin flight))
    (toEndpointInfo (destination flight))
    (pickFirstNonNull [scheduled_out flight; scheduled_off flight])
    estDep
    (pickFirstNonNull [scheduled_in flight; scheduled_on flight])
    estArr
    (pickFirstNonNull [actual_in flight; actual_on flight])
    (gate_origin flight)
    (gate_destination flight)
    (terminal_origin flight)
    (terminal_destination flight)
    (baggage_claim flight)
    (computeDurationMinutes env estDep estArr)
    (match arrival_delay flight with
     | Some s => Some (mathRound (quotient s 60))
     | None => None
     end)
    (js "flightaware")
    (now env).

(** A candidate of the correlator: [{ flight, key, ts }]. *)
Record Match : Type := MkMatch {
  flight : FlightRecord;
  key : option jsstring;
  ts : option Z
}.

Definition toMatch (env : Runtime) (f : FlightRecord) : Match :=
  let arrivalIso := pickFirstNonNull (arrivalCandidates f) in
  MkMatch f (isoStringToDateKey env arrivalIso) (parseDate env arrivalIso).

Definition MAX_SAFE_INTEGER : Z := 9007199254740991.

(** The distance the comparator sorts by:
    [a.ts == null ? Number.MAX_SAFE_INTEGER
                  : Math.abs(a.ts - eventDate.getTime())]. *)
Definition diffOf (eventDate : Z) (m : Match) : Z :=
  match ts m with
  | None => MAX_SAFE_INTEGER
  | Some t => Z.abs (minus t eventDate)
  end.

(** The comparator: [aDiff - bDiff]. *)
Definition byDistance (eventDate : Z) (a b : Match) : Z :=
  minus (diffOf eventDate a) (diffOf eventDate b).

(** [Array.prototype.sort] with a comparator: a stable sort, here by
    insertion from the right. *)
Section Sort.
Context {A : Type} (cmp : A -> A -> Z).

Fixpoint insertBy (x : A) (l : list A) : list A :=
  match l with
  | [] => [x]
  | y :: r => if cmp x y <=? 0 then x :: l else y :: insertBy x r
  end.

Definition sortBy (l : list A) : list A := fold_right insertBy [] l.
End Sort.

(** [item.key === targetKey] *)
Definition key_eqb (k : option jsstring) (target : jsstring) : bool :=
  match k with
  | Some s => jsstring_eqb s target
  | None => false
  end.

(** The same-date candidates, in provider order. *)
Definition sameDateMatches (env : Runtime) (flights : list FlightRecord)
    (eventDate : Z) : list Match :=
  let targetKey := formatDateKey env eventDate in
  List.filter (fun item => key_eqb (key item) targetKey)
    (map (toMatch env) (List.filter (isTaiwanArrival env) flights)).

(** The provider client: for an identifier and a window, given here by
    the two instants its ISO strings spell, the records of the answer,
    [[]] when the answer carries none; [None] when the request fails and
    the promise is rejected. *)
Definition Provider := jsstring -> Z -> Z -> option (list FlightRecord).

(** [queryFlightAwareStatus(ident, eventDate)]; [client] is [None] when
    no API key is configured.  The outer [None] is a rejected promise:
    the [RangeError] that [toISOString] throws on a window end that is
    not a valid date, or the rejection of the provider's request. *)
Definition queryFlightAwareStatus (env : Runtime) (client : option Provider)
    (flightIdent : jsstring) (eventDate : Date)
  : option (option FlightStatusPayload) :=
  match client with
  | None => Some None
  | Some retrieve =>
      let windowStart :=
        newDateNum (numAdd (getTime eventDate) (- (18 * 60 * 60 * 1000))) in
      let windowEnd :=
        newDateNum (numAdd (getTime eventDate) (18 * 60 * 60 * 1000)) in
      match windowStart, windowEnd, eventDate with
      | Some ws, Some we, Some eventTime =>
          match retrieve flightIdent ws we with
          | None => None
          | Some [] => Some None
          | Some flights =>
              let matches := sameDateMatches env flights eventTime in
              match matches with
              | [] => Some None
              | _ =>
                  match sortBy (byDistance eventTime) matches with
                  | best :: _ =>
                      Some (Some (mapFlightToStatus env (flight best)))
                  | [] => None
                  end
              end
          end
      | _, _, _ => None
      end
  end.

End Flights.

(* ===================================================================== *)
(** ** The address lists of the event detail view (client) *)
(* ===================================================================== *)

Module Detail.

Import DateTime.

(** [[...new Set(items)]]: the items in order of first occurrence. *)
Fixpoint uniqueFrom (seen : list jsstring) (items : list jsstring)
  : list jsstring :=
  match items with
  | [] => []
  | x :: r =>
      if existsb (jsstring_eqb x) seen then uniqueFrom seen r
      else x :: uniqueFrom (x :: seen) r
  end.

Definition unique (items : list jsstring) : list jsstring :=
  uniqueFrom [] items.

(** [/\n+/] *)
Definition reNewlines : regex := Plus (Chr 10).

(** [/\[([^\]]+)\]\(([^\)]+)\)/g] *)
Definition reMdLink : regex :=
  Seqs [Chr 91; Group 1 (Plus (Class (noneOf (js "]")))); Chr 93;
        Chr 40; Group 2 (Plus (Class (noneOf (js ")")))); Chr 41].

(** [/[、，,；;]/] *)
Definition reListDelim : regex := Class (oneOf (js "、，,；;")).

(** [/^https?:/i], [/^www\./i] and [/api=1&query=/i] *)
Definition reHttp : regex :=
  Seqs [Bol; LitI (js "http"); Opt (LitI (js "s")); Chr 58].
Definition reWww : regex := Seqs [Bol; LitI (js "www"); Chr 46].
Definition reMapsQuery : regex := LitI (js "api=1&query=").

Definition nonEmpty (s : jsstring) : bool := truthy s.

(** The noise filter of the pickup and drop-off lists. *)
Definition notNoise (s : jsstring) : bool :=
  negb (test reHttp s) && negb (test reWww s)
  && negb (jsstring_eqb (toLowerCase s) (js "search"))
  && negb (test reMapsQuery s).

(** The addresses of one labelled line. *)
Definition lineItems (label : jsstring) (rawLine : jsstring)
  : list jsstring :=
  let body :=
    trim (removeFirst
            (Seqs [Bol; Star false Dot; Lit label; Opt reColon;
                   Star true Space]) rawLine) in
  let mdMatches := matchAll reMdLink body in
  match mdMatches with
  | _ :: _ => map (fun m => trim (groupOr 1 m)) mdMatches
  | [] => List.filter nonEmpty (map trim (splitRe reListDelim body))
  end.

(** The items collected from all the lines carrying [label], noise
    removed: the list the [Set] is built from. *)
Definition labelledItems (label : jsstring) (description : jsstring)
  : list jsstring :=
  let lines :=
    List.filter (test (Lit label)) (splitRe reNewlines description) in
  List.filter notNoise (concat (map (lineItems label) lines)).

Definition labelledAddresses (label : jsstring) (description : jsstring)
  : list jsstring :=
  firstn 3 (unique (labelledItems label description)).

(** [pickupAddresses] and [dropoffAddresses] of an event's description. *)
Definition pickupAddresses (description : jsstring) : list jsstring :=
  labelledAddresses (js "上車地址") description.

Definition dropoffAddresses (description : jsstring) : list jsstring :=
  labelledAddresses (js "下車地址") description.

Definition addressSuffixes : list jsstring :=
  map js ["路"; "街"; "大道"; "段"; "巷"; "弄"; "號"; "樓"; "館"; "站";
          "機場"; "航廈"; "里"; "社區"; "園區"]%string.

(** [/[一-龥0-9].*(路|街|...)/] and
    [/api=1&query=|https?:|^www\./i] *)
Definition reAddressShape : regex :=
  Seqs [Class (fun c => inRange 19968 40869 c || isDigit c);
        Star true Dot; Group 1 (Alts (map Lit addressSuffixes))].

Definition reUrlLike : regex :=
  Alts [reMapsQuery;
        Seqs [LitI (js "http"); Opt (LitI (js "s")); Chr 58];
        Seqs [Bol; LitI (js "www"); Chr 46]].

Definition looksLikeAddress (s : jsstring) : bool :=
  test reAddressShape s && negb (test reUrlLike s).

(** [/^\[([^\]]+)\]\(([^)]+)\)$/] *)
Definition reWholeMdLink : regex := Seqs [Bol; reMdLink; Eol].

Definition normalize (s : jsstring) : jsstring :=
  trim (match exec reWholeMdLink s with
        | Some md => groupOr 1 md
        | None => s
        end).

Definition sequenceWords : list jsstring :=
  map js ["第一站"; "第二站"; "第三站"; "先到"; "再到"; "途經"; "經停";
          "途中"; "轉送"; "接續"]%string.

(** [/(第一站|...|接續|→|->)/] *)
Definition keywordRegex : regex :=
  Group 1 (Alts (map Lit (sequenceWords ++ [js "→"; js "->"]))).

(** The arrow line: [^], an optional bullet [(?:[-*●・\d\.]+\s* )?], the arrow
    [(?:→|->)], [\s*], then [(.+)$]. *)
Definition reArrow : regex :=
  Seqs [Bol;
        Opt (Seq (Plus (Class (fun c => oneOf (js "-*●・.") c || isDigit c)))
                 (Star true Space));
        Alt (Lit (js "→")) (Lit (js "->"));
        Star true Space; Group 1 (Plus Dot); Eol].

(** [/^(?:第一站|...|接續)[:：\s-]*/] *)
Definition reSequencePrefix : regex :=
  Seqs [Bol; Alts (map Lit sequenceWords);
        Star true (Class (fun c => oneOf (js ":：-") c || isSpace c))].

(** [/^\s*(其他備註|備註|Notes?)[:：]/i] *)
Definition reRemarks : regex :=
  Seqs [Bol; Star true Space;
        Group 1 (Alts [Lit (js "其他備註"); Lit (js "備註");
                       Seq (LitI (js "Note")) (Opt (LitI (js "s")))]);
        reColon].

(** [/[，,、\/;]/] *)
Definition rePartDelim : regex := Class (oneOf (js "，,、/;")).

Definition keep (blockList : list jsstring) (val : jsstring) : bool :=
  looksLikeAddress val && negb (existsb (jsstring_eqb val) blockList).

(** The candidates one line of the description contributes. *)
Definition lineCandidates (blockList : list jsstring) (line : jsstring)
  : list jsstring :=
  let trimmed := trim line in
  match trimmed with
  | [] => []
  | _ =>
      match exec reArrow trimmed with
      | Some arrow =>
          let val := normalize (groupOr 1 arrow) in
          if keep blockList val then [val] else []
      | None =>
          let fromKeywords :=
            if test keywordRegex trimmed then
              List.filter (keep blockList)
                (map (fun part => normalize (removeFirst reSequencePrefix part))
                     (splitRe rePartDelim trimmed))
            else [] in
          let fromRemarks :=
            if test reRemarks trimmed then
              let body := trim (removeFirst reRemarks trimmed) in
              List.filter (keep blockList)
                (map (fun m => trim (groupOr 1 m)) (matchAll reMdLink body))
              ++ List.filter (keep blockList)
                   (map normalize (splitRe rePartDelim body))
            else [] in
          fromKeywords ++ fromRemarks
      end
  end.

(** The candidates of the whole description, before the [Set]. *)
Definition midStopCandidates (description : jsstring) : list jsstring :=
  match description with
  | [] => []
  | _ =>
      let blockList :=
        pickupAddresses description ++ dropoffAddresses description in
      concat (map (lineCandidates blockList)
                  (splitRe reNewlines description))
  end.

Definition midStops (description : jsstring) : list jsstring :=
  firstn 3 (unique (midStopCandidates description)).

(** The three lists together. *)
Record Stops : Type := MkStops {
  pickup : list jsstring;
  dropoff : list jsstring;
  mid : list jsstring
}.

Definition reconcile (description : jsstring) : Stops :=
  MkStops (pickupAddresses description) (dropoffAddresses description)
    (midStops description).

End Detail.

(* ===================================================================== *)
(** ** What a match of a regular expression means *)
(* ===================================================================== *)

Module RegexSem.

(** [Matches r prev s caps prev' s' caps']: from the position that has
    the unit [prev] before it and [s] after it, [r] can match up to the
    position with [prev'] before it and [s'] after it, turning the
    captures [caps] into [caps'].  The matcher explores these matches in
    the order of priority of the language; the relation forgets the
    order. *)
Inductive Matches : regex -> option Z -> jsstring -> captures ->
                    option Z -> jsstring -> captures -> Prop :=
| MEmpty p s c :
    Matches Empty p s c p s c
| MClass (pr : Z -> bool) p ch s c :
    pr ch = true ->
    Matches (Class pr) p (ch :: s) c (Some ch) s c
| MSeq r1 r2 p s c p1 s1 c1 p2 s2 c2 :
    Matches r1 p s c p1 s1 c1 ->
    Matches r2 p1 s1 c1 p2 s2 c2 ->
    Matches (Seq r1 r2) p s c p2 s2 c2
| MAltL r1 r2 p s c p' s' c' :
    Matches r1 p s c p' s' c' ->
    Matches (Alt r1 r2) p s c p' s' c'
| MAltR r1 r2 p s c p' s' c' :
    Matches r2 p s c p' s' c' ->
    Matches (Alt r1 r2) p s c p' s' c'
| MStarNil g r p s c :
    Matches (Star g r) p s c p s c
| MStarCons g r p s c p1 s1 c1 p2 s2 c2 :
    Matches r p s c p1 s1 c1 ->
    (length s1 < length s)%nat ->
    Matches (Star g r) p1 s1 c1 p2 s2 c2 ->
    Matches (Star g r) p s c p2 s2 c2
| MGroup i r p s c p' s' c' :
    Matches r p s c p' s' c' ->
    Matches (Group i r) p s c p' s'
      ((i, firstn (length s - length s') s) :: c')
| MBol s c :
    Matches Bol None s c None s c
| MEol p c :
    Matches Eol p [] c p [] c
| MWordB p s c :
    xorb (isWordOpt p) (isWordOpt (head s)) = true ->
    Matches WordB p s c p s c.

(** [Parse r m caps]: [r] can match the text [m] itself, capturing
    [caps], the latest capture first.  What the assertions [^], [$] and
    [\b] ask of the surroundings is left to [Matches]. *)
Inductive Parse : regex -> jsstring -> captures -> Prop :=
| PEmpty : Parse Empty [] []
| PClass (pr : Z -> bool) ch : pr ch = true -> Parse (Class pr) [ch] []
| PSeq r1 r2 m1 c1 m2 c2 :
    Parse r1 m1 c1 -> Parse r2 m2 c2 ->
    Parse (Seq r1 r2) (m1 ++ m2) (c2 ++ c1)
| PAltL r1 r2 m c : Parse r1 m c -> Parse (Alt r1 r2) m c
| PAltR r1 r2 m c : Parse r2 m c -> Parse (Alt r1 r2) m c
| PStarNil g r : Parse (Star g r) [] []
| PStarCons g r m1 c1 m2 c2 :
    Parse r m1 c1 -> Parse (Star g r) m2 c2 ->
    Parse (Star g r) (m1 ++ m2) (c2 ++ c1)
| PGroup i r m c : Parse r m c -> Parse (Group i r) m ((i, m) :: c)
| PBol : Parse Bol [] []
| PEol : Parse Eol [] []
| PWordB : Parse WordB [] [].

End RegexSem.

(* ===================================================================== *)
(** ** The event detail view: linked phone numbers *)
(* ===================================================================== *)

Module SmartLinks.

(** [s.startsWith(p)] *)
Definition startsWith (p s : jsstring) : bool :=
  jsstring_eqb (firstn (length p) s) p.

(** [normalizePhoneNumber(value)]; [None] is [null].  Replacing every
    unit that is not a digit by nothing keeps the digits. *)
Definition normalizePhoneNumber (value : jsstring) : option jsstring :=
  let trimmed := trim value in
  match trimmed with
  | [] => None
  | _ =>
      let hasPlus := startsWith (js "+") trimmed in
      let digitsOnly := List.filter isDigit trimmed in
      match digitsOnly with
      | [] => None
      | _ =>
          if hasPlus then Some (js "+" ++ digitsOnly)
          else if startsWith (js "00") digitsOnly
                  && (2 <? length digitsOnly)%nat
          then Some (js "+" ++ skipn 2 digitsOnly)
          else if startsWith (js "886") digitsOnly
          then Some (js "+" ++ digitsOnly)
          else Some digitsOnly
      end
  end.

(** The [tel:] target of a number found in running text: none unless
    the normalized number has six digits. *)
Definition inlinePhoneHref (phonePart : jsstring) : option jsstring :=
  match normalizePhoneNumber phonePart with
  | Some normalized =>
      if (6 <=? length (List.filter isDigit normalized))%nat
      then Some (js "tel:" ++ normalized)
      else None
  | None => None
  end.

(** The [tel:] target of a number on a labelled telephone line. *)
Definition labelledPhoneHref (num : jsstring) : option jsstring :=
  match normalizePhoneNumber num with
  | Some normalized => Some (js "tel:" ++ normalized)
  | None => None
  end.

(** The pattern of telephone numbers in running text, alternative by
    alternative:
    [(?:\+|00)\d{1,3}[-\s]?\d{1,4}[-\s]?\d{3,4}[-\s]?\d{3,4}],
    [\b09\d{2}(?:-?\d{3}-?\d{3}|\d{6})\b],
    [\b0\d{1,2}-?\d{3,4}-?\d{4}\b] and [\b8869\d{7,8}\b]. *)
Definition reDashOrSpace : regex := Class (fun c => (c =? 45) || isSpace c).

Definition phoneRegex : regex :=
  Group 1
    (Alts [Seqs [Alt (Chr 43) (Lit (js "00")); Range 1 3 Digit;
                 Opt reDashOrSpace; Range 1 4 Digit; Opt reDashOrSpace;
                 Range 3 4 Digit; Opt reDashOrSpace; Range 3 4 Digit];
           Seqs [WordB; Lit (js "09"); Rep 2 Digit;
                 Alt (Seqs [Opt (Chr 45); Rep 3 Digit; Opt (Chr 45);
                            Rep 3 Digit])
                     (Rep 6 Digit);
                 WordB];
           Seqs [WordB; Chr 48; Range 1 2 Digit; Opt (Chr 45);
                 Range 3 4 Digit; Opt (Chr 45); Rep 4 Digit; WordB];
           Seqs [WordB; Lit (js "8869"); Range 7 8 Digit; WordB]]).

End SmartLinks.

(* ===================================================================== *)
(** ** The event detail view: flight number and mid-stop line *)
(* ===================================================================== *)

Module DetailView.

Import DateTime Detail SmartLinks.

(** [items.join(sep)] *)
Definition joinWith (sep : jsstring) (items : list jsstring) : jsstring :=
  match items with
  | [] => []
  | x :: r => x ++ concat (map (fun y => sep ++ y) r)
  end.

(** *** [flightInfo] *)

Definition isAsciiLetter (c : Z) : bool := inRange 65 90 (upperUnit c).

(** [/\b([A-Z]{2})[ -]?(\d{2,4})\b/i] *)
Definition reFlightNo : regex :=
  Seqs [WordB; Group 1 (Rep 2 (Class isAsciiLetter));
        Opt (Class (oneOf (js " -"))); Group 2 (Range 2 4 Digit); WordB].

(** [/接機|入境|arrival/i], [/送機|出境|depart/i] and
    [/桃園機場|TPE|Taoyuan/i] *)
Definition rePickupWords : regex :=
  Alts [Lit (js "接機"); Lit (js "入境"); LitI (js "arrival")].
Definition reDropoffWords : regex :=
  Alts [Lit (js "送機"); Lit (js "出境"); LitI (js "depart")].
Definition reTaoyuan : regex :=
  Alts [Lit (js "桃園機場"); LitI (js "TPE"); LitI (js "Taoyuan")].

Definition TPE_TERMINAL_BY_AIRLINE : list (jsstring * jsstring) :=
  map (fun '(a, t) => (js a, js t))
    [("CI", "T1"); ("BR", "T2"); ("JX", "T1"); ("IT", "T1"); ("MM", "T1");
     ("TR", "T1"); ("CX", "T1"); ("JL", "T2"); ("NH", "T2"); ("KE", "T2");
     ("OZ", "T2"); ("SQ", "T1"); ("UA", "T2"); ("DL", "T2");
     ("AA", "T2")]%string.

Fixpoint lookupTerminal (table : list (jsstring * jsstring))
    (airline : jsstring) : option jsstring :=
  match table with
  | [] => None
  | (a, t) :: rest =>
      if jsstring_eqb airline a then Some t else lookupTerminal rest airline
  end.

Inductive FlightKind : Type := Arr | Dep.

Record FlightInfo : Type := MkFlightInfo {
  flightNo : option jsstring;
  kind : option FlightKind;
  terminal : option jsstring
}.

(** [flightInfo] of an event with the given title and description. *)
Definition flightInfo (title description : jsstring) : FlightInfo :=
  let text := title ++ [10] ++ description in
  let flightNo :=
    match exec reFlightNo text with
    | Some m => Some (toUpperCase (groupOr 1 m) ++ groupOr 2 m)
    | None => None
    end in
  let isPickup := test rePickupWords text in
  let isDropoff := test reDropoffWords text in
  let airline :=
    match flightNo with
    | Some f => Some (firstn 2 f)
    | None => None
    end in
  let airportIsTPE := test reTaoyuan text in
  let terminal :=
    match airline with
    | Some (c :: a) =>
        if airportIsTPE then lookupTerminal TPE_TERMINAL_BY_AIRLINE (c :: a)
        else None
    | _ => None
    end in
  MkFlightInfo flightNo
    (if isPickup then Some Arr else if isDropoff then Some Dep else None)
    terminal.

(** *** [descriptionWithMidStops] *)

(** [/^\s*中途停靠[:：]/] and its two siblings. *)
Definition reLabelLine (label : jsstring) : regex :=
  Seqs [Bol; Star true Space; Lit label; reColon].

Definition isMidLine (l : jsstring) : bool :=
  test (reLabelLine (js "中途停靠")) l.
Definition isPickupLine (l : jsstring) : bool :=
  test (reLabelLine (js "上車地址")) l.
Definition isDropoffLine (l : jsstring) : bool :=
  test (reLabelLine (js "下車地址")) l.

Definition midLabel : jsstring := js "中途停靠：".

(** [lines.findIndex(p)], [-1] when no line satisfies [p]. *)
Fixpoint findIndexFrom (p : jsstring -> bool) (i : Z) (l : list jsstring)
  : Z :=
  match l with
  | [] => -1
  | x :: r => if p x then i else findIndexFrom p (i + 1) r
  end.

Definition findIndex (p : jsstring -> bool) (l : list jsstring) : Z :=
  findIndexFrom p 0 l.

(** [lines[i]] for an index that is not negative. *)
Definition lineAt (l : list jsstring) (i : Z) : option jsstring :=
  nth_error l (Z.to_nat i).

(** [lines.splice(i, 0, x)] *)
Definition spliceIn (i : Z) (x : jsstring) (l : list jsstring)
  : list jsstring :=
  firstn (Z.to_nat i) l ++ x :: skipn (Z.to_nat i) l.

(** [lines[i] = x]; past the end the array grows, and [join] reads the
    holes as empty strings. *)
Definition setAt (i : Z) (x : jsstring) (l : list jsstring)
  : list jsstring :=
  if i <? Z.of_nat (length l)
  then firstn (Z.to_nat i) l ++ x :: skipn (S (Z.to_nat i)) l
  else l ++ repeat [] (Z.to_nat i - length l) ++ [x].

(** [ensureAfter(idx)]: the lines afterwards and the index returned. *)
Definition ensureAfter (lines : list jsstring) (idx : Z)
  : list jsstring * Z :=
  if idx =? -1 then (lines, -1)
  else
    match lineAt lines (idx + 1) with
    | Some (c :: l) =>
        if startsWith midLabel (c :: l) then (lines, idx + 1)
        else (spliceIn (idx + 1) midLabel lines, idx + 1)
    | _ => (spliceIn (idx + 1) midLabel lines, idx + 1)
    end.

(** The [forEach] that looks for a mid-stop line right after the pickup
    or the drop-off line: the two indices it leaves. *)
Definition scanMidLines (lines : list jsstring) (pickupIdx dropoffIdx : Z)
  : Z * Z :=
  fold_left
    (fun (st : Z * Z) (it : Z * jsstring) =>
       let '(mp, md) := st in
       let '(idx, line) := it in
       if isMidLine line then
         if negb (pickupIdx =? -1) && (idx =? pickupIdx + 1) && (mp =? -1)
         then (idx, md)
         else if negb (dropoffIdx =? -1) && (idx =? dropoffIdx + 1)
                 && (md =? -1)
         then (mp, idx)
         else (mp, md)
       else (mp, md))
    (combine (map Z.of_nat (seq 0 (length lines))) lines) (-1, -1).

(** The body of [descriptionWithMidStops] once a hand-written mid-stop
    line is ruled out: the lines it joins. *)
Definition placeMidLine (lines0 : list jsstring) (midText : jsstring)
  : list jsstring :=
  let pickupIdx := findIndex isPickupLine lines0 in
  let dropoffIdx0 := findIndex isDropoffLine lines0 in
  let '(mp0, md0) := scanMidLines lines0 pickupIdx dropoffIdx0 in
  let '(lines1, dropoffIdx1, mp1, md1) :=
    if negb (pickupIdx =? -1) && (mp0 =? -1) then
      let '(l, mp) := ensureAfter lines0 pickupIdx in
      let d :=
        if negb (dropoffIdx0 =? -1) && (mp <=? dropoffIdx0) then
          let i := findIndex isDropoffLine l in
          if i =? -1 then dropoffIdx0 else i
        else dropoffIdx0 in
      let md :=
        if negb (md0 =? -1) && (mp <=? md0) then md0 + 1 else md0 in
      (l, d, mp, md)
    else (lines0, dropoffIdx0, mp0, md0) in
  let '(lines2, md2) :=
    if negb (dropoffIdx1 =? -1) && (md1 =? -1)
    then ensureAfter lines1 dropoffIdx1
    else (lines1, md1) in
  let '(lines3, mp3) :=
    if (pickupIdx =? -1) && (dropoffIdx1 =? -1) && (mp1 =? -1)
       && (md2 =? -1)
    then (lines2 ++ [midLabel], Z.of_nat (length lines2))
    else (lines2, mp1) in
  let lines4 := if negb (mp3 =? -1) then setAt mp3 midText lines3 else lines3 in
  let lines5 := if negb (md2 =? -1) then setAt md2 midText lines4 else lines4 in
  if (mp3 =? -1) && (md2 =? -1) then lines5 ++ [midText] else lines5.

(** [raw ? raw.split(/\n+/) : []] *)
Definition descriptionLines (raw : jsstring) : list jsstring :=
  match raw with
  | [] => []
  | _ => splitRe reNewlines raw
  end.

(** [midText] *)
Definition midTextOf (stops : list jsstring) : jsstring :=
  match stops with
  | [] => midLabel
  | _ => midLabel ++ joinWith (js "、") stops
  end.

(** [descriptionWithMidStops] of an event with the given description,
    [[]] when it has none. *)
Definition descriptionWithMidStops (description : jsstring) : jsstring :=
  let raw := description in
  let lines := descriptionLines raw in
  if existsb isMidLine lines then raw
  else joinWith [10] (placeMidLine lines (midTextOf (midStops description))).

End DetailView.


(* ===================================================================== *)
(** ** Auxiliary definitions of the statements *)
(* ===================================================================== *)

Module Aux.

Import DateTime.

(** The three stages of [normalizeEventTimesFromText], named. *)

(** [start] once the parse, the direct construction and the current
    instant have been tried in turn. *)
Definition startOf (env : Host) (startTime : option jsstring) : Date :=
  match
    match
      match parseModelDateTimeLocal env startTime, startTime with
      | None, Some (c :: v) => Some (newDateStr env (c :: v))
      | s0, _ => s0
      end, startTime
    with
    | None, Some v =>
        if test reDateOnly v
        then orElse (parseModelDateTimeLocal env startTime) None
        else None
    | s1, _ => s1
    end
  with
  | Some d => d
  | None => Some (now env)
  end.

Definition endOf (env : Host) (endTime : option jsstring) (start3 : Date)
  : Date :=
  match
    match parseModelDateTimeLocal env endTime, endTime with
    | None, Some (c :: v) => Some (newDateStr env (c :: v))
    | e0, _ => e0
    end
  with
  | Some d => d
  | None => newDateNum (numAdd (getTime start3) hourMs)
  end.

(** What the all-day branch makes of [start]. *)
Definition midnightOf (env : Host) (d : Date) : Date :=
  newDateLocalMidnight env (getFullYear env d) (getMonth env d)
    (getDate env d).

Definition plusMs (d : Date) (ms : Z) : Date :=
  newDateNum (numAdd (getTime d) ms).

Definition finish (env : Host) (allDayArg : bool) (start3 end3 : Date)
  : EventTimes :=
  let start4 := if allDayArg then midnightOf env start3 else start3 in
  let end4 := if allDayArg then plusMs start4 dayMs else end3 in
  MkTimes start4
    (if dateLe end4 start4 then plusMs start4 hourMs else end4) allDayArg.

(** The local midnight at or before an instant. *)
Definition localMidnight (env : Host) (t : Z) : Z :=
  Day (t + localTZA env) * msPerDay - localTZA env.

(** A host that reads the interchange format and nothing else. *)
Definition strictHost (tz nw : Z) : Host := MkHost tz nw (fun _ => None).

(** The fixed local offset of the specification, +08:00. *)
Definition taipei : Z := 8 * msPerHour.

(** The wall clock and the calendar day of an instant at +08:00. *)
Definition taipeiClock (t : Z) : Z := TimeWithinDay (t + taipei).
Definition taipeiDay (t : Z) : Z := Day (t + taipei).


(** The times of an all-day event whose start was [d]. *)
Definition allDayTimes (env : Host) (d : Date) : EventTimes :=
  MkTimes (midnightOf env d) (plusMs (midnightOf env d) dayMs) true.

(** The keys of the time triple. *)
Definition timeKey (k : string) : Prop :=
  k = "startTime"%string \/ k = "endTime"%string \/ k = "allDay"%string.

(** *** Example inputs *)

Definition browserHost : Host := strictHost taipei 1700000000000.
Definition serverHost : Host := strictHost 0 1700000000000.

(** A booking description with its own date and time. *)
Definition bookingText : jsstring :=
  js "行程日期：2024年8月16日
行程時間：09:30".

Definition bookingArgs : CreateArgs :=
  MkCreateArgs (Some (js "接機")) (Some (js "2024-08-15T14:00"))
    (Some (js "2024-08-15T15:00")) (Some bookingText) None (Some false).


Definition billArgs : CreateArgs :=
  MkCreateArgs (Some (js "繳電話費")) (Some (js "2025-11-30"))
    (Some (js "2025-12-01")) None None (Some true).

(** Update payloads: a new description only, the all-day flag only, a
    new end only, and a description together with a start. *)
Definition descOnlyUpdate : gmap string value :=
  <["id" := VStr (js "e1")]> (<["description" := VStr bookingText]> ∅).

Definition allDayOnlyUpdate : gmap string value :=
  <["id" := VStr (js "e1")]> (<["allDay" := VBool true]> ∅).

Definition endOnlyUpdate : gmap string value :=
  <["id" := VStr (js "e1")]>
    (<["endTime" := VStr (js "2024-08-15T16:00")]> ∅).

Definition rebookUpdate : gmap string value :=
  <["id" := VStr (js "e1")]>
    (<["description" := VStr bookingText]>
       (<["startTime" := VStr (js "2024-08-15T14:00")]> ∅)).

(** What the webhook writes for [rebookUpdate]. *)
Definition rebookFields : gmap string value :=
  <["startTime" := VDate (Some 1723771800000)]>
    (<["endTime" := VDate (Some 1723775400000)]>
       (<["allDay" := VBool false]>
          (<["description" := VStr bookingText]> ∅))).

(** A stored event. *)
Definition storedEvent : gmap string value :=
  <["title" := VStr (js "接機")]>
    (<["startTime" := VDate (Some 1723701600000)]>
       (<["endTime" := VDate (Some 1723705200000)]>
          (<["allDay" := VBool false]> ∅))).


(** *** The correlator *)

Import Flights.

(** A timestamp that is there: neither missing nor empty. *)
Definition defined (v : option jsstring) : bool :=
  match v with
  | Some (_ :: _) => true
  | _ => false
  end.

(** The order the specification words: actual, then estimated, then
    scheduled, the [in] variant before the [on] variant within each. *)
Definition specArrivalCandidates (f : FlightRecord)
  : list (option jsstring) :=
  [actual_in f; actual_on f; estimated_in f; estimated_on f;
   scheduled_in f; scheduled_on f].

(** Its other reading: the [in] variants, then the [on] variants, each
    from actual to scheduled. *)
Definition specArrivalCandidatesByVariant (f : FlightRecord)
  : list (option jsstring) :=
  [actual_in f; estimated_in f; scheduled_in f; actual_on f;
   estimated_on f; scheduled_on f].

Definition taoyuan : FlightEndpoint :=
  MkEndpoint (Some (js "RCTP")) (Some (js "TPE")) (Some (js "RCTP")) None
    (Some (js "Taiwan Taoyuan Intl")) (Some (js "Taipei"))
    (Some (js "Asia/Taipei")).

Definition narita : FlightEndpoint :=
  MkEndpoint (Some (js "RJAA")) (Some (js "NRT")) (Some (js "RJAA")) None
    (Some (js "Narita Intl")) (Some (js "Tokyo")) (Some (js "Asia/Tokyo")).

(** A record of flight CI123 into Taoyuan with the arrival times given. *)
Definition arrival (sched_in est_in act_in sched_on est_on act_on
                    : option jsstring) : FlightRecord :=
  MkFlight (js "CAL123") (Some (js "CI123")) (Some (js "CAL123"))
    (Some (js "CAL")) (js "Arrived") (Some narita) (Some taoyuan)
    None None None None None None
    sched_on est_on act_on sched_in est_in act_in
    None None None None None None.

(** On the runway at 09:50Z, expected at the gate at 10:05Z. *)
Definition taxiingFlight : FlightRecord :=
  arrival (Some (js "2024-08-15T10:00:00Z")) (Some (js "2024-08-15T10:05:00Z"))
    None None None (Some (js "2024-08-15T09:50:00Z")).

(** On the runway at 09:50Z, with a scheduled gate time only. *)
Definition landedFlight : FlightRecord :=
  arrival (Some (js "2024-08-15T10:00:00Z")) None None None None
    (Some (js "2024-08-15T09:50:00Z")).

(** The two records of the lookup scenario, landing at 09:50Z and at
    14:00Z, and the provider answering them in either order. *)
Definition morningFlight : FlightRecord :=
  arrival None None (Some (js "2024-08-15T09:50:00Z")) None None None.

Definition afternoonFlight : FlightRecord :=
  arrival None None (Some (js "2024-08-15T14:00:00Z")) None None None.

Definition scenarioProvider : Provider :=
  fun _ _ _ => Some [afternoonFlight; morningFlight].

(** 2024-08-15T10:00:00Z *)
Definition scenarioDate : Z := 1723716000000.

(** A comparator that orders by a key. *)
Definition byKey {A : Type} (f : A -> Z) (a b : A) : Z := f a - f b.

(** The exact quotient [n / d] to the nearest integer, a half going up. *)
Definition roundDiv (n d : Z) : Z := (2 * n + d) / (2 * d).

(** The best-known arrival of a record, as an instant. *)
Definition arrivalOf (env : Host) (f : FlightRecord) : option Z :=
  parseDate env (pickFirstNonNull (arrivalCandidates f)).

(** A code that is there and is on the allow list once in upper case. *)
Definition taiwanCode (env : Runtime) (c : option jsstring) : Prop :=
  exists s, c = Some s /\ s <> []
            /\ In (upperCase env s) TAIWAN_AIRPORT_CODES.

(** A record whose destination carries such a code in one of its four
    places. *)
Definition arrivesInTaiwan (env : Runtime) (f : FlightRecord) : Prop :=
  exists dest,
    destination f = Some dest
    /\ (taiwanCode env (code dest) \/ taiwanCode env (code_iata dest)
        \/ taiwanCode env (code_icao dest)
        \/ taiwanCode env (code_lid dest)).

(** How far the arrival of a record is from the query; as far as the
    comparator has it, [MAX_SAFE_INTEGER], when it is not resolved. *)
Definition distance (env : Host) (eventDate : Z) (f : FlightRecord) : Z :=
  match arrivalOf env f with
  | Some t => Z.abs (t - eventDate)
  | None => MAX_SAFE_INTEGER
  end.

(** A record that arrives in Taiwan on the day at +08:00 of the query. *)
Definition sameDayArrival (env : Runtime) (eventDate : Z)
    (f : FlightRecord) : Prop :=
  arrivesInTaiwan env f
  /\ exists t, arrivalOf env f = Some t /\ taipeiDay t = taipeiDay eventDate.

(** The two filters of the correlator as one test on a record. *)
Definition survives (env : Runtime) (eventDate : Z) (f : FlightRecord)
  : bool :=
  isTaiwanArrival env f
  && key_eqb (key (toMatch env f)) (formatDateKey env eventDate).

(** The instants of the years 1980 to 9999 at +08:00, from
    1980-01-01T00:00+08:00 on: the years of four digits in which
    [Asia/Taipei] has been at +08:00 without daylight saving time. *)
Definition modern (t : Z) : Prop := 315504000000 <= t < 253402272000000.

(** A runtime whose date key tells the days of [Asia/Taipei] apart, and
    nothing else, on those instants. *)
Definition keyNamesTaipeiDay (env : Runtime) : Prop :=
  forall t e, modern t -> modern e ->
    (taipeiDateKey env t = taipeiDateKey env e <-> taipeiDay t = taipeiDay e).

(** *** The address lists *)

Import Detail.



(** An address once on a plain labelled line and once as the label of a
    Markdown link. *)
Definition twiceText : jsstring :=
  js "上車地址：市府路45號
上車地址：[市府路45號](https://www.google.com/maps/search/?api=1&query=x)".


(** *** The two notations of an address *)

(** The unit before the position once the text [x] has been read. *)
Fixpoint prevAfter (prev : option Z) (x : jsstring) : option Z :=
  match x with
  | [] => prev
  | c :: r => prevAfter (Some c) r
  end.







(** A line of a description: not empty, with no line feed. *)
Definition writtenLine (l : jsstring) : Prop :=
  l <> [] /\ Forall (fun c => c <> 10) l.



(** An address given as the label of a link only; the text of the whole
    link is none that the noise filter would drop. *)
Definition linkOnlyText : jsstring :=
  js "上車地址：[市府路45號](https://maps.app.goo.gl/x)".


End Aux.

(* ===================================================================== *)
(** ** Auxiliary definitions of the further statements *)
(* ===================================================================== *)

Module ViewAux.

Import DetailView.

(** [x] put after the first element of [l] that satisfies [p]; [l] itself
    when there is none. *)
Fixpoint insertAfterFirst (p : jsstring -> bool) (x : jsstring)
    (l : list jsstring) : list jsstring :=
  match l with
  | [] => []
  | y :: r => if p y then y :: x :: r else y :: insertAfterFirst p x r
  end.

(** No element of [l] satisfies [p]. *)
Definition noLine (p : jsstring -> bool) (l : list jsstring) : Prop :=
  Forall (fun x => p x = false) l.

(** The lines of a description with the mid-stop line [t] after the first
    pickup line and after the first drop-off line, or at the end when
    there is neither. *)
Definition withMidLine (t : jsstring) (lines : list jsstring)
  : list jsstring :=
  if existsb isPickupLine lines || existsb isDropoffLine lines
  then insertAfterFirst isDropoffLine t
         (insertAfterFirst isPickupLine t lines)
  else lines ++ [t].

(** A number below a hundred, or below ten thousand, in decimal digits
    with leading zeros. *)
Definition twoDigits (n : Z) : jsstring := [48 + n / 10; 48 + n mod 10].

Definition fourDigits (n : Z) : jsstring :=
  [48 + n / 1000; 48 + n / 100 mod 10; 48 + n / 10 mod 10; 48 + n mod 10].

(** [YYYY-MM-DD], and [YYYY-MM-DD] followed by [sep] and [HH:mm]. *)
Definition localDateText (y mo d : Z) : jsstring :=
  fourDigits y ++ [45] ++ twoDigits mo ++ [45] ++ twoDigits d.

Definition localDateTimeText (y mo d sep h mi : Z) : jsstring :=
  localDateText y mo d ++ [sep] ++ twoDigits h ++ [58] ++ twoDigits mi.

(** A date and a time of day that exist, in a year of four digits. *)
Definition wallClock (y mo d h mi : Z) : Prop :=
  0 <= y <= 9999 /\ 1 <= mo <= 12 /\ 1 <= d <= DaysInMonth y (mo - 1)
  /\ 0 <= h <= 23 /\ 0 <= mi <= 59.

(** The instant at which the clocks at +08:00 show that date and time. *)
Definition taipeiInstant (y mo d h mi : Z) : Z :=
  MakeDate (MakeDay y (mo - 1) d) (MakeTime h mi 0 0) - Aux.taipei.

(** A runtime of the correlator: ASCII case mapping, which is that of
    [toUpperCase] on ASCII texts, and the key [YYYY-MM-DD] of the day at
    +08:00, which is that of [Intl] for [Asia/Taipei] from 1980 on. *)
Definition taipeiKey (t : Z) : jsstring :=
  let lt := t + Aux.taipei in
  localDateText (YearFromTime lt) (MonthFromTime lt + 1) (DateFromTime lt).

Definition serverRuntime : Flights.Runtime :=
  Flights.MkRuntime Aux.serverHost toUpperCase taipeiKey.

(** A booking with its pickup line first, and one with the drop-off line
    first. *)
Definition pickupFirstText : jsstring :=
  js "接機 CI123
上車地址：市府路45號
→ 松山機場
下車地址：台北車站".

Definition dropoffFirstText : jsstring :=
  js "下車地址：台北車站
聯絡人：王先生
上車地址：市府路45號
備註：無".

End ViewAux.


(* ===================================================================== *)
(** ** Facts about the calendar arithmetic *)
(* ===================================================================== *)

(** Closed conjunctions of equations are settled by evaluation. *)
Ltac by_computation :=
  repeat (cbv zeta; match goal with
                    | |- _ /\ _ => split
                    end);
  vm_compute; reflexivity.

Module CalendarFacts.

Lemma monthOfDayInYear_range dwy leap :
  0 <= monthOfDayInYear dwy leap <= 11.
Proof.
  unfold monthOfDayInYear.
  repeat match goal with
         | |- context [if ?b then _ else _] => destruct b
         end; lia.
Qed.

Lemma MonthFromTime_range t : 0 <= MonthFromTime t <= 11.
Proof. apply monthOfDayInYear_range. Qed.

(** The year, month and date of an instant name its day again. *)
Lemma MakeDay_fields t :
  MakeDay (YearFromTime t) (MonthFromTime t) (DateFromTime t) = Day t.
Proof.
  pose proof (MonthFromTime_range t) as Hm.
  unfold MakeDay.
  rewrite (Z.div_small (MonthFromTime t) 12) by lia.
  rewrite (Z.mod_small (MonthFromTime t) 12) by lia.
  rewrite Z.add_0_r.
  unfold DateFromTime, DayWithinYear. lia.
Qed.

Lemma DayFromYear_step y :
  DayFromYear (y + 1) = DayFromYear y + 365 + leapDays y.
Proof.
  unfold DayFromYear, leapDays, InLeapYear.
  destruct (y mod 4 =? 0) eqn:H4; destruct (y mod 100 =? 0) eqn:H100;
    destruct (y mod 400 =? 0) eqn:H400; cbn [andb orb negb];
    rewrite ?Z.eqb_eq, ?Z.eqb_neq in *;
    Z.div_mod_to_equations; lia.
Qed.

(** [YearFromDay] is the year the language defines: the one whose days
    contain [d]. *)
Lemma YearFromDay_spec d :
  DayFromYear (YearFromDay d) <= d < DayFromYear (YearFromDay d + 1).
Proof.
  unfold YearFromDay.
  set (y := 1970 + d * 400 / 146097).
  assert (Hlo : DayFromYear (y - 1) <= d).
  { subst y. unfold DayFromYear. Z.div_mod_to_equations. lia. }
  assert (Hhi : d < DayFromYear (y + 2)).
  { subst y. unfold DayFromYear. Z.div_mod_to_equations. lia. }
  destruct (d <? DayFromYear y) eqn:E1.
  - apply Z.ltb_lt in E1. replace (y - 1 + 1) with y by lia. lia.
  - apply Z.ltb_ge in E1.
    destruct (DayFromYear (y + 1) <=? d) eqn:E2.
    + apply Z.leb_le in E2. replace (y + 1 + 1) with (y + 2) by lia. lia.
    + apply Z.leb_gt in E2. lia.
Qed.

Lemma DayFromYear_mono a b : a <= b -> DayFromYear a <= DayFromYear b.
Proof.
  intros H. unfold DayFromYear. Z.div_mod_to_equations. lia.
Qed.

Lemma YearFromDay_unique d y :
  DayFromYear y <= d < DayFromYear (y + 1) -> YearFromDay d = y.
Proof.
  intros H. pose proof (YearFromDay_spec d) as S.
  destruct (Z.lt_trichotomy (YearFromDay d) y) as [L | [E | G]]; [| exact E |].
  - pose proof (DayFromYear_mono (YearFromDay d + 1) y ltac:(lia)). lia.
  - pose proof (DayFromYear_mono (y + 1) (YearFromDay d) ltac:(lia)). lia.
Qed.


Lemma leapDays_cases y : leapDays y = 0 \/ leapDays y = 1.
Proof. unfold leapDays. destruct (InLeapYear y); auto. Qed.

Lemma DayWithinYear_range t :
  0 <= DayWithinYear t < 365 + leapDays (YearFromTime t).
Proof.
  unfold DayWithinYear, YearFromTime.
  pose proof (YearFromDay_spec (Day t)) as S.
  rewrite DayFromYear_step in S. lia.
Qed.

(** Read in any year, leap or not, a month and a date taken from an
    instant stay inside that year. *)
Lemma fields_within_year t l :
  l = 0 \/ l = 1 ->
  0 <= monthStart (MonthFromTime t) l + DateFromTime t - 1 < 365 + l.
Proof.
  intros Hl.
  pose proof (DayWithinYear_range t) as R.
  pose proof (leapDays_cases (YearFromTime t)) as L.
  unfold DateFromTime, MonthFromTime.
  set (dwy := DayWithinYear t) in *.
  set (lp := leapDays (YearFromTime t)) in *.
  unfold monthOfDayInYear.
  repeat match goal with
         | |- context [if ?a <? ?b then _ else _] =>
             let E := fresh "E" in
             destruct (a <? b) eqn:E;
             [apply Z.ltb_lt in E | apply Z.ltb_ge in E]
         end;
    cbn; lia.
Qed.

Lemma fullYear_idem y : fullYear (fullYear y) = fullYear y.
Proof.
  unfold fullYear.
  destruct ((0 <=? y) && (y <=? 99)) eqn:E.
  - apply andb_true_iff in E as [A B].
    apply Z.leb_le in A. apply Z.leb_le in B.
    destruct ((0 <=? 1900 + y) && (1900 + y <=? 99)) eqn:E'; [| reflexivity].
    apply andb_true_iff in E' as [_ B']. apply Z.leb_le in B'. lia.
  - rewrite E. reflexivity.
Qed.

(** The day the [Date] constructor makes of the local fields of an
    instant lies in the year it read. *)
Lemma year_of_made_day t y :
  YearFromDay (MakeDay y (MonthFromTime t) (DateFromTime t)) = y.
Proof.
  pose proof (MonthFromTime_range t) as Hm.
  pose proof (fields_within_year t (leapDays y) (leapDays_cases y)) as W.
  apply YearFromDay_unique.
  rewrite DayFromYear_step.
  unfold MakeDay.
  rewrite (Z.div_small (MonthFromTime t) 12) by lia.
  rewrite (Z.mod_small (MonthFromTime t) 12) by lia.
  rewrite Z.add_0_r. lia.
Qed.

(** Days and local midnights. *)
Lemma Day_of_midnight D : Day (D * msPerDay) = D.
Proof. unfold Day, msPerDay. apply Z.div_mul. lia. Qed.

Lemma midnight_le t : Day t * msPerDay <= t < Day t * msPerDay + msPerDay.
Proof. unfold Day, msPerDay. Z.div_mod_to_equations. lia. Qed.

End CalendarFacts.


(* ===================================================================== *)
(** ** Facts about the normalizer *)
(* ===================================================================== *)

Module NormalizerFacts.

Import DateTime Aux CalendarFacts.

Lemma normalize_stages env st en a :
  normalizeEventTimesFromText env st en a
  = finish env a (startOf env st) (endOf env en (startOf env st)).
Proof.
  unfold normalizeEventTimesFromText, finish, startOf, endOf, midnightOf,
    plusMs.
  destruct a;
    destruct (parseModelDateTimeLocal env st) as [s0 |] eqn:Es;
    destruct (parseModelDateTimeLocal env en) as [e0 |] eqn:Ee;
    destruct st as [[| c v] |]; destruct en as [[| c' v'] |];
    try discriminate; reflexivity.
Qed.

Lemma midnightOf_value env t :
  midnightOf env (Some t)
  = TimeClip
      (MakeDay (fullYear (YearFromTime (t + localTZA env)))
         (MonthFromTime (t + localTZA env))
         (DateFromTime (t + localTZA env)) * msPerDay - localTZA env).
Proof.
  unfold midnightOf, getFullYear, getMonth, getDate, newDateLocalMidnight,
    newDateLocal, LocalTime, MakeDate, MakeTime.
  f_equal. lia.
Qed.

(** Whatever the all-day branch returns is a midnight of the host's zone. *)
Lemma midnightOf_is_midnight env d s :
  midnightOf env d = Some s -> (s + localTZA env) mod msPerDay = 0.
Proof.
  destruct d as [t |]; [| discriminate].
  rewrite midnightOf_value. unfold TimeClip.
  destruct (_ <=? _); [| discriminate].
  intros [= <-].
  match goal with
  | |- (?D * msPerDay - ?z + ?z) mod _ = 0 =>
      replace (D * msPerDay - z + z) with (D * msPerDay) by lia
  end.
  apply Z.mod_mul. unfold msPerDay. lia.
Qed.

(** Outside the years 0..99, which the [Date] constructor reads as
    1900..1999, it is the midnight of the instant's own local day. *)
Lemma midnightOf_own_day env t :
  fullYear (YearFromTime (t + localTZA env)) = YearFromTime (t + localTZA env) ->
  midnightOf env (Some t) = TimeClip (localMidnight env t).
Proof.
  intros Hy. rewrite midnightOf_value, Hy, MakeDay_fields. reflexivity.
Qed.


Lemma TimeClip_Some t y : TimeClip t = Some y -> y = t.
Proof. unfold TimeClip. destruct (_ <=? _); congruence. Qed.

(** Taking the midnight twice is taking it once. *)
Lemma midnightOf_idempotent env d :
  midnightOf env (midnightOf env d) = midnightOf env d.
Proof.
  destruct d as [t |]; [| reflexivity].
  rewrite midnightOf_value.
  set (lt := t + localTZA env).
  set (D := MakeDay (fullYear (YearFromTime lt)) (MonthFromTime lt)
              (DateFromTime lt)).
  destruct (TimeClip (D * msPerDay - localTZA env)) as [s |] eqn:E;
    [| reflexivity].
  pose proof (TimeClip_Some _ _ E) as ->.
  rewrite midnightOf_value.
  replace (D * msPerDay - localTZA env + localTZA env) with (D * msPerDay)
    by lia.
  assert (HY : YearFromTime (D * msPerDay) = fullYear (YearFromTime lt)).
  { unfold YearFromTime at 1. rewrite Day_of_midnight.
    subst D. apply year_of_made_day. }
  rewrite HY, fullYear_idem, <- HY, MakeDay_fields, Day_of_midnight.
  exact E.
Qed.

Lemma newDateStr_range env s t : newDateStr env s = Some t -> Z.abs t <= maxTime.
Proof.
  unfold newDateStr.
  assert (C : forall x, TimeClip x = Some t -> Z.abs t <= maxTime).
  { intros x. unfold TimeClip. destruct (Z.abs x <=? maxTime) eqn:E;
      [| discriminate]. intros [= <-]. apply Z.leb_le, E. }
  destruct (isoParse _ s); [apply C |].
  destruct (hostParse env s); [apply C | discriminate].
Qed.

Lemma validOrNull_Some d x : validOrNull d = Some x -> d = x /\ exists t, x = Some t.
Proof. destruct d; cbn; [intros [= <-]; eauto | discriminate]. Qed.

(** A successful parse is a valid instant. *)
Lemma parse_valid env v d :
  parseModelDateTimeLocal env v = Some d ->
  exists t, d = Some t /\ Z.abs t <= maxTime.
Proof.
  unfold parseModelDateTimeLocal.
  destruct v as [[| c v] |]; try discriminate.
  assert (V : forall s, validOrNull (newDateStr env s) = Some d ->
                   exists t, d = Some t /\ Z.abs t <= maxTime).
  { intros s H. apply validOrNull_Some in H as [H (t & ->)].
    exists t. split; [reflexivity |]. eapply newDateStr_range, H. }
  destruct (test _ _); [apply V |].
  destruct (exec reDateTime _); [apply V |].
  destruct (exec reDateOnly _); apply V.
Qed.

(** [start] and [end] after a successful parse. *)
Lemma startOf_parsed env v d :
  parseModelDateTimeLocal env v = Some d -> startOf env v = d.
Proof. unfold startOf. intros ->. destruct v; reflexivity. Qed.

Lemma endOf_parsed env v d s :
  parseModelDateTimeLocal env v = Some d -> endOf env v s = d.
Proof. unfold endOf. intros ->. destruct v; reflexivity. Qed.

(** [start] and [end] when the argument is missing or empty. *)
Lemma startOf_absent env v :
  v = None \/ v = Some [] -> startOf env v = Some (now env).
Proof. intros [-> | ->]; reflexivity. Qed.

Lemma endOf_absent env v s :
  v = None \/ v = Some [] -> endOf env v s = plusMs s hourMs.
Proof. intros [-> | ->]; reflexivity. Qed.

(** [start] when the argument is a non-empty string the parser gives up
    on: whatever the direct construction makes of it, an Invalid Date
    included. *)
Lemma startOf_unparsed env c v :
  parseModelDateTimeLocal env (Some (c :: v)) = None ->
  startOf env (Some (c :: v)) = newDateStr env (c :: v).
Proof. unfold startOf. intros ->. reflexivity. Qed.

Lemma endOf_unparsed env c v s :
  parseModelDateTimeLocal env (Some (c :: v)) = None ->
  endOf env (Some (c :: v)) s = newDateStr env (c :: v).
Proof. unfold endOf. intros ->. reflexivity. Qed.

Lemma dateLe_plus_false d ms : 0 < ms -> dateLe (plusMs d ms) d = false.
Proof.
  intros H. destruct d as [t |]; [| reflexivity].
  unfold plusMs, newDateNum, numAdd, getTime, TimeClip.
  destruct (_ <=? _); [| reflexivity].
  cbn. apply Z.leb_gt. lia.
Qed.

(** The all-day result: the midnight of the timed [start], one day long. *)
Lemma finish_allDay env s e :
  finish env true s e
  = MkTimes (midnightOf env s) (plusMs (midnightOf env s) dayMs) true.
Proof.
  unfold finish. cbv zeta.
  rewrite dateLe_plus_false by (unfold dayMs; lia). reflexivity.
Qed.

Lemma finish_timed env s e :
  finish env false s e
  = MkTimes s (if dateLe e s then plusMs s hourMs else e) false.
Proof. reflexivity. Qed.

(** Wherever both ends are valid instants, [end] is after [start]. *)
Lemma plusMs_Some d ms y :
  plusMs d ms = Some y -> exists x, d = Some x /\ y = x + ms.
Proof.
  destruct d as [x |]; [| discriminate].
  intros H. apply TimeClip_Some in H. eauto.
Qed.

Lemma finish_ordered env a s e x y :
  start (finish env a s e) = Some x ->
  endTime (finish env a s e) = Some y ->
  x < y.
Proof.
  destruct a.
  - rewrite finish_allDay. cbn [start endTime]. intros Hs He.
    apply plusMs_Some in He as (x' & Hx & ->).
    assert (x' = x) by congruence. subst. unfold dayMs. lia.
  - rewrite finish_timed. cbn [start endTime]. intros Hs He. subst s.
    destruct (dateLe e (Some x)) eqn:E.
    + apply plusMs_Some in He as (x' & [= <-] & ->). unfold hourMs. lia.
    + subst e. cbn in E. apply Z.leb_gt in E. lia.
Qed.

End NormalizerFacts.


(* ===================================================================== *)
(** ** The normalizer: what holds and where it gives way *)
(* ===================================================================== *)

Module NormalizerProps.

Import DateTime Aux CalendarFacts NormalizerFacts.

(** On a host whose zone is +08:00 an all-day start is a +08:00 midnight
    and the event lasts a day. *)
Lemma allDay_on_taipei_host env st en s :
  localTZA env = taipei ->
  start (normalizeEventTimesFromText env st en true) = Some s ->
  taipeiClock s = 0
  /\ endTime (normalizeEventTimesFromText env st en true)
     = TimeClip (s + dayMs).
Proof.
  intros Hz. rewrite normalize_stages, finish_allDay. cbn [start endTime].
  intros Hs. split.
  - unfold taipeiClock, TimeWithinDay. rewrite <- Hz.
    eapply midnightOf_is_midnight, Hs.
  - rewrite Hs. reflexivity.
Qed.

(** The all-day start is the midnight of the timed start. *)
Lemma allDay_start_of_timed env st en :
  start (normalizeEventTimesFromText env st en true)
  = midnightOf env (start (normalizeEventTimesFromText env st en false)).
Proof. rewrite !normalize_stages, finish_allDay, finish_timed. reflexivity. Qed.

(** Valid ends are ordered. *)
Lemma ordered_when_valid env st en a x y :
  start (normalizeEventTimesFromText env st en a) = Some x ->
  endTime (normalizeEventTimesFromText env st en a) = Some y ->
  x < y.
Proof. rewrite normalize_stages. apply finish_ordered. Qed.

(** A timed end at or before the start becomes the start plus one hour. *)
Lemma end_forced_after_start env st en s e :
  parseModelDateTimeLocal env st = Some (Some s) ->
  parseModelDateTimeLocal env en = Some (Some e) ->
  e <= s ->
  normalizeEventTimesFromText env st en false
  = MkTimes (Some s) (TimeClip (s + hourMs)) false.
Proof.
  intros Hs He Hle.
  rewrite normalize_stages, (startOf_parsed _ _ _ Hs),
    (endOf_parsed _ _ _ _ He), finish_timed.
  cbn. apply Z.leb_le in Hle. rewrite Hle. reflexivity.
Qed.

(** Missing or empty arguments do fall back to the current instant and
    to one hour. *)
Lemma absent_start_is_now env st en :
  st = None \/ st = Some [] ->
  en = None \/ en = Some [] ->
  normalizeEventTimesFromText env st en false
  = MkTimes (Some (now env)) (TimeClip (now env + hourMs)) false.
Proof.
  intros Hs He.
  rewrite normalize_stages, (startOf_absent env st Hs),
    (endOf_absent env en _ He), finish_timed.
  rewrite (dateLe_plus_false (Some (now env)) hourMs) by (unfold hourMs; lia).
  reflexivity.
Qed.

(** Re-applying the normalizer to any rendering of its own output that
    parses back to the same instants changes nothing, provided an all-day
    start is a midnight of the host's own zone. *)
Lemma reapply_noop_on_own_zone env sRaw eRaw s e a :
  parseModelDateTimeLocal env sRaw = Some (Some s) ->
  parseModelDateTimeLocal env eRaw = Some (Some e) ->
  s < e ->
  (a = true ->
   (s + localTZA env) mod msPerDay = 0 /\ e = s + dayMs
   /\ fullYear (YearFromTime (s + localTZA env))
      = YearFromTime (s + localTZA env)) ->
  normalizeEventTimesFromText env sRaw eRaw a = MkTimes (Some s) (Some e) a.
Proof.
  intros Hs He Hlt Hday.
  destruct (parse_valid _ _ _ Hs) as (s' & [= <-] & Rs).
  destruct (parse_valid _ _ _ He) as (e' & [= <-] & Re).
  rewrite normalize_stages, (startOf_parsed _ _ _ Hs),
    (endOf_parsed _ _ _ _ He).
  destruct a.
  - destruct (Hday eq_refl) as (Hmid & -> & Hy).
    rewrite finish_allDay, (midnightOf_own_day _ _ Hy).
    assert (M : localMidnight env s = s).
    { unfold localMidnight, Day. unfold msPerDay in *.
      Z.div_mod_to_equations. lia. }
    rewrite M. unfold TimeClip at 1 2.
    apply Z.leb_le in Rs. rewrite Rs.
    unfold plusMs. cbn [getTime numAdd newDateNum]. unfold TimeClip.
    apply Z.leb_le in Re. rewrite Re. reflexivity.
  - rewrite finish_timed. cbn [dateLe].
    apply Z.leb_gt in Hlt. rewrite Hlt. reflexivity.
Qed.


(** On one host, re-applying the normalizer to its own output, in any
    rendering that parses back to the same instants, changes nothing. *)
Lemma reapply_own_output env st en a sRaw eRaw s e :
  normalizeEventTimesFromText env st en a = MkTimes (Some s) (Some e) a ->
  parseModelDateTimeLocal env sRaw = Some (Some s) ->
  parseModelDateTimeLocal env eRaw = Some (Some e) ->
  normalizeEventTimesFromText env sRaw eRaw a = MkTimes (Some s) (Some e) a.
Proof.
  intros Hout Hs He.
  pose proof (ordered_when_valid env st en a s e) as Hlt.
  rewrite Hout in Hlt. specialize (Hlt eq_refl eq_refl).
  rewrite normalize_stages in Hout.
  rewrite normalize_stages, (startOf_parsed _ _ _ Hs),
    (endOf_parsed _ _ _ _ He).
  destruct a.
  - rewrite finish_allDay in *. injection Hout as Hm Hd.
    assert (I : midnightOf env (Some s) = Some s)
      by (rewrite <- Hm; apply midnightOf_idempotent).
    rewrite Hm in Hd. rewrite I, Hd. reflexivity.
  - rewrite finish_timed. cbn [dateLe].
    apply Z.leb_gt in Hlt. rewrite Hlt. reflexivity.
Qed.

(** The two timed scenarios of the specification, on a host at +08:00. *)
Example scenario_end_before_start :
  normalizeEventTimesFromText browserHost (Some (js "2024-08-15T14:00"))
    (Some (js "2024-08-15T13:00")) false
  = MkTimes (Some 1723701600000) (Some 1723705200000) false.
Proof. by_computation. Qed.

Example scenario_date_only_all_day :
  normalizeEventTimesFromText browserHost (Some (js "2025-11-30")) None true
  = MkTimes (Some 1764432000000) (Some 1764518400000) true.
Proof. by_computation. Qed.

End NormalizerProps.


(* ===================================================================== *)
(** ** Claims about the event times *)
(* ===================================================================== *)

Module EventTimeClaims.

Import DateTime Aux CalendarFacts NormalizerFacts NormalizerProps.

(** Without an embedded date and time, and on one host, the two creation
    paths store the same times. *)
Lemma create_paths_agree env args :
  Server.transportOverride env (optStr (arg_description args)) = None ->
  timesOf (Client.createCalendarEvent env args)
  = timesOf (Server.createCalendarEvent env args).
Proof.
  intros H.
  unfold Client.createCalendarEvent, Server.createCalendarEvent, timesOf.
  cbv zeta. cbn [ev_startTime ev_endTime ev_allDay]. rewrite H.
  rewrite normalize_stages.
  destruct (optBool (arg_allDay args)).
  - rewrite finish_allDay. unfold Server.snapAllDay.
    cbn [start endTime allDay].
    fold (midnightOf env (midnightOf env (startOf env (arg_startTime args)))).
    rewrite midnightOf_idempotent. reflexivity.
  - reflexivity.
Qed.

(** C1 (code defect): the assistant's creation path and the webhook's do
    not store the same times.  On one and the same host an embedded date
    and time replaces the times on the webhook only; and an all-day event
    is stored a calendar day apart by a browser at +08:00 and a server at
    UTC, because the all-day branch reads the host's zone. *)
Theorem C1_create_paths_diverge (nw : Z) (hp : jsstring -> option Z) :
  (let env := MkHost taipei nw hp in
   timesOf (Client.createCalendarEvent env bookingArgs)
   = MkTimes (Some 1723701600000) (Some 1723705200000) false
   /\ timesOf (Server.createCalendarEvent env bookingArgs)
      = MkTimes (Some 1723771800000) (Some 1723775400000) false)
  /\ timesOf (Client.createCalendarEvent (MkHost taipei nw hp) billArgs)
     = MkTimes (Some 1764432000000) (Some 1764518400000) true
  /\ timesOf (Server.createCalendarEvent (MkHost 0 nw hp) billArgs)
     = MkTimes (Some 1764374400000) (Some 1764460800000) true.
Proof. by_computation. Qed.

(** C2 (code defect): on a host at UTC the all-day start of the date
    2025-11-30, whose +08:00 midnight is 2025-11-29T16:00Z, comes out as
    2025-11-29T00:00Z: 08:00 on the +08:00 clock, and on the day before.
    And on a host at +08:00 itself the all-day start of a date in the
    years 0..99, here 0050-06-15, comes out in 1950: a midnight, but not
    of start's own date. *)
Theorem C2_all_day_start_not_own_midnight (nw : Z)
    (hp : jsstring -> option Z) :
  (let env := MkHost 0 nw hp in
   parseModelDateTimeLocal env (Some (js "2025-11-30"))
   = Some (Some 1764432000000)
   /\ normalizeEventTimesFromText env (Some (js "2025-11-30")) None true
      = MkTimes (Some 1764374400000) (Some 1764460800000) true
   /\ taipeiClock 1764374400000 = 8 * msPerHour
   /\ taipeiDay 1764374400000 = taipeiDay 1764432000000 - 1)
  /\ (let env := MkHost taipei nw hp in
      parseModelDateTimeLocal env (Some (js "0050-06-15"))
      = Some (Some (-60575068800000))
      /\ parseModelDateTimeLocal env (Some (js "1950-06-15"))
         = Some (Some (-616924800000))
      /\ normalizeEventTimesFromText env (Some (js "0050-06-15")) None true
         = MkTimes (Some (-616924800000)) (Some (-616838400000)) true).
Proof. by_computation. Qed.

(** C3 (code defect): a start no pattern reads stays an Invalid Date, the
    end derived from it is one too, and nothing orders them; the shared
    normalizer and the webhook's copy agree on it. *)
Theorem C3_invalid_start_is_not_ordered (tz nw : Z) :
  let env := strictHost tz nw in
  let r := normalizeEventTimesFromText env (Some (js "tomorrow")) None false in
  r = MkTimes None None false
  /\ Server.normalizeEventTimesFromText env (Some (js "tomorrow")) None false
     = r
  /\ dateLt (start r) (endTime r) = false.
Proof. by_computation. Qed.

(** C5 (code defect): on a host at UTC, re-applying the normalizer to the
    valid all-day triple 2025-11-30 (+08:00 midnight, one day long) moves
    its start back to 2025-11-29T00:00Z.  And on a host at +08:00 itself,
    re-applying it to the valid all-day triple 0050-06-15 moves it to
    1950-06-15. *)
Theorem C5_reapply_moves_valid_all_day (nw : Z)
    (hp : jsstring -> option Z) :
  (let env := MkHost 0 nw hp in
   taipeiClock 1764432000000 = 0
   /\ 1764518400000 = 1764432000000 + dayMs
   /\ parseModelDateTimeLocal env (Some (js "2025-11-29T16:00:00.000Z"))
      = Some (Some 1764432000000)
   /\ parseModelDateTimeLocal env (Some (js "2025-11-30T16:00:00.000Z"))
      = Some (Some 1764518400000)
   /\ normalizeEventTimesFromText env (Some (js "2025-11-29T16:00:00.000Z"))
        (Some (js "2025-11-30T16:00:00.000Z")) true
      = MkTimes (Some 1764374400000) (Some 1764460800000) true)
  /\ (let env := MkHost taipei nw hp in
      taipeiClock (-60575068800000) = 0
      /\ -60574982400000 = -60575068800000 + dayMs
      /\ parseModelDateTimeLocal env (Some (js "0050-06-14T16:00:00.000Z"))
         = Some (Some (-60575068800000))
      /\ parseModelDateTimeLocal env (Some (js "0050-06-15T16:00:00.000Z"))
         = Some (Some (-60574982400000))
      /\ normalizeEventTimesFromText env
           (Some (js "0050-06-14T16:00:00.000Z"))
           (Some (js "0050-06-15T16:00:00.000Z")) true
         = MkTimes (Some (-616924800000)) (Some (-616838400000)) true).
Proof. by_computation. Qed.

(** C6 (code defect): for a non-empty string that the parser gives up on
    and the direct construction cannot read either, start is an Invalid
    Date, not the current instant, and so is the end derived from it. *)
Theorem C6_unparseable_start_is_not_now env c v :
  parseModelDateTimeLocal env (Some (c :: v)) = None ->
  newDateStr env (c :: v) = None ->
  normalizeEventTimesFromText env (Some (c :: v)) None false
  = MkTimes None None false
  /\ start (normalizeEventTimesFromText env (Some (c :: v)) None false)
     <> Some (now env).
Proof.
  intros Hp Hd.
  rewrite normalize_stages, (startOf_unparsed _ _ _ Hp), Hd.
  split; [reflexivity | discriminate].
Qed.

Lemma C6_unparseable_start_is_not_now_witness :
  normalizeEventTimesFromText (strictHost taipei 1700000000000)
    (Some (js "tomorrow")) None false
  = MkTimes None None false
  /\ start (normalizeEventTimesFromText (strictHost taipei 1700000000000)
              (Some (js "tomorrow")) None false)
     <> Some (now (strictHost taipei 1700000000000)).
Proof.
  apply (C6_unparseable_start_is_not_now (strictHost taipei 1700000000000)
           116 (js "omorrow")); vm_compute; reflexivity.
Defined.

End EventTimeClaims.


(* ===================================================================== *)
(** ** Facts about the two update branches *)
(* ===================================================================== *)

Module UpdateFacts.

Import DateTime Aux.

(** Writing the triple over the rest of the payload. *)
Lemma lookup_triple_other (m : gmap string value) (a b c : value) k :
  ~ timeKey k ->
  (<["startTime" := a]> (<["endTime" := b]> (<["allDay" := c]> m))) !! k
  = m !! k.
Proof.
  intros H. unfold timeKey in H.
  rewrite !lookup_insert_ne by (intros <-; apply H; auto). reflexivity.
Qed.

Lemma lookup_triple (m : gmap string value) (a b c : value) :
  let m' := <["startTime" := a]> (<["endTime" := b]> (<["allDay" := c]> m)) in
  m' !! "startTime" = Some a /\ m' !! "endTime" = Some b
  /\ m' !! "allDay" = Some c.
Proof.
  cbv zeta. rewrite lookup_insert_eq.
  rewrite lookup_insert_ne by discriminate. rewrite lookup_insert_eq.
  rewrite !lookup_insert_ne by discriminate. rewrite lookup_insert_eq.
  auto.
Qed.

(** The else branch only replaces values that are there. *)
Lemma server_reparse_absent env k' (m : gmap string value) k :
  m !! k = None -> Server.reparse env k' m !! k = None.
Proof.
  intros H. unfold Server.reparse.
  destruct (m !! k') as [v |] eqn:E; [| exact H].
  destruct (toBoolean (Some v)); [| exact H].
  destruct (decide (k' = k)) as [-> | N]; [congruence |].
  rewrite lookup_insert_ne by exact N. exact H.
Qed.

Lemma client_reparse_absent env k' (m : gmap string value) k :
  m !! k = None -> Client.reparse env k' m !! k = None.
Proof.
  intros H. unfold Client.reparse.
  destruct (m !! k') as [[[| c s] | b | d] |] eqn:E; try exact H.
  destruct (decide (k' = k)) as [-> | N]; [congruence |].
  rewrite lookup_insert_ne by exact N. exact H.
Qed.

Lemma delete_absent (m : gmap string value) k :
  m !! k = None -> delete "id" m !! k = None.
Proof.
  intros H. destruct (decide ("id" = k)) as [<- | N].
  - apply lookup_delete_eq.
  - rewrite lookup_delete_ne by exact N. exact H.
Qed.

(** A field absent from the payload is absent from what the webhook
    writes, unless it is one of the three time fields and the payload
    carries one of them. *)
Lemma server_update_absent env args fields k :
  Server.updateCalendarEvent env args = Some (Some fields) ->
  args !! k = None ->
  ~ timeKey k \/ Server.touchesTimes (delete "id" args) = false ->
  fields !! k = None.
Proof.
  unfold Server.updateCalendarEvent. intros H Hk Hc.
  apply delete_absent in Hk.
  destruct (toBoolean (args !! "id")); [| discriminate].
  destruct (Server.touchesTimes (delete "id" args)) eqn:T.
  - destruct Hc as [Hc | Hc]; [| discriminate].
    destruct (asTimeArg _); [| discriminate].
    destruct (asTimeArg _); [| discriminate].
    injection H as <-. rewrite lookup_triple_other by exact Hc. exact Hk.
  - injection H as <-. now apply server_reparse_absent, server_reparse_absent.
Qed.

Lemma client_update_absent env args fields k :
  Client.updateCalendarEvent env args = Some (Some fields) ->
  args !! k = None ->
  ~ timeKey k \/ Client.touchesTimes (delete "id" args) = false ->
  fields !! k = None.
Proof.
  unfold Client.updateCalendarEvent. intros H Hk Hc.
  apply delete_absent in Hk.
  destruct (toBoolean (args !! "id")); [| discriminate].
  destruct (Client.touchesTimes (delete "id" args)) eqn:T.
  - destruct Hc as [Hc | Hc]; [| discriminate].
    destruct (asTimeArg _); [| discriminate].
    destruct (asTimeArg _); [| discriminate].
    injection H as <-. rewrite lookup_triple_other by exact Hc. exact Hk.
  - injection H as <-. now apply client_reparse_absent, client_reparse_absent.
Qed.

(** Once the payload carries one of the three time fields, all three are
    written. *)
Lemma server_update_triple env args fields :
  Server.updateCalendarEvent env args = Some (Some fields) ->
  Server.touchesTimes (delete "id" args) = true ->
  is_Some (fields !! "startTime") /\ is_Some (fields !! "endTime")
  /\ is_Some (fields !! "allDay").
Proof.
  unfold Server.updateCalendarEvent. intros H T. rewrite T in H.
  destruct (toBoolean (args !! "id")); [| discriminate].
  destruct (asTimeArg _); [| discriminate].
  destruct (asTimeArg _); [| discriminate].
  injection H as <-.
  match goal with
  | |- context [<["startTime" := ?a]> (<["endTime" := ?b]> (<["allDay" := ?c]> ?m))] =>
      destruct (lookup_triple m a b c) as (-> & -> & ->)
  end.
  eauto.
Qed.

Lemma client_update_triple env args fields :
  Client.updateCalendarEvent env args = Some (Some fields) ->
  Client.touchesTimes (delete "id" args) = true ->
  is_Some (fields !! "startTime") /\ is_Some (fields !! "endTime")
  /\ is_Some (fields !! "allDay").
Proof.
  unfold Client.updateCalendarEvent. intros H T. rewrite T in H.
  destruct (toBoolean (args !! "id")); [| discriminate].
  destruct (asTimeArg _); [| discriminate].
  destruct (asTimeArg _); [| discriminate].
  injection H as <-.
  match goal with
  | |- context [<["startTime" := ?a]> (<["endTime" := ?b]> (<["allDay" := ?c]> ?m))] =>
      destruct (lookup_triple m a b c) as (-> & -> & ->)
  end.
  eauto.
Qed.

Lemma applyUpdate_absent (stored fields : gmap string value) k :
  fields !! k = None -> applyUpdate stored fields !! k = stored !! k.
Proof. intros H. unfold applyUpdate. apply lookup_union_r, H. Qed.

End UpdateFacts.


(* ===================================================================== *)
(** ** Claims about the handlers *)
(* ===================================================================== *)

Module HandlerClaims.

Import DateTime Aux CalendarFacts NormalizerFacts UpdateFacts.




(** C7 (code defect): an update that carries the all-day flag only, and
    one that carries a new end only, overwrite the stored start, which
    the payload does not name, by a start taken from the current instant
    (its midnight for the all-day flag), in the webhook and in the
    assistant alike. *)
Lemma C7_all_day_only_update_rewrites_times :
  allDayOnlyUpdate !! "startTime" = None
  /\ endOnlyUpdate !! "startTime" = None
  /\ storedEvent !! "startTime" = Some (VDate (Some 1723701600000))
  /\ (exists fields,
         Server.updateCalendarEvent browserHost allDayOnlyUpdate
         = Some (Some fields)
         /\ applyUpdate storedEvent fields !! "startTime"
            = Some (VDate (Some 1699977600000)))
  /\ (exists fields,
         Client.updateCalendarEvent browserHost allDayOnlyUpdate
         = Some (Some fields)
         /\ applyUpdate storedEvent fields !! "startTime"
            = Some (VDate (Some 1699977600000)))
  /\ (exists fields,
         Server.updateCalendarEvent browserHost endOnlyUpdate
         = Some (Some fields)
         /\ applyUpdate storedEvent fields !! "startTime"
            = Some (VDate (Some (now browserHost))))
  /\ (exists fields,
         Client.updateCalendarEvent browserHost endOnlyUpdate
         = Some (Some fields)
         /\ applyUpdate storedEvent fields !! "startTime"
            = Some (VDate (Some (now browserHost)))).
Proof.
  split; [vm_compute; reflexivity |].
  split; [vm_compute; reflexivity |].
  split; [vm_compute; reflexivity |].
  repeat split; eexists; (split; [reflexivity | vm_compute; reflexivity]).
Qed.

(** What the update branches do keep: every stored field that is absent
    from the payload and is not one of startTime, endTime and allDay, and
    these three as well when the guard of the branch fails; when it
    holds, all three are written. *)
Lemma update_keeps_other_fields env args fields stored k :
  Server.updateCalendarEvent env args = Some (Some fields)
  \/ Client.updateCalendarEvent env args = Some (Some fields) ->
  args !! k = None ->
  (~ timeKey k \/ Server.touchesTimes (delete "id" args) = false ->
   applyUpdate stored fields !! k = stored !! k)
  /\ (Server.touchesTimes (delete "id" args) = true ->
      is_Some (fields !! "startTime") /\ is_Some (fields !! "endTime")
      /\ is_Some (fields !! "allDay")).
Proof.
  intros [Hu | Hu] Hk; split.
  - intros Hc. apply applyUpdate_absent.
    eapply server_update_absent; eassumption.
  - exact (server_update_triple env args fields Hu).
  - intros Hc. apply applyUpdate_absent.
    eapply client_update_absent; eassumption.
  - exact (client_update_triple env args fields Hu).
Qed.

Lemma update_keeps_other_fields_witness :
  applyUpdate storedEvent rebookFields !! "title" = storedEvent !! "title".
Proof.
  refine (proj1 (update_keeps_other_fields serverHost rebookUpdate rebookFields
                   storedEvent "title" _ _) _).
  - left. vm_compute. reflexivity.
  - vm_compute. reflexivity.
  - left. unfold timeKey. intros [H | [H | H]]; discriminate.
Defined.

End HandlerClaims.


(* ===================================================================== *)
(** ** Facts about the arithmetic of Numbers *)
(* ===================================================================== *)

Module NumberFacts.

Import JsNumber Aux.

(** The nearest integer is within half a unit. *)
Lemma roundHalfEven_bounds n d :
  0 < d ->
  2 * n - d <= 2 * d * roundHalfEven n d <= 2 * n + d.
Proof.
  intros Hd. unfold roundHalfEven.
  pose proof (Z.div_mod n d ltac:(lia)) as E.
  pose proof (Z.mod_pos_bound n d Hd) as B.
  destruct (2 * (n mod d) <? d) eqn:L1; [apply Z.ltb_lt in L1; nia |].
  apply Z.ltb_ge in L1.
  destruct (d <? 2 * (n mod d)) eqn:L2; [apply Z.ltb_lt in L2; nia |].
  apply Z.ltb_ge in L2.
  destruct (Z.even (n / d)); nia.
Qed.

Lemma roundHalfEven_nonneg n d : 0 < d -> 0 <= n -> 0 <= roundHalfEven n d.
Proof.
  intros Hd Hn. pose proof (roundHalfEven_bounds n d Hd).
  assert (0 <= n / d) by (apply Z.div_pos; lia).
  unfold roundHalfEven.
  destruct (_ <? _); [assumption |].
  destruct (_ <? _); [lia |].
  destruct (Z.even _); lia.
Qed.

Lemma roundHalfEven_floor n d : 0 < d -> n / d <= roundHalfEven n d.
Proof.
  intros Hd. unfold roundHalfEven.
  destruct (_ <? _); [lia |].
  destruct (_ <? _); [lia |].
  destruct (Z.even _); lia.
Qed.

(** An integer of 53 bits is a Number. *)
Lemma ofInteger_exact z : Z.abs z <= 2 ^ 53 -> ofInteger z = z.
Proof.
  intros H. unfold ofInteger.
  destruct (Z.log2 (Z.abs z) - 52 <=? 0) eqn:E; [reflexivity |].
  apply Z.leb_gt in E.
  assert (L : Z.log2 (Z.abs z) <= Z.log2 (2 ^ 53)) by (apply Z.log2_le_mono, H).
  rewrite Z.log2_pow2 in L by lia.
  assert (Z.log2 (Z.abs z) = 53) by lia.
  assert (A : Z.abs z = 2 ^ 53).
  { pose proof (Z.log2_spec (Z.abs z)) as S.
    assert (0 < Z.abs z).
    { destruct (Z.eq_dec (Z.abs z) 0) as [Z0 | Z0]; [| lia].
      rewrite Z0 in *. cbn in *. lia. }
    specialize (S ltac:(lia)). replace (Z.log2 (Z.abs z)) with 53 in S. lia. }
  replace (Z.log2 (Z.abs z) - 52) with 1 by lia.
  rewrite A. change (roundHalfEven (2 ^ 53) (2 ^ 1) * 2 ^ 1) with (2 ^ 53).
  rewrite <- A. rewrite Z.mul_comm. apply Z.abs_sgn.
Qed.

(** Rounding an integer to a Number keeps its sign. *)
Lemma ofInteger_sign z : (ofInteger z <=? 0) = (z <=? 0).
Proof.
  unfold ofInteger.
  destruct (Z.log2 (Z.abs z) - 52 <=? 0) eqn:E; [reflexivity |].
  apply Z.leb_gt in E.
  set (e := Z.log2 (Z.abs z) - 52) in *.
  assert (P : 0 < 2 ^ e) by (apply Z.pow_pos_nonneg; lia).
  assert (A : 0 < Z.abs z).
  { destruct (Z.eq_dec (Z.abs z) 0) as [Z0 | Z0]; [| lia].
    subst e. rewrite Z0 in E. cbn in E. lia. }
  pose proof (Z.log2_spec (Z.abs z) A) as [S _].
  assert (F : 2 ^ e <= Z.abs z).
  { etransitivity; [| exact S]. apply Z.pow_le_mono_r; lia. }
  assert (R : 0 < roundHalfEven (Z.abs z) (2 ^ e)).
  { pose proof (roundHalfEven_floor (Z.abs z) (2 ^ e) P).
    assert (1 <= Z.abs z / 2 ^ e) by (apply Z.div_le_lower_bound; lia).
    lia. }
  destruct (Z.leb_spec z 0) as [Hz | Hz].
  - apply Z.leb_le. assert (Z.sgn z = -1) by (apply Z.sgn_neg; lia). nia.
  - apply Z.leb_gt. rewrite (Z.sgn_pos z Hz). nia.
Qed.

(** Up to 53 bits the quotient by 60000, rounded to a Number and then to
    an integer, is the exact quotient rounded, a half going up. *)
Lemma mathRound_quotient_minutes x :
  0 < x <= 2 ^ 53 ->
  mathRound (quotient x 60000) = roundDiv x 60000.
Proof.
  intros [Hx Hb]. unfold quotient.
  destruct (Z.eqb_spec x 0) as [-> | _]; [lia |].
  rewrite (Z.abs_eq x), (Z.sgn_pos x), Z.mul_1_l by lia.
  cbv zeta.
  set (e := Z.max (log2Quot x 60000 - 52) (-1074)).
  assert (He : -1074 <= e <= -15).
  { subst e. unfold log2Quot.
    change (Z.log2 60000) with 15.
    assert (L : 0 <= Z.log2 x <= 53).
    { split; [apply Z.log2_nonneg |].
      change 53 with (Z.log2 (2 ^ 53)). apply Z.log2_le_mono, Hb. }
    destruct (0 <=? Z.log2 x - 15) eqn:K.
    - destruct (60000 * 2 ^ (Z.log2 x - 15) <=? x) eqn:T; [| lia].
      apply Z.leb_le in T.
      assert (Z.log2 x - 15 <= 37); [| lia].
      destruct (Z_le_gt_dec (Z.log2 x - 15) 37) as [? | G]; [assumption |].
      assert (2 ^ 38 <= 2 ^ (Z.log2 x - 15)) by (apply Z.pow_le_mono_r; lia).
      change (2 ^ 53) with 9007199254740992 in Hb.
      change (2 ^ 38) with 274877906944 in *. lia.
    - apply Z.leb_gt in K. destruct (_ <=? _); lia. }
  destruct (0 <=? e) eqn:E0; [apply Z.leb_le in E0; lia |].
  unfold mathRound. cbn [significand exponent]. rewrite E0.
  set (k := - e - 1).
  assert (Hk : 14 <= k) by lia.
  replace (- e) with (k + 1) by lia.
  replace (2 ^ (k + 1)) with (2 * 2 ^ k)
    by (rewrite <- Z.pow_succ_r by lia; f_equal; lia).
  set (P := 2 ^ k).
  assert (HP : 16384 <= P).
  { subst P. change 16384 with (2 ^ 14). apply Z.pow_le_mono_r; lia. }
  pose proof (roundHalfEven_bounds (x * (2 * P)) 60000 ltac:(lia)) as R.
  set (m := roundHalfEven (x * (2 * P)) 60000) in *.
  unfold roundDiv.
  pose proof (Z.div_mod (2 * x + 60000) (2 * 60000) ltac:(lia)) as D.
  pose proof (Z.mod_pos_bound (2 * x + 60000) (2 * 60000) ltac:(lia)) as B.
  set (N := (2 * x + 60000) / (2 * 60000)) in *.
  symmetry. apply Z.div_unique with (r := m + P - (2 * P) * N); [| ring].
  left.
  (* 2x = 120000 N + r - 60000 with r even *)
  assert (Ev : (2 * x + 60000) mod (2 * 60000) <= 2 * 60000 - 2) by lia.
  set (r := (2 * x + 60000) mod (2 * 60000)) in *.
  assert (X : 2 * x = 120000 * N + r - 60000) by lia.
  assert (Lo : 60000 * ((2 * N - 1) * P) <= x * (2 * P)) by nia.
  assert (Hi : x * (2 * P) <= 60000 * ((2 * N + 1) * P) - 2 * P) by nia.
  lia.
Qed.

(** A quotient that is not positive rounds to nothing positive. *)
Lemma mathRound_quotient_nonpos x d :
  0 < d -> x <= 0 -> mathRound (quotient x d) <= 0.
Proof.
  intros Hd Hx. unfold quotient.
  destruct (Z.eqb_spec x 0) as [-> | N]; [cbn; lia |].
  cbv zeta.
  set (e := Z.max (log2Quot (Z.abs x) d - 52) (-1074)).
  assert (S : Z.sgn x = -1) by (apply Z.sgn_neg; lia).
  rewrite S. unfold mathRound. cbn [significand exponent].
  destruct (0 <=? e) eqn:E0.
  - apply Z.leb_le in E0.
    assert (0 < d * 2 ^ e) by (apply Z.mul_pos_pos; [| apply Z.pow_pos_nonneg]; lia).
    pose proof (roundHalfEven_nonneg (Z.abs x) (d * 2 ^ e) ltac:(lia) ltac:(lia)).
    assert (0 < 2 ^ e) by (apply Z.pow_pos_nonneg; lia). nia.
  - apply Z.leb_gt in E0.
    assert (0 < 2 ^ (- e)) by (apply Z.pow_pos_nonneg; lia).
    pose proof (roundHalfEven_nonneg (Z.abs x * 2 ^ (- e)) d Hd ltac:(nia)).
    assert (2 * 2 ^ (- e - 1) = 2 ^ (- e)).
    { rewrite <- Z.pow_succ_r by lia. f_equal. lia. }
    apply Z.lt_succ_r. apply Z.div_lt_upper_bound; lia.
Qed.

End NumberFacts.


(* ===================================================================== *)
(** ** Facts about the correlator *)
(* ===================================================================== *)

Module FlightFacts.

Import Flights Aux CalendarFacts.

(** [pickFirstNonNull] returns the first value that is there. *)
Lemma pickFirstNonNull_first values v :
  pickFirstNonNull values = Some v <->
  exists before after,
    values = before ++ Some v :: after
    /\ defined (Some v) = true
    /\ Forall (fun x => defined x = false) before.
Proof.
  induction values as [| x rest IH]; cbn.
  - split; [discriminate |].
    intros (b & a & H & _). destruct b; discriminate.
  - destruct x as [[| c s] |].
    + rewrite IH. split.
      * intros (b & a & -> & D & F). exists (Some [] :: b), a.
        repeat split; [exact D | constructor; [reflexivity | exact F]].
      * intros (b & a & H & D & F). destruct b as [| y b].
        -- injection H as <- _. discriminate.
        -- injection H as <- ->. inversion F; subst. eauto.
    + split.
      * intros [= <-]. exists [], rest. repeat split. constructor.
      * intros (b & a & H & D & F). destruct b as [| y b].
        -- injection H as <- _. reflexivity.
        -- injection H as <- _. inversion F; subst. discriminate.
    + rewrite IH. split.
      * intros (b & a & -> & D & F). exists (None :: b), a.
        repeat split; [exact D | constructor; [reflexivity | exact F]].
      * intros (b & a & H & D & F). destruct b as [| y b].
        -- discriminate.
        -- injection H as <- ->. inversion F; subst. eauto.
Qed.

Lemma pickFirstNonNull_none values :
  pickFirstNonNull values = None <->
  Forall (fun x => defined x = false) values.
Proof.
  induction values as [| x rest IH]; cbn.
  - split; [constructor | reflexivity].
  - destruct x as [[| c s] |].
    + rewrite IH. split; [constructor; auto | inversion 1; auto].
    + split; [discriminate | inversion 1; discriminate].
    + rewrite IH. split; [constructor; auto | inversion 1; auto].
Qed.

(** The sort never loses its input, and its head is the first element of
    least key. *)
Lemma insertBy_not_nil {A} (f : A -> Z) x l : insertBy (byKey f) x l <> [].
Proof. destruct l; cbn; [| destruct (_ <=? _)]; discriminate. Qed.

Lemma sortBy_nil {A} (f : A -> Z) l : sortBy (byKey f) l = [] -> l = [].
Proof.
  destruct l as [| x l]; [reflexivity |].
  change (sortBy (byKey f) (x :: l))
    with (insertBy (byKey f) x (sortBy (byKey f) l)).
  intros H. exfalso. eapply insertBy_not_nil, H.
Qed.

Lemma sortBy_head {A} (f : A -> Z) l x r :
  sortBy (byKey f) l = x :: r ->
  exists before after,
    l = before ++ x :: after
    /\ (forall y, In y before -> f x < f y)
    /\ (forall y, In y after -> f x <= f y).
Proof.
  revert x r. induction l as [| a l IH]; [discriminate |].
  intros x r H.
  change (sortBy (byKey f) (a :: l))
    with (insertBy (byKey f) a (sortBy (byKey f) l)) in H.
  destruct (sortBy (byKey f) l) as [| y r'] eqn:E.
  - apply sortBy_nil in E. subst l. cbn in H. injection H as <- <-.
    exists [], []. repeat split; intros y [].
  - destruct (IH y r' eq_refl) as (b & c & -> & Hb & Hc).
    cbn in H. unfold byKey in H.
    destruct (f a - f y <=? 0) eqn:L.
    + apply Z.leb_le in L. injection H as <- <-.
      exists [], (b ++ y :: c). repeat split; [intros ? [] |].
      intros z Hz. apply in_app_or in Hz as [Hz | [<- | Hz]].
      * specialize (Hb z Hz). lia.
      * lia.
      * specialize (Hc z Hz). lia.
    + apply Z.leb_gt in L. injection H as <- <-.
      exists (a :: b), c. repeat split.
      * intros z [<- | Hz]; [lia | auto].
      * exact Hc.
Qed.

(** The sort permutes its input and leaves it in order of key. *)
Lemma insertBy_perm {A} (f : A -> Z) x l :
  Permutation (insertBy (byKey f) x l) (x :: l).
Proof.
  induction l as [| y r IH]; cbn; [reflexivity |].
  destruct (_ <=? _); [reflexivity |].
  rewrite IH. apply perm_swap.
Qed.

Lemma sortBy_perm {A} (f : A -> Z) l : Permutation (sortBy (byKey f) l) l.
Proof.
  induction l as [| x l IH]; [reflexivity |].
  change (sortBy (byKey f) (x :: l))
    with (insertBy (byKey f) x (sortBy (byKey f) l)).
  rewrite insertBy_perm, IH. reflexivity.
Qed.

Lemma insertBy_sorted {A} (f : A -> Z) x l :
  StronglySorted (fun a b => f a <= f b) l ->
  StronglySorted (fun a b => f a <= f b) (insertBy (byKey f) x l).
Proof.
  induction 1 as [| y r Hs IH Hf]; cbn.
  - repeat constructor.
  - unfold byKey at 1. destruct (f x - f y <=? 0) eqn:L.
    + apply Z.leb_le in L. constructor; [constructor; assumption |].
      constructor; [lia |].
      eapply List.Forall_impl; [| exact Hf]. cbn. intros z Hz. lia.
    + apply Z.leb_gt in L. constructor; [exact IH |].
      eapply Permutation_Forall; [symmetry; apply insertBy_perm |].
      constructor; [lia | exact Hf].
Qed.

Lemma sortBy_sorted {A} (f : A -> Z) l :
  StronglySorted (fun a b => f a <= f b) (sortBy (byKey f) l).
Proof.
  induction l as [| x l IH]; [constructor |].
  change (sortBy (byKey f) (x :: l))
    with (insertBy (byKey f) x (sortBy (byKey f) l)).
  apply insertBy_sorted, IH.
Qed.

(** Two comparators of the same signs sort alike. *)
Lemma insertBy_ext {A} (c1 c2 : A -> A -> Z) x l :
  (forall a b, (c1 a b <=? 0) = (c2 a b <=? 0)) ->
  insertBy c1 x l = insertBy c2 x l.
Proof.
  intros H. induction l as [| y r IH]; cbn; [reflexivity |].
  rewrite H, IH. reflexivity.
Qed.

Lemma sortBy_ext {A} (c1 c2 : A -> A -> Z) l :
  (forall a b, (c1 a b <=? 0) = (c2 a b <=? 0)) ->
  sortBy c1 l = sortBy c2 l.
Proof.
  intros H. induction l as [| x l IH]; [reflexivity |].
  change (sortBy c1 (x :: l)) with (insertBy c1 x (sortBy c1 l)).
  change (sortBy c2 (x :: l)) with (insertBy c2 x (sortBy c2 l)).
  rewrite IH. apply insertBy_ext, H.
Qed.

(** The difference of two distances, rounded to a Number, has the sign of
    the exact one: the comparator orders by distance. *)
Lemma sortBy_byDistance eventDate l :
  sortBy (byDistance eventDate) l = sortBy (byKey (diffOf eventDate)) l.
Proof.
  apply sortBy_ext. intros a b. unfold byDistance, byKey, JsNumber.minus.
  apply NumberFacts.ofInteger_sign.
Qed.

(** Where an element that a filter keeps comes from. *)
Lemma filter_split {A} (p : A -> bool) l b x a :
  List.filter p l = b ++ x :: a ->
  exists l1 l2,
    l = l1 ++ x :: l2 /\ List.filter p l1 = b /\ List.filter p l2 = a
    /\ p x = true.
Proof.
  revert b. induction l as [| y l IH]; intros b H.
  - destruct b; discriminate.
  - cbn in H. destruct (p y) eqn:Py.
    + destruct b as [| z b].
      * injection H as -> <-. exists [], l. cbn. auto.
      * injection H as -> H. destruct (IH b H) as (l1 & l2 & -> & F1 & F2 & Px).
        exists (z :: l1), l2. cbn. rewrite Py, F1. auto.
    + destruct (IH b H) as (l1 & l2 & -> & F1 & F2 & Px).
      exists (y :: l1), l2. cbn. rewrite Py. auto.
Qed.

Lemma map_split {A B} (f : A -> B) l b y a :
  map f l = b ++ y :: a ->
  exists l1 x l2,
    l = l1 ++ x :: l2 /\ map f l1 = b /\ f x = y /\ map f l2 = a.
Proof.
  intros H. apply map_eq_app in H as (l1 & r & -> & H1 & H).
  apply map_eq_cons in H as (x & l2 & -> & Hx & H2).
  exists l1, x, l2. auto.
Qed.

(** An instant of the modern years lies in a year of four digits, and a
    day of a month is of two. *)
Lemma DateFromTime_range t : 1 <= DateFromTime t <= 31.
Proof.
  unfold DateFromTime, MonthFromTime.
  pose proof (DayWithinYear_range t) as R.
  set (w := DayWithinYear t) in *.
  destruct (leapDays_cases (YearFromTime t)) as [L | L]; rewrite L in *;
    unfold monthOfDayInYear;
    repeat match goal with
      | |- context [?a <? ?b] => destruct (Z.ltb_spec a b)
      end; cbn; lia.
Qed.

Lemma modern_year t :
  modern t -> 1980 <= YearFromTime (t + taipei) <= 9999.
Proof.
  unfold modern, YearFromTime, taipei, msPerHour. intros M.
  set (d := Day (t + 8 * 3600000)).
  assert (D : DayFromYear 1980 <= d < DayFromYear 10000).
  { change (DayFromYear 1980) with 3652.
    change (DayFromYear 10000) with 2932897.
    subst d. unfold Day, msPerDay.
    split; [apply Z.div_le_lower_bound | apply Z.div_lt_upper_bound]; lia. }
  pose proof (YearFromDay_spec d) as S.
  set (y := YearFromDay d) in *.
  split.
  - destruct (Z_le_gt_dec 1980 y) as [? | G]; [assumption |].
    pose proof (DayFromYear_mono (y + 1) 1980 ltac:(lia)). lia.
  - destruct (Z_le_gt_dec y 9999) as [? | G]; [assumption |].
    pose proof (DayFromYear_mono 10000 y ltac:(lia)). lia.
Qed.

(** The fields of a day name it, and a day has one set of fields. *)
Lemma same_fields_same_day a b :
  YearFromTime a = YearFromTime b /\ MonthFromTime a = MonthFromTime b
  /\ DateFromTime a = DateFromTime b <->
  Day a = Day b.
Proof.
  split.
  - intros (Y & M & D).
    rewrite <- (MakeDay_fields a), <- (MakeDay_fields b).
    rewrite Y, M, D. reflexivity.
  - intros H.
    assert (Y : YearFromTime a = YearFromTime b)
      by (unfold YearFromTime; rewrite H; reflexivity).
    assert (W : DayWithinYear a = DayWithinYear b)
      by (unfold DayWithinYear; rewrite H, Y; reflexivity).
    assert (M : MonthFromTime a = MonthFromTime b)
      by (unfold MonthFromTime; rewrite W, Y; reflexivity).
    assert (D : DateFromTime a = DateFromTime b)
      by (unfold DateFromTime; rewrite W, M, Y; reflexivity).
    auto.
Qed.

Lemma localDateText_inj y m d y' m' d' :
  0 <= y <= 9999 -> 0 <= y' <= 9999 ->
  0 <= m <= 99 -> 0 <= m' <= 99 -> 0 <= d <= 99 -> 0 <= d' <= 99 ->
  ViewAux.localDateText y m d = ViewAux.localDateText y' m' d' ->
  y = y' /\ m = m' /\ d = d'.
Proof.
  intros Hy Hy' Hm Hm' Hd Hd'.
  unfold ViewAux.localDateText, ViewAux.fourDigits, ViewAux.twoDigits.
  cbn [app]. intros H.
  injection H as Y3 Y2 Y1 Y0 M1 M0 D1 D0.
  Z.div_mod_to_equations. lia.
Qed.

(** The key [YYYY-MM-DD] of the day at +08:00 tells the days of the
    modern years apart, and nothing else. *)
Lemma taipeiKey_names_day : keyNamesTaipeiDay ViewAux.serverRuntime.
Proof.
  intros t e Mt Me. cbn [taipeiDateKey ViewAux.serverRuntime].
  unfold ViewAux.taipeiKey, taipeiDay. cbv zeta.
  rewrite <- same_fields_same_day.
  pose proof (modern_year t Mt). pose proof (modern_year e Me).
  pose proof (MonthFromTime_range (t + taipei)).
  pose proof (MonthFromTime_range (e + taipei)).
  pose proof (DateFromTime_range (t + taipei)).
  pose proof (DateFromTime_range (e + taipei)).
  split.
  - intros E. apply localDateText_inj in E; lia.
  - intros (-> & -> & ->). reflexivity.
Qed.

Lemma same_day_close t e :
  taipeiDay t = taipeiDay e -> Z.abs (t - e) < msPerDay.
Proof.
  unfold taipeiDay. intros H.
  pose proof (midnight_le (t + taipei)) as A.
  pose proof (midnight_le (e + taipei)) as B.
  rewrite H in A. lia.
Qed.

(** A record passes [isTaiwanArrival] exactly when its destination
    carries a code of the allow list. *)
Lemma isTaiwanAirport_spec env c :
  isTaiwanAirport env c = true <-> taiwanCode env c.
Proof.
  unfold isTaiwanAirport, taiwanCode. split.
  - destruct c as [[| u s] |]; try discriminate.
    intros H. apply existsb_exists in H as (x & Hx & E).
    apply bool_decide_eq_true in E. subst x.
    exists (u :: s). repeat split; [discriminate | exact Hx].
  - intros (s & -> & N & H). destruct s as [| u s]; [contradiction |].
    apply existsb_exists. exists (upperCase env (u :: s)).
    split; [exact H | apply bool_decide_eq_true; reflexivity].
Qed.

Lemma isTaiwanArrival_spec env f :
  isTaiwanArrival env f = true <-> arrivesInTaiwan env f.
Proof.
  unfold isTaiwanArrival, arrivesInTaiwan.
  destruct (destination f) as [dest |].
  - rewrite !orb_true_iff, !isTaiwanAirport_spec. split.
    + intros H. exists dest. split; [reflexivity | tauto].
    + intros (d & [= <-] & H). tauto.
  - split; [discriminate | intros (d & H & _); discriminate].
Qed.

(** The same-date candidates are the records of the answer that pass the
    two filters, in the order of the answer. *)
Lemma sameDateMatches_map env flights eventDate :
  sameDateMatches env flights eventDate
  = map (toMatch env) (List.filter (survives env eventDate) flights).
Proof.
  unfold sameDateMatches, survives. cbv zeta.
  induction flights as [| f l IH]; [reflexivity |].
  cbn [List.filter]. destruct (isTaiwanArrival env f); cbn [andb].
  - cbn [map List.filter].
    destruct (key_eqb _ _); cbn [map]; rewrite IH; reflexivity.
  - exact IH.
Qed.

Lemma survives_spec env eventDate f :
  keyNamesTaipeiDay env -> modern eventDate ->
  (forall t, arrivalOf env f = Some t -> modern t) ->
  survives env eventDate f = true <-> sameDayArrival env eventDate f.
Proof.
  intros K Me Mf. unfold survives, sameDayArrival.
  rewrite andb_true_iff, isTaiwanArrival_spec.
  unfold toMatch, isoStringToDateKey, formatDateKey, key_eqb. cbn [key].
  unfold arrivalOf in *.
  destruct (parseDate env _) as [t |].
  - specialize (Mf t eq_refl). unfold jsstring_eqb.
    rewrite bool_decide_eq_true, (K t eventDate Mf Me). split.
    + intros [A D]. split; [exact A |]. exists t. auto.
    + intros [A (t' & [= <-] & D)]. auto.
  - split; [intros [_ H]; discriminate | intros [_ (t & H & _)]; discriminate].
Qed.

(** The distance the comparator gives a same-date candidate is the exact
    one, below a day. *)
Lemma diffOf_candidate (env : Runtime) eventDate f :
  sameDayArrival env eventDate f ->
  diffOf eventDate (toMatch env f) = distance env eventDate f
  /\ distance env eventDate f < msPerDay.
Proof.
  intros (_ & t & Ht & D). unfold diffOf, distance, toMatch. cbn [ts].
  unfold arrivalOf in *. rewrite Ht.
  pose proof (same_day_close t eventDate D) as C.
  unfold JsNumber.minus. rewrite NumberFacts.ofInteger_exact.
  - auto.
  - change (2 ^ 53) with 9007199254740992. unfold msPerDay in C. lia.
Qed.

End FlightFacts.


(* ===================================================================== *)
(** ** Claims about the correlator *)
(* ===================================================================== *)

Module FlightClaims.

Import Flights Aux CalendarFacts FlightFacts.

(** C9, as stated, fails: with no gate arrival yet, an estimated gate
    time is preferred to the actual runway time, where the order of the
    claim takes the actual one; and an actual runway time is preferred to
    a scheduled gate time, where the claim's other reading takes the
    scheduled one. *)
Lemma C9_estimated_gate_time_precedes_actual_runway_time :
  (pickFirstNonNull (arrivalCandidates taxiingFlight)
   = Some (js "2024-08-15T10:05:00Z")
   /\ pickFirstNonNull (specArrivalCandidates taxiingFlight)
      = Some (js "2024-08-15T09:50:00Z")
   /\ ts (toMatch ViewAux.serverRuntime taxiingFlight) = Some 1723716300000
   /\ p_estimatedArrival (mapFlightToStatus serverHost taxiingFlight)
      = Some (js "2024-08-15T10:05:00Z"))
  /\ (pickFirstNonNull (arrivalCandidates landedFlight)
      = Some (js "2024-08-15T09:50:00Z")
      /\ pickFirstNonNull (specArrivalCandidatesByVariant landedFlight)
         = Some (js "2024-08-15T10:00:00Z")).
Proof. by_computation. Qed.

(** C9 (amended): the best-known arrival of a record, for matching and
    in the payload alike, is the first timestamp that is there (neither
    missing nor empty) in the order actual_in, estimated_in, actual_on,
    estimated_on, scheduled_in, scheduled_on; its instant is that
    timestamp parsed, with no second try when it does not parse. *)
Theorem C9_arrival_preference env f :
  let best :=
    if defined (actual_in f) then actual_in f
    else if defined (estimated_in f) then estimated_in f
    else if defined (actual_on f) then actual_on f
    else if defined (estimated_on f) then estimated_on f
    else if defined (scheduled_in f) then scheduled_in f
    else if defined (scheduled_on f) then scheduled_on f
    else None in
  pickFirstNonNull (arrivalCandidates f) = best
  /\ ts (toMatch env f) = parseDate env best
  /\ key (toMatch env f) = isoStringToDateKey env best
  /\ p_estimatedArrival (mapFlightToStatus env f) = best.
Proof.
  cbv zeta.
  assert (H : pickFirstNonNull (arrivalCandidates f)
              = if defined (actual_in f) then actual_in f
                else if defined (estimated_in f) then estimated_in f
                else if defined (actual_on f) then actual_on f
                else if defined (estimated_on f) then estimated_on f
                else if defined (scheduled_in f) then scheduled_in f
                else if defined (scheduled_on f) then scheduled_on f
                else None).
  { unfold arrivalCandidates.
    destruct (actual_in f) as [[| ? ?] |]; cbn; try reflexivity;
      (destruct (estimated_in f) as [[| ? ?] |]; cbn; try reflexivity;
       (destruct (actual_on f) as [[| ? ?] |]; cbn; try reflexivity;
        (destruct (estimated_on f) as [[| ? ?] |]; cbn; try reflexivity;
         (destruct (scheduled_in f) as [[| ? ?] |]; cbn; try reflexivity;
          (destruct (scheduled_on f) as [[| ? ?] |]; reflexivity))))). }
  unfold toMatch, mapFlightToStatus.
  cbn [ts key p_estimatedArrival]. rewrite H. auto.
Qed.

(** The lookup scenario: of the records landing at 09:50Z and at 14:00Z
    the first is returned for 10:00Z, in whichever order they come. *)
Example lookup_scenario :
  queryFlightAwareStatus ViewAux.serverRuntime (Some scenarioProvider)
    (js "CI123") (Some scenarioDate)
  = Some (Some (mapFlightToStatus serverHost morningFlight))
  /\ queryFlightAwareStatus ViewAux.serverRuntime
       (Some (fun _ _ _ => Some [morningFlight; afternoonFlight]))
       (js "CI123") (Some scenarioDate)
     = Some (Some (mapFlightToStatus serverHost morningFlight)).
Proof. by_computation. Qed.

(** The lookup is rejected, with the [RangeError] of [toISOString], for
    a query less than eighteen hours from either end of the range of
    dates, and with the provider when its request fails. *)
Example lookup_rejected :
  queryFlightAwareStatus ViewAux.serverRuntime (Some scenarioProvider)
    (js "CI123") (Some maxTime) = None
  /\ queryFlightAwareStatus ViewAux.serverRuntime (Some (fun _ _ _ => None))
       (js "CI123") (Some scenarioDate) = None.
Proof. by_computation. Qed.

(** C10: for a query in the years 1980 to 9999, and a provider whose
    answer's arrivals are in those years, on a runtime whose date key
    names the day of [Asia/Taipei], the lookup returns the first record
    in the order of the provider's answer among those closest to the
    query instant, of the records that arrive in Taiwan on the query's
    day at +08:00: every such record before it in the answer is strictly
    farther from the query, every one after it is as far at least.  Such
    a record has a resolved arrival less than a day from the query, so
    that the distance given to an unresolved arrival, which no such
    record has, exceeds them all.  The lookup returns [null], and is not
    rejected, when the answer has no such record (no record at all, none
    with a destination on the allow list, or none on the query's day),
    as it does when no provider is configured. *)
Theorem C10_lookup_closest_same_date
    (env : Runtime) retrieve flightIdent eventDate flights :
  keyNamesTaipeiDay env ->
  modern eventDate ->
  retrieve flightIdent (eventDate - 64800000) (eventDate + 64800000)
  = Some flights ->
  (forall f t, In f flights -> arrivalOf env f = Some t -> modern t) ->
  let result :=
    queryFlightAwareStatus env (Some retrieve) flightIdent (Some eventDate) in
  let candidate := sameDayArrival env eventDate in
  ((forall f, In f flights -> ~ candidate f) -> result = Some None)
  /\ ((exists f, In f flights /\ candidate f) ->
      exists before best after,
        flights = before ++ best :: after
        /\ candidate best
        /\ result = Some (Some (mapFlightToStatus env best))
        /\ (forall g, In g before -> candidate g ->
              distance env eventDate best < distance env eventDate g)
        /\ (forall g, In g after -> candidate g ->
              distance env eventDate best <= distance env eventDate g))
  /\ (forall f, candidate f ->
        (exists t, arrivalOf env f = Some t
                   /\ distance env eventDate f = Z.abs (t - eventDate))
        /\ distance env eventDate f < msPerDay
        /\ diffOf eventDate (toMatch env f) = distance env eventDate f)
  /\ (forall g, arrivalOf env g = None ->
        ~ candidate g
        /\ diffOf eventDate (toMatch env g) = MAX_SAFE_INTEGER
        /\ forall f, candidate f ->
             distance env eventDate f < diffOf eventDate (toMatch env g))
  /\ queryFlightAwareStatus env None flightIdent (Some eventDate)
     = Some None.
Proof.
  intros K Me Hr Mf. cbv zeta.
  set (matches := sameDateMatches env flights eventDate).
  assert (Hres : queryFlightAwareStatus env (Some retrieve) flightIdent
                   (Some eventDate)
                 = match sortBy (byKey (diffOf eventDate)) matches with
                   | best :: _ =>
                       Some (Some (mapFlightToStatus env (flight best)))
                   | [] => Some None
                   end).
  { unfold queryFlightAwareStatus. cbn [getTime numAdd newDateNum].
    unfold TimeClip.
    replace (Z.abs (eventDate + - (18 * 60 * 60 * 1000)) <=? maxTime)
      with true
      by (symmetry; apply Z.leb_le; unfold modern, maxTime in *; lia).
    replace (Z.abs (eventDate + 18 * 60 * 60 * 1000) <=? maxTime)
      with true
      by (symmetry; apply Z.leb_le; unfold modern, maxTime in *; lia).
    replace (eventDate + - (18 * 60 * 60 * 1000))
      with (eventDate - 64800000) by lia.
    replace (eventDate + 18 * 60 * 60 * 1000)
      with (eventDate + 64800000) by lia.
    rewrite Hr. fold matches.
    rewrite sortBy_byDistance.
    destruct flights as [| f0 fl].
    - reflexivity.
    - destruct matches as [| m0 ml] eqn:Em; [reflexivity |].
      destruct (sortBy _ (m0 :: ml)) eqn:Es; [| reflexivity].
      apply sortBy_nil in Es. discriminate. }
  assert (Hm : matches
               = map (toMatch env)
                   (List.filter (survives env eventDate) flights))
    by apply sameDateMatches_map.
  assert (Hs : forall f, In f flights ->
                 (survives env eventDate f = true
                  <-> sameDayArrival env eventDate f)).
  { intros f Hf. apply survives_spec; [assumption | assumption |].
    intros t. apply Mf, Hf. }
  split; [| split; [| split; [| split]]].
  - intros Hno. rewrite Hres, Hm.
    replace (List.filter (survives env eventDate) flights)
      with (@nil FlightRecord); [reflexivity |].
    symmetry. destruct (List.filter _ flights) as [| f l] eqn:E;
      [reflexivity |].
    assert (Hin : In f (List.filter (survives env eventDate) flights))
      by (rewrite E; left; reflexivity).
    apply filter_In in Hin as [Hin S]. apply (Hs f Hin) in S.
    destruct (Hno f Hin S).
  - intros (f & Hf & Cf). rewrite Hres.
    destruct (sortBy _ matches) as [| best r] eqn:Es.
    { apply sortBy_nil in Es. rewrite Hm in Es.
      apply map_eq_nil in Es.
      assert (Hin : In f (List.filter (survives env eventDate) flights))
        by (apply filter_In; split; [exact Hf | apply Hs; assumption]).
      rewrite Es in Hin. destruct Hin. }
    apply sortBy_head in Es as (b & a & E & Hb & Ha).
    rewrite Hm in E.
    apply map_split in E as (fb & x & fa & E & <- & <- & <-).
    apply filter_split in E as (l1 & l2 & -> & <- & <- & Sx).
    assert (Cx : sameDayArrival env eventDate x).
    { apply Hs; [apply in_or_app; right; left; reflexivity | exact Sx]. }
    exists l1, x, l2. split; [reflexivity |]. split; [exact Cx |].
    split; [reflexivity |].
    destruct (diffOf_candidate env eventDate x Cx) as [Dx _].
    split.
    + intros g Hg Cg.
      destruct (diffOf_candidate env eventDate g Cg) as [Dg _].
      rewrite <- Dx, <- Dg. apply Hb, in_map, filter_In.
      split; [exact Hg |].
      apply Hs; [apply in_or_app; left; exact Hg | exact Cg].
    + intros g Hg Cg.
      destruct (diffOf_candidate env eventDate g Cg) as [Dg _].
      rewrite <- Dx, <- Dg. apply Ha, in_map, filter_In.
      split; [exact Hg |].
      apply Hs; [apply in_or_app; right; right; exact Hg | exact Cg].
  - intros f Cf. destruct (diffOf_candidate env eventDate f Cf) as [D L].
    split; [| auto].
    destruct Cf as (_ & t & Ht & _). exists t. split; [exact Ht |].
    unfold distance. rewrite Ht. reflexivity.
  - intros g Hg.
    assert (Dg : diffOf eventDate (toMatch env g) = MAX_SAFE_INTEGER).
    { unfold diffOf, toMatch. cbn [ts]. unfold arrivalOf in Hg.
      rewrite Hg. reflexivity. }
    split; [| split; [exact Dg |]].
    + intros (_ & t & Ht & _). congruence.
    + intros f Cf. destruct (diffOf_candidate env eventDate f Cf) as [_ L].
      rewrite Dg. unfold msPerDay, MAX_SAFE_INTEGER in *. lia.
  - reflexivity.
Qed.

Lemma C10_lookup_closest_same_date_witness :
  exists before best after,
    [afternoonFlight; morningFlight] = before ++ best :: after
    /\ sameDayArrival ViewAux.serverRuntime scenarioDate best
    /\ queryFlightAwareStatus ViewAux.serverRuntime (Some scenarioProvider)
         (js "CI123") (Some scenarioDate)
       = Some (Some (mapFlightToStatus ViewAux.serverRuntime best))
    /\ (forall g, In g before ->
          sameDayArrival ViewAux.serverRuntime scenarioDate g ->
          distance ViewAux.serverRuntime scenarioDate best
          < distance ViewAux.serverRuntime scenarioDate g)
    /\ (forall g, In g after ->
          sameDayArrival ViewAux.serverRuntime scenarioDate g ->
          distance ViewAux.serverRuntime scenarioDate best
          <= distance ViewAux.serverRuntime scenarioDate g).
Proof.
  refine (proj1 (proj2 (C10_lookup_closest_same_date ViewAux.serverRuntime
                          scenarioProvider (js "CI123") scenarioDate
                          [afternoonFlight; morningFlight]
                          taipeiKey_names_day _ _ _)) _).
  - unfold modern, scenarioDate. lia.
  - reflexivity.
  - intros f t [<- | [<- | []]] H; vm_compute in H;
      injection H as <-; unfold modern; lia.
  - exists morningFlight. split; [right; left; reflexivity |].
    split.
    + exists taoyuan. split; [reflexivity |]. left.
      exists (js "RCTP"). split; [reflexivity |].
      split; [discriminate |].
      vm_compute. repeat (first [left; reflexivity | right]).
    + exists 1723715400000. split; vm_compute; reflexivity.
Defined.

End FlightClaims.


(* ===================================================================== *)
(** ** Facts about the address lists *)
(* ===================================================================== *)

Module DetailFacts.

Import Detail Aux.

















End DetailFacts.

(* ===================================================================== *)
(** ** The matcher only finds matches *)
(* ===================================================================== *)

Module RegexFacts.

Import RegexSem.

(** Whatever the matcher hands to its continuation is the end of a
    match. *)
Lemma rmatch_sound {A : Type} (r : regex) :
  forall p s c (k : cont) (x : A),
    rmatch r p s c k = Some x ->
    exists p' s' c', Matches r p s c p' s' c' /\ k p' s' c' = Some x.
Proof.
  induction r as [|pr|r1 IH1 r2 IH2|r1 IH1 r2 IH2|g r IH|i r IH| | |];
    intros p s c k x H; cbn [rmatch] in H.
  - exists p, s, c. split; [constructor | exact H].
  - destruct s as [|ch s']; [discriminate|].
    destruct (pr ch) eqn:E; [|discriminate].
    exists (Some ch), s', c. split; [constructor; exact E | exact H].
  - apply IH1 in H as (p1 & s1 & c1 & M1 & H).
    apply IH2 in H as (p2 & s2 & c2 & M2 & H).
    exists p2, s2, c2. split; [econstructor; eassumption | exact H].
  - destruct (rmatch r1 p s c k) eqn:E.
    + injection H as ->. apply IH1 in E as (p' & s' & c' & M & E).
      exists p', s', c'. split; [apply MAltL; exact M | exact E].
    + apply IH2 in H as (p' & s' & c' & M & H).
      exists p', s', c'. split; [apply MAltR; exact M | exact H].
  - revert H. generalize (length s) as fuel. intros fuel. revert p s c x.
    induction fuel as [|fuel IHf]; intros p s c x H.
    + exists p, s, c. split; [apply MStarNil | exact H].
    + cbv zeta in H. destruct g.
      * match type of H with
        | match ?e with _ => _ end = _ => destruct e as [y|] eqn:E
        end.
        -- injection H as ->.
           apply IH in E as (p1 & s1 & c1 & M1 & E).
           destruct (length s1 <? length s)%nat eqn:L; [|discriminate].
           apply Nat.ltb_lt in L.
           apply IHf in E as (p2 & s2 & c2 & M2 & E).
           exists p2, s2, c2. split; [|exact E].
           eapply MStarCons; eassumption.
        -- exists p, s, c. split; [apply MStarNil | exact H].
      * destruct (k p s c) as [y|] eqn:E.
        -- injection H as ->. exists p, s, c.
           split; [apply MStarNil | exact E].
        -- apply IH in H as (p1 & s1 & c1 & M1 & H).
           destruct (length s1 <? length s)%nat eqn:L; [|discriminate].
           apply Nat.ltb_lt in L.
           apply IHf in H as (p2 & s2 & c2 & M2 & H).
           exists p2, s2, c2. split; [|exact H].
           eapply MStarCons; eassumption.
  - apply IH in H as (p' & s' & c' & M & H).
    exists p', s', ((i, firstn (length s - length s') s) :: c').
    split; [constructor; exact M | exact H].
  - destruct p; [discriminate|].
    exists None, s, c. split; [constructor | exact H].
  - destruct s; [|discriminate].
    exists p, [], c. split; [constructor | exact H].
  - destruct (xorb (isWordOpt p) (isWordOpt (head s))) eqn:E; [|discriminate].
    exists p, s, c. split; [constructor; exact E | exact H].
Qed.

Lemma firstn_consumed (m s' : jsstring) :
  firstn (length (m ++ s') - length s') (m ++ s') = m.
Proof.
  rewrite length_app.
  replace (length m + length s' - length s')%nat with (length m) by lia.
  rewrite firstn_app, Nat.sub_diag, firstn_all. cbn. apply app_nil_r.
Qed.

(** A match consumes a prefix of the input, which the pattern parses,
    and adds the captures of that parse. *)
Lemma Matches_Parse r p s c p' s' c' :
  Matches r p s c p' s' c' ->
  exists m nc, s = m ++ s' /\ c' = nc ++ c /\ Parse r m nc.
Proof.
  induction 1 as
    [p s c | pr p ch s c Hpr
    | r1 r2 p s c p1 s1 c1 p2 s2 c2 _ IH1 _ IH2
    | r1 r2 p s c p' s' c' _ IH | r1 r2 p s c p' s' c' _ IH
    | g r p s c | g r p s c p1 s1 c1 p2 s2 c2 _ IH1 _ _ IH2
    | i r p s c p' s' c' _ IH | s c | p c | p s c Hw].
  - exists [], []. repeat split. constructor.
  - exists [ch], []. repeat split. constructor. exact Hpr.
  - destruct IH1 as (m1 & n1 & -> & -> & P1).
    destruct IH2 as (m2 & n2 & -> & -> & P2).
    exists (m1 ++ m2), (n2 ++ n1). rewrite <- !app_assoc.
    repeat split. constructor; assumption.
  - destruct IH as (m & n & -> & -> & P). exists m, n.
    repeat split. apply PAltL, P.
  - destruct IH as (m & n & -> & -> & P). exists m, n.
    repeat split. apply PAltR, P.
  - exists [], []. repeat split. constructor.
  - destruct IH1 as (m1 & n1 & -> & -> & P1).
    destruct IH2 as (m2 & n2 & -> & -> & P2).
    exists (m1 ++ m2), (n2 ++ n1). rewrite <- !app_assoc.
    repeat split. constructor; assumption.
  - destruct IH as (m & n & -> & -> & P).
    exists m, ((i, m) :: n). rewrite firstn_consumed.
    repeat split. constructor. exact P.
  - exists [], []. repeat split. constructor.
  - exists [], []. repeat split. constructor.
  - exists [], []. repeat split. constructor.
Qed.

(** What a successful match at a position returns. *)
Lemma matchAt_sound r pre s m :
  matchAt r pre s = Some m ->
  exists p' text,
    Matches r (head pre) s [] p' (m_post m) (m_caps m)
    /\ s = text ++ m_post m /\ m_text m = text /\ m_pre m = pre
    /\ Parse r text (m_caps m).
Proof.
  unfold matchAt. intros H.
  apply rmatch_sound in H as (p' & s' & c' & M & [= <-]).
  cbn [m_post m_caps m_text m_pre].
  destruct (Matches_Parse _ _ _ _ _ _ _ M) as (text & nc & E & -> & P).
  exists p', text. rewrite app_nil_r in *. subst s.
  rewrite firstn_consumed. repeat split; assumption.
Qed.

(** What [exec] returns is a match at some position of the text. *)
Lemma searchFrom_sound r pre s m :
  searchFrom r pre s = Some m ->
  exists skipped rest,
    s = skipped ++ rest
    /\ matchAt r (rev skipped ++ pre) rest = Some m.
Proof.
  revert pre. induction s as [|x s IH]; intros pre; cbn [searchFrom].
  - destruct (matchAt r pre []) eqn:E; [|discriminate].
    intros [= ->]. exists [], []. split; [reflexivity | exact E].
  - destruct (matchAt r pre (x :: s)) eqn:E.
    + intros [= ->]. exists [], (x :: s). split; [reflexivity | exact E].
    + intros H. apply IH in H as (sk & rest & -> & H).
      exists (x :: sk), rest. split; [reflexivity|].
      cbn [rev]. rewrite <- app_assoc. exact H.
Qed.

Lemma exec_sound r s m :
  exec r s = Some m ->
  exists skipped text,
    s = skipped ++ text ++ m_post m
    /\ m_text m = text /\ Parse r text (m_caps m).
Proof.
  unfold exec. intros H.
  apply searchFrom_sound in H as (sk & rest & -> & H).
  apply matchAt_sound in H as (p' & text & _ & -> & T & _ & P).
  exists sk, text. repeat split; assumption.
Qed.

(** *** The texts of the usual sub-patterns *)

Lemma Parse_Rep n pr m c :
  Parse (Rep n (Class pr)) m c ->
  c = [] /\ length m = n /\ Forall (fun x => pr x = true) m.
Proof.
  revert m c. induction n as [|n IH]; intros m c H; cbn [Rep] in H.
  - inversion H; subst. repeat split. constructor.
  - inversion H as [| |? ? m1 c1 m2 c2 H1 H2| | | | | | | |]; subst.
    inversion H1; subst. apply IH in H2 as (-> & <- & F).
    repeat split. constructor; assumption.
Qed.

Lemma Parse_UpTo n pr m c :
  Parse (UpTo n (Class pr)) m c ->
  c = [] /\ (length m <= n)%nat /\ Forall (fun x => pr x = true) m.
Proof.
  revert m c. induction n as [|n IH]; intros m c H; cbn [UpTo] in H.
  - inversion H; subst. repeat split; [cbn; lia | constructor].
  - unfold Opt in H.
    inversion H as [| | |? ? ? ? H0|? ? ? ? H0| | | | | |]; subst.
    + inversion H0 as [| |? ? m1 c1 m2 c2 H1 H2| | | | | | | |]; subst.
      inversion H1; subst. apply IH in H2 as (-> & L & F).
      repeat split; [cbn; lia | constructor; assumption].
    + inversion H0; subst. repeat split; [cbn; lia | constructor].
Qed.

Lemma Parse_Range lo hi pr m c :
  Parse (Range lo hi (Class pr)) m c ->
  c = [] /\ (lo <= length m <= lo + (hi - lo))%nat
  /\ Forall (fun x => pr x = true) m.
Proof.
  unfold Range. intros H.
  inversion H as [| |? ? m1 c1 m2 c2 H1 H2| | | | | | | |]; subst.
  apply Parse_Rep in H1 as (-> & L1 & F1).
  apply Parse_UpTo in H2 as (-> & L2 & F2).
  rewrite length_app. repeat split; try lia.
  apply List.Forall_app. split; assumption.
Qed.

Lemma Parse_Star_Class g pr m c :
  Parse (Star g (Class pr)) m c ->
  c = [] /\ Forall (fun x => pr x = true) m.
Proof.
  remember (Star g (Class pr)) as r eqn:E. intros H.
  induction H as [| | | | | |g' r' m1 c1 m2 c2 H1 _ H2 IH2| | | |];
    try discriminate.
  - split; [reflexivity | constructor].
  - injection E as -> ->. inversion H1; subst.
    destruct (IH2 eq_refl) as (-> & F).
    split; [reflexivity | constructor; assumption].
Qed.

Lemma Parse_Lit l m c : Parse (Lit l) m c -> c = [] /\ m = l.
Proof.
  revert m c. induction l as [|x l IH]; intros m c H; cbn [Lit] in H.
  - inversion H; subst. split; reflexivity.
  - inversion H as [| |? ? m1 c1 m2 c2 H1 H2| | | | | | | |]; subst.
    unfold Chr in H1. inversion H1 as [|? ch E| | | | | | | | |]; subst.
    apply Z.eqb_eq in E. subst. apply IH in H2 as (-> & ->).
    split; reflexivity.
Qed.

Lemma Parse_Opt_Class pr m c :
  Parse (Opt (Class pr)) m c ->
  c = [] /\ (m = [] \/ exists ch, m = [ch] /\ pr ch = true).
Proof.
  unfold Opt. intros H.
  inversion H as [| | |? ? ? ? H0|? ? ? ? H0| | | | | |]; subst;
    inversion H0; subst; split; eauto.
Qed.

Lemma Parse_Seq r1 r2 m c :
  Parse (Seq r1 r2) m c ->
  exists m1 c1 m2 c2,
    m = m1 ++ m2 /\ c = c2 ++ c1 /\ Parse r1 m1 c1 /\ Parse r2 m2 c2.
Proof. intros H. inversion H; subst. eauto 10. Qed.

Lemma Parse_Alt r1 r2 m c :
  Parse (Alt r1 r2) m c -> Parse r1 m c \/ Parse r2 m c.
Proof. intros H. inversion H; subst; auto. Qed.

Lemma Parse_Group i r m c :
  Parse (Group i r) m c -> exists c0, c = (i, m) :: c0 /\ Parse r m c0.
Proof. intros H. inversion H; subst. eauto. Qed.

Lemma Parse_Class pr m c :
  Parse (Class pr) m c -> c = [] /\ exists ch, m = [ch] /\ pr ch = true.
Proof. intros H. inversion H; subst. eauto. Qed.

Lemma Parse_Chr x m c : Parse (Chr x) m c -> c = [] /\ m = [x].
Proof.
  intros H. apply Parse_Class in H as (-> & ch & -> & E).
  apply Z.eqb_eq in E. subst. auto.
Qed.

Lemma Parse_assertion r m c :
  r = WordB \/ r = Bol \/ r = Eol \/ r = Empty ->
  Parse r m c -> c = [] /\ m = [].
Proof. intros [-> | [-> | [-> | ->]]] H; inversion H; subst; auto. Qed.

(** Taking a parse apart, sub-pattern by sub-pattern. *)
Ltac inv_parse :=
  repeat match goal with
    | H : Parse (Lit _) _ _ |- _ => apply Parse_Lit in H as (-> & ->)
    | H : Parse (Chr _) _ _ |- _ => apply Parse_Chr in H as (-> & ->)
    | H : Parse (Rep _ (Class _)) _ _ |- _ =>
        apply Parse_Rep in H as (-> & ? & ?)
    | H : Parse (Range _ _ (Class _)) _ _ |- _ =>
        apply Parse_Range in H as (-> & ? & ?)
    | H : Parse (Opt (Class _)) _ _ |- _ =>
        apply Parse_Opt_Class in H as (-> & ?)
    | H : Parse (Opt (Chr _)) _ _ |- _ =>
        apply Parse_Opt_Class in H as (-> & ?)
    | H : Parse (Star _ (Class _)) _ _ |- _ =>
        apply Parse_Star_Class in H as (-> & ?)
    | H : Parse (Seq _ _) _ _ |- _ =>
        apply Parse_Seq in H as (? & ? & ? & ? & -> & -> & ? & ?)
    | H : Parse (Group _ _) _ _ |- _ =>
        apply Parse_Group in H as (? & -> & ?)
    | H : Parse (Alt _ _) _ _ |- _ => apply Parse_Alt in H as [H | H]
    | H : Parse (Class _) _ _ |- _ =>
        apply Parse_Class in H as (-> & ? & -> & ?)
    | H : Parse WordB _ _ |- _ =>
        apply Parse_assertion in H as (-> & ->); [|tauto]
    | H : Parse Bol _ _ |- _ =>
        apply Parse_assertion in H as (-> & ->); [|tauto]
    | H : Parse Eol _ _ |- _ =>
        apply Parse_assertion in H as (-> & ->); [|tauto]
    | H : Parse Empty _ _ |- _ =>
        apply Parse_assertion in H as (-> & ->); [|tauto]
    end.

End RegexFacts.

(* ===================================================================== *)
(** ** Telephone numbers of the detail view *)
(* ===================================================================== *)

Module PhoneFacts.

Import SmartLinks.

Lemma digit_not_space c : isDigit c = true -> isSpace c = false.
Proof.
  unfold isDigit, isSpace. intros H.
  apply andb_true_iff in H as [H1 H2].
  apply Z.leb_le in H1. apply Z.leb_le in H2.
  repeat match goal with
         | |- context [?a <=? ?b] => destruct (Z.leb_spec a b); try lia
         | |- context [?a =? ?b] => destruct (Z.eqb_spec a b); try lia
         end; reflexivity.
Qed.

Lemma space_not_digit c : isSpace c = true -> isDigit c = false.
Proof.
  intros H. destruct (isDigit c) eqn:E; [|reflexivity].
  apply digit_not_space in E. congruence.
Qed.

Lemma digits_trimStart s :
  List.filter isDigit (trimStart s) = List.filter isDigit s.
Proof.
  induction s as [|c s IH]; [reflexivity|]. cbn [trimStart].
  destruct (isSpace c) eqn:E; [|reflexivity].
  cbn [List.filter]. rewrite (space_not_digit _ E). exact IH.
Qed.

Lemma digits_trim s : List.filter isDigit (trim s) = List.filter isDigit s.
Proof.
  unfold trim, trimEnd.
  rewrite filter_rev, digits_trimStart, filter_rev, rev_involutive.
  apply digits_trimStart.
Qed.

Lemma trimStart_head c s : isSpace c = false -> trimStart (c :: s) = c :: s.
Proof. intros H. cbn. rewrite H. reflexivity. Qed.

(** A text that neither starts nor ends with white space is its own
    trimmed form. *)
Lemma trim_fixed s :
  Forall (fun c => isSpace c = false) s -> trim s = s.
Proof.
  intros H. unfold trim, trimEnd.
  assert (T : forall l, Forall (fun c => isSpace c = false) l ->
                        trimStart l = l).
  { intros l Hl. destruct Hl; [reflexivity|]. apply trimStart_head. assumption. }
  rewrite (T s H). rewrite T; [apply rev_involutive|].
  apply List.Forall_forall. intros x Hx. apply in_rev in Hx.
  rewrite List.Forall_forall in H. apply H, Hx.
Qed.

Lemma filter_all_digits s :
  Forall (fun c => isDigit c = true) (List.filter isDigit s).
Proof.
  apply List.Forall_forall. intros x Hx. apply filter_In in Hx. tauto.
Qed.

Lemma filter_digits_id ds :
  Forall (fun c => isDigit c = true) ds -> List.filter isDigit ds = ds.
Proof.
  intros H. apply forallb_filter_id. apply forallb_forall.
  rewrite List.Forall_forall in H. exact H.
Qed.

Lemma digits_no_space ds :
  Forall (fun c => isDigit c = true) ds ->
  Forall (fun c => isSpace c = false) ds.
Proof. apply List.Forall_impl. intros c. apply digit_not_space. Qed.

Lemma skipn_all_digits n ds :
  Forall (fun c => isDigit c = true) ds ->
  Forall (fun c => isDigit c = true) (skipn n ds).
Proof.
  intros H. apply List.Forall_forall. intros x Hx.
  rewrite List.Forall_forall in H. apply H.
  rewrite <- (firstn_skipn n ds). apply in_or_app. right. exact Hx.
Qed.

(** The three shapes of a normalized number, over the digits [D] of the
    text. *)
Lemma normalize_cases v n :
  normalizePhoneNumber v = Some n ->
  let D := List.filter isDigit v in
  D <> []
  /\ ((n = D /\ startsWith (js "+") (trim v) = false
       /\ startsWith (js "00") D && (2 <? length D)%nat = false
       /\ startsWith (js "886") D = false)
      \/ n = 43 :: D
      \/ (n = 43 :: skipn 2 D /\ firstn 2 D = [48; 48] /\ skipn 2 D <> [])).
Proof.
  unfold normalizePhoneNumber. cbv zeta. rewrite digits_trim.
  destruct (trim v) as [|t0 tr] eqn:T; [discriminate|].
  destruct (List.filter isDigit v) as [|d0 D] eqn:F; [discriminate|].
  destruct (startsWith (js "+") (t0 :: tr)) eqn:P.
  { intros [= <-]. split; [discriminate|]. right. left. reflexivity. }
  destruct (startsWith (js "00") (d0 :: D) && (2 <? length (d0 :: D))%nat)
    eqn:Z0.
  { intros [= <-]. split; [discriminate|]. right. right.
    apply andb_true_iff in Z0 as [Z1 Z2].
    unfold startsWith, jsstring_eqb in Z1. apply bool_decide_eq_true in Z1.
    apply Nat.ltb_lt in Z2.
    split; [reflexivity|]. split; [exact Z1|].
    destruct D as [|d1 [|d2 D]]; cbn in Z2; try lia. discriminate. }
  destruct (startsWith (js "886") (d0 :: D)) eqn:Z8.
  { intros [= <-]. split; [discriminate|]. right. left. reflexivity. }
  intros [= <-]. split; [discriminate|]. left. repeat split; assumption.
Qed.

Lemma normalize_none_iff v :
  normalizePhoneNumber v = None <-> List.filter isDigit v = [].
Proof.
  unfold normalizePhoneNumber. cbv zeta. rewrite digits_trim. split.
  - destruct (trim v) as [|t0 tr] eqn:T.
    + intros _. rewrite <- digits_trim, T. reflexivity.
    + destruct (List.filter isDigit v) as [|d0 D]; [reflexivity|].
      repeat match goal with
             | |- context [if ?b then _ else _] => destruct b
             end; discriminate.
  - intros ->. destruct (trim v); reflexivity.
Qed.

(** Normalizing loses at most two digits, the leading [00]. *)
Lemma normalize_keeps_digits v n :
  normalizePhoneNumber v = Some n ->
  (length (List.filter isDigit v) - 2
   <= length (List.filter isDigit n))%nat.
Proof.
  intros H. destruct (normalize_cases v n H) as (_ & Hc). cbv zeta in Hc.
  pose proof (filter_all_digits v) as HD.
  set (D := List.filter isDigit v) in *.
  destruct Hc as [(-> & _)|[->|(-> & _ & _)]].
  - rewrite (filter_digits_id D HD). lia.
  - cbn [List.filter]. change (isDigit 43) with false. cbv iota.
    rewrite (filter_digits_id D HD). lia.
  - cbn [List.filter]. change (isDigit 43) with false. cbv iota.
    rewrite (filter_digits_id _ (skipn_all_digits 2 D HD)).
    rewrite length_skipn. lia.
Qed.

End PhoneFacts.

Module PhoneProps.

Import SmartLinks PhoneFacts.

(** X19: [normalizePhoneNumber] answers [null] exactly for the texts that
    hold no digit. *)
Theorem phone_null_iff_no_digit (v : jsstring) :
  normalizePhoneNumber v = None <-> List.filter isDigit v = [].
Proof. apply normalize_none_iff. Qed.

(** X20: A normalized number is the digits of the text, in their order, with
    nothing else but a leading [+]: the digits alone, [+] before them, or
    [+] in the place of a leading [00]. *)
Theorem phone_normal_form (v n : jsstring) :
  normalizePhoneNumber v = Some n ->
  let D := List.filter isDigit v in
  D <> []
  /\ (n = D \/ n = 43 :: D
      \/ (n = 43 :: skipn 2 D /\ firstn 2 D = [48; 48] /\ skipn 2 D <> [])).
Proof.
  intros H. destruct (normalize_cases v n H) as (Hne & Hc).
  split; [exact Hne|]. destruct Hc as [(-> & _)|[->|Hc]]; auto.
Qed.

Lemma phone_normal_form_witness :
  normalizePhoneNumber (js "00886 912-345-678") = Some (js "+886912345678")
  /\ (let D := List.filter isDigit (js "00886 912-345-678") in
      D <> []
      /\ (js "+886912345678" = D \/ js "+886912345678" = 43 :: D
          \/ (js "+886912345678" = 43 :: skipn 2 D
              /\ firstn 2 D = [48; 48] /\ skipn 2 D <> []))).
Proof.
  split; [vm_compute; reflexivity|].
  apply (phone_normal_form (js "00886 912-345-678") (js "+886912345678")).
  vm_compute; reflexivity.
Defined.

(** X21: Normalizing a normalized number changes nothing. *)
Theorem phone_normalize_idempotent (v n : jsstring) :
  normalizePhoneNumber v = Some n ->
  normalizePhoneNumber n = Some n.
Proof.
  intros H. destruct (normalize_cases v n H) as (Hne & Hc). cbv zeta in *.
  pose proof (filter_all_digits v) as HD.
  set (D := List.filter isDigit v) in *.
  assert (Plus : forall ds, ds <> [] ->
            Forall (fun c => isDigit c = true) ds ->
            normalizePhoneNumber (43 :: ds) = Some (43 :: ds)).
  { intros ds Hds Hall. unfold normalizePhoneNumber. cbv zeta.
    rewrite trim_fixed
      by (constructor; [reflexivity | apply digits_no_space, Hall]).
    cbn [List.filter]. change (isDigit 43) with false. cbv iota.
    rewrite (filter_digits_id ds Hall).
    destruct ds as [|d ds]; [congruence|].
    reflexivity. }
  destruct Hc as [(-> & P & Z0 & Z8)|[->|(-> & _ & Hs)]].
  - unfold normalizePhoneNumber. cbv zeta.
    rewrite (trim_fixed D) by (apply digits_no_space, HD).
    rewrite (filter_digits_id D HD).
    destruct D as [|d0 D']; [congruence|].
    assert (P' : startsWith (js "+") (d0 :: D') = false).
    { unfold startsWith, jsstring_eqb. apply bool_decide_eq_false.
      cbn. intros [= E]. inversion HD as [|? ? Hd _]; subst.
      discriminate. }
    rewrite P', Z0, Z8. reflexivity.
  - apply Plus; assumption.
  - apply Plus; [assumption|]. apply skipn_all_digits, HD.
Qed.

Lemma phone_normalize_idempotent_witness :
  normalizePhoneNumber (js "(02) 2345-6789") = Some (js "0223456789")
  /\ normalizePhoneNumber (js "0223456789") = Some (js "0223456789").
Proof.
  split; [vm_compute; reflexivity|].
  apply (phone_normalize_idempotent (js "(02) 2345-6789")).
  vm_compute; reflexivity.
Defined.

End PhoneProps.

(* ===================================================================== *)
(** ** The lines of a description and the addresses they yield *)
(* ===================================================================== *)

Module LineFacts.

Import DateTime Detail DetailView Aux DetailFacts RegexFacts PhoneFacts.

(** *** The matcher on the texts of a line *)

Section Success.

Context {A : Type}.
Implicit Types (k : @cont A) (prev : option Z) (caps : captures).












End Success.


Lemma prevAfter_app prev x y :
  prevAfter prev (x ++ y) = prevAfter (prevAfter prev x) y.
Proof. revert prev. induction x; intros; cbn; auto. Qed.

(** *** The label and what follows it *)




(** *** A plain address *)






(** *** An address as the label of a link *)







(** *** The lines of a description *)





(** A line is checked by computation. *)
Lemma writtenLine_check l :
  truthy l && forallb (fun c => negb (c =? 10)) l = true -> writtenLine l.
Proof.
  intros H. apply andb_true_iff in H as [N F]. split.
  - destruct l; [discriminate | discriminate].
  - apply List.Forall_forall. intros c Hc.
    rewrite forallb_forall in F. specialize (F c Hc).
    apply negb_true_iff, Z.eqb_neq in F. exact F.
Qed.





End LineFacts.

(* ===================================================================== *)
(** ** Claims about the address lists *)
(* ===================================================================== *)

Module DetailClaims.

Import Detail Aux DetailFacts LineFacts.

(** The address of the two notations comes out once. *)
Example twice_written_once_listed :
  pickupAddresses twiceText = [js "市府路45號"]
  /\ labelledItems (js "上車地址") twiceText
     = [js "市府路45號"; js "市府路45號"].
Proof. by_computation. Qed.

(** The two address scenarios of the specification. *)
Example scenario_arrow_stop :
  reconcile (js "上車地址：A
下車地址：B
→忠孝東路1號")
  = MkStops [js "A"] [js "B"] [js "忠孝東路1號"].
Proof. by_computation. Qed.

Example scenario_link_label :
  pickupAddresses
    (js "上車地址：[市府路45號](https://www.google.com/maps/search/?api=1&query=x)")
  = [js "市府路45號"]
  /\ pickupAddresses linkOnlyText = [js "市府路45號"].
Proof. by_computation. Qed.









End DetailClaims.

(* ===================================================================== *)
(** ** What the normalizer does keep *)
(* ===================================================================== *)

Module TimeProps.

Import DateTime Aux CalendarFacts NormalizerFacts NormalizerProps.

(** X1: [parseModelDateTimeLocal] answers [null] or a valid date, never an
    Invalid Date: the instant of its answer is within the range of time
    values. *)
Theorem parse_null_or_valid env v d :
  parseModelDateTimeLocal env v = Some d ->
  exists t, d = Some t /\ Z.abs t <= maxTime.
Proof. apply parse_valid. Qed.

Lemma parse_null_or_valid_witness :
  exists t, Some 1723701600000 = Some t /\ Z.abs t <= maxTime.
Proof.
  apply (parse_null_or_valid browserHost (Some (js "2024-08-15 14:00"))
           (Some 1723701600000)).
  vm_compute; reflexivity.
Defined.

(** X4: Whenever both ends of the normalized times are valid dates, the end
    is strictly after the start, all-day or not. *)
Theorem valid_times_are_ordered env st en a x y :
  start (normalizeEventTimesFromText env st en a) = Some x ->
  endTime (normalizeEventTimesFromText env st en a) = Some y ->
  x < y.
Proof. apply ordered_when_valid. Qed.

Lemma valid_times_are_ordered_witness : 1723701600000 < 1723705200000.
Proof.
  apply (valid_times_are_ordered browserHost (Some (js "2024-08-15T14:00"))
           (Some (js "2024-08-15T13:00")) false);
    vm_compute; reflexivity.
Defined.

(** X5: A timed event whose parsed end is not after its parsed start ends
    one hour after the start. *)
Theorem late_end_becomes_start_plus_hour env st en s e :
  parseModelDateTimeLocal env st = Some (Some s) ->
  parseModelDateTimeLocal env en = Some (Some e) ->
  e <= s ->
  normalizeEventTimesFromText env st en false
  = MkTimes (Some s) (TimeClip (s + hourMs)) false.
Proof. apply end_forced_after_start. Qed.

Lemma late_end_becomes_start_plus_hour_witness :
  normalizeEventTimesFromText browserHost (Some (js "2024-08-15T14:00"))
    (Some (js "2024-08-15T13:00")) false
  = MkTimes (Some 1723701600000) (TimeClip (1723701600000 + hourMs)) false.
Proof.
  apply (late_end_becomes_start_plus_hour browserHost
           (Some (js "2024-08-15T14:00")) (Some (js "2024-08-15T13:00"))
           1723701600000 1723698000000);
    [vm_compute; reflexivity | vm_compute; reflexivity | lia].
Defined.

(** X6: With the start and the end both missing or empty, a timed event
    starts at the current instant and lasts one hour. *)
Theorem missing_times_default_to_now env st en :
  st = None \/ st = Some [] ->
  en = None \/ en = Some [] ->
  normalizeEventTimesFromText env st en false
  = MkTimes (Some (now env)) (TimeClip (now env + hourMs)) false.
Proof. apply absent_start_is_now. Qed.

Lemma missing_times_default_to_now_witness :
  normalizeEventTimesFromText browserHost None (Some []) false
  = MkTimes (Some (now browserHost)) (TimeClip (now browserHost + hourMs))
      false.
Proof.
  apply (missing_times_default_to_now browserHost None (Some []));
    [left | right]; reflexivity.
Defined.



(** X8: On one host the normalizer is idempotent: fed any renderings of its
    own valid output that parse back to the same two instants, it returns
    that output. *)
Theorem renormalizing_own_output env st en a sRaw eRaw s e :
  normalizeEventTimesFromText env st en a = MkTimes (Some s) (Some e) a ->
  parseModelDateTimeLocal env sRaw = Some (Some s) ->
  parseModelDateTimeLocal env eRaw = Some (Some e) ->
  normalizeEventTimesFromText env sRaw eRaw a = MkTimes (Some s) (Some e) a.
Proof. apply reapply_own_output. Qed.

Lemma renormalizing_own_output_witness :
  normalizeEventTimesFromText browserHost
    (Some (js "2025-11-30T00:00:00+08:00"))
    (Some (js "2025-12-01T00:00:00+08:00")) true
  = MkTimes (Some 1764432000000) (Some 1764518400000) true.
Proof.
  apply (renormalizing_own_output browserHost (Some (js "2025-11-30")) None
           true);
    vm_compute; reflexivity.
Defined.

(** X11: On one host, and for a description without a date and time of its
    own, the assistant's creation path and the webhook's store the same
    start, end and all-day flag. *)
Theorem creation_paths_agree_without_override env args :
  Server.transportOverride env (optStr (arg_description args)) = None ->
  timesOf (Client.createCalendarEvent env args)
  = timesOf (Server.createCalendarEvent env args).
Proof.
  intros H.
  unfold Client.createCalendarEvent, Server.createCalendarEvent, timesOf.
  cbv zeta. cbn [ev_startTime ev_endTime ev_allDay]. rewrite H.
  rewrite normalize_stages.
  destruct (optBool (arg_allDay args)).
  - rewrite finish_allDay. unfold Server.snapAllDay.
    cbn [start endTime allDay].
    fold (midnightOf env (midnightOf env (startOf env (arg_startTime args)))).
    rewrite midnightOf_idempotent. reflexivity.
  - reflexivity.
Qed.

Lemma creation_paths_agree_without_override_witness :
  timesOf (Client.createCalendarEvent serverHost billArgs)
  = timesOf (Server.createCalendarEvent serverHost billArgs).
Proof.
  apply (creation_paths_agree_without_override serverHost billArgs).
  vm_compute; reflexivity.
Defined.

End TimeProps.

(* ===================================================================== *)
(** ** The flight payload *)
(* ===================================================================== *)

Module FlightProps.

Import JsNumber Flights Aux FlightFacts.

(** X16: [pickFirstNonNull] returns a value exactly when it is the first of
    its arguments that is neither missing nor empty, and [null] exactly
    when there is none. *)
Theorem pickFirstNonNull_is_first_defined (values : list (option jsstring)) :
  (forall v,
      pickFirstNonNull values = Some v <->
      exists before after,
        values = before ++ Some v :: after
        /\ defined (Some v) = true
        /\ Forall (fun x => defined x = false) before)
  /\ (pickFirstNonNull values = None <->
      Forall (fun x => defined x = false) values).
Proof.
  split; [intros v; apply pickFirstNonNull_first
         | apply pickFirstNonNull_none].
Qed.

Lemma roundDiv_bounds n d :
  0 < d -> 2 * d * roundDiv n d <= 2 * n + d < 2 * d * roundDiv n d + 2 * d.
Proof.
  intros Hd. unfold roundDiv.
  pose proof (Z.div_mod (2 * n + d) (2 * d)) as E.
  pose proof (Z.mod_pos_bound (2 * n + d) (2 * d)) as B.
  lia.
Qed.

(** X17: A flight duration, when one is reported, is a positive number of
    minutes, and both times parse; when the two are no more than [2^53]
    milliseconds apart, as any two dates within 285,000 years are, it is
    within half a minute of the time from the departure to the arrival.
    None is reported when the arrival is less than half a minute after
    the departure. *)
Theorem duration_is_positive_and_rounded env depIso arrIso :
  (forall d,
      computeDurationMinutes env depIso arrIso = Some d ->
      exists dep arr,
        parseDate env depIso = Some dep /\ parseDate env arrIso = Some arr
        /\ 0 < d
        /\ (Z.abs (arr - dep) <= 2 ^ 53 ->
            arr - dep - 30000 < 60000 * d <= arr - dep + 30000))
  /\ (forall dep arr,
         parseDate env depIso = Some dep -> parseDate env arrIso = Some arr ->
         arr - dep < 30000 ->
         computeDurationMinutes env depIso arrIso = None).
Proof.
  assert (Neg : forall x, x <= 0 ->
            mathRound (quotient (ofInteger x) 60000) <= 0).
  { intros x Hx. apply NumberFacts.mathRound_quotient_nonpos; [lia |].
    apply Z.leb_le. rewrite NumberFacts.ofInteger_sign.
    apply Z.leb_le, Hx. }
  assert (Pos : forall x, 0 < x <= 2 ^ 53 ->
            mathRound (quotient (ofInteger x) 60000) = roundDiv x 60000).
  { intros x Hx. rewrite NumberFacts.ofInteger_exact by lia.
    apply NumberFacts.mathRound_quotient_minutes, Hx. }
  unfold computeDurationMinutes, minus. split.
  - intros d. destruct (parseDate env depIso) as [dep|]; [|discriminate].
    destruct (parseDate env arrIso) as [arr|]; [|discriminate].
    cbv zeta.
    destruct (0 <? mathRound (quotient (ofInteger (arr - dep)) 60000)) eqn:P;
      [|discriminate].
    intros [= <-]. exists dep, arr. apply Z.ltb_lt in P.
    split; [reflexivity|]. split; [reflexivity|]. split; [exact P|].
    intros B.
    destruct (Z_le_gt_dec (arr - dep) 0) as [N | G].
    + specialize (Neg _ N). lia.
    + rewrite Pos by lia.
      pose proof (roundDiv_bounds (arr - dep) 60000 ltac:(lia)). lia.
  - intros dep arr -> -> H. cbv zeta.
    destruct (0 <? mathRound (quotient (ofInteger (arr - dep)) 60000)) eqn:P;
      [|reflexivity].
    apply Z.ltb_lt in P.
    destruct (Z_le_gt_dec (arr - dep) 0) as [N | G].
    + specialize (Neg _ N). lia.
    + rewrite Pos in P
        by (change (2 ^ 53) with 9007199254740992; lia).
      pose proof (roundDiv_bounds (arr - dep) 60000 ltac:(lia)). lia.
Qed.

(** Beyond [2^53] milliseconds the difference itself is rounded: from
    the first instant a date can hold to one 522,000 years later, the
    duration reported is a minute more than the exact one. *)
Example duration_of_an_extreme_span :
  mathRound (quotient (minus 7852674416669999 (-8640000000000000)) 60000)
  = 274877906945
  /\ roundDiv (7852674416669999 - -8640000000000000) 60000 = 274877906944.
Proof. vm_compute. split; reflexivity. Qed.

Lemma duration_is_positive_and_rounded_witness :
  exists dep arr,
    parseDate serverHost (Some (js "2024-08-15T01:00:00Z")) = Some dep
    /\ parseDate serverHost (Some (js "2024-08-15T03:29:40Z")) = Some arr
    /\ 0 < 150
    /\ (Z.abs (arr - dep) <= 2 ^ 53 ->
        arr - dep - 30000 < 60000 * 150 <= arr - dep + 30000).
Proof.
  apply (proj1 (duration_is_positive_and_rounded serverHost
                  (Some (js "2024-08-15T01:00:00Z"))
                  (Some (js "2024-08-15T03:29:40Z"))) 150).
  vm_compute; reflexivity.
Defined.

End FlightProps.

(* ===================================================================== *)
(** ** The three lists of stops, filtered *)
(* ===================================================================== *)

Module StopProps.

Import Detail DetailFacts.




(** The block list of the mid stops is made of the two lists as they are
    shown, after their cap: a fourth pickup address, which the cap cuts
    from the pickup list, can be listed as a mid stop. *)
Example fourth_pickup_can_be_a_mid_stop :
  let description :=
    js "上車地址：中山路1號、民生路2號、信義路3號、忠孝路4號
→ 忠孝路4號" in
  pickupAddresses description
  = [js "中山路1號"; js "民生路2號"; js "信義路3號"]
  /\ midStops description = [js "忠孝路4號"].
Proof. by_computation. Qed.



End StopProps.

(* ===================================================================== *)
(** ** The mid-stop line of the detail view *)
(* ===================================================================== *)

Module MidLineFacts.

Import DateTime Detail SmartLinks DetailView ViewAux.

(** An anchored pattern matches at the start of the text or nowhere. *)
Lemma searchFrom_anchored r c pre s :
  searchFrom (Seq Bol r) (c :: pre) s = None.
Proof.
  revert c pre. induction s as [|x s IH]; intros c pre; cbn.
  - reflexivity.
  - apply IH.
Qed.

Lemma test_anchored r s :
  test (Seq Bol r) s
  = match matchAt (Seq Bol r) [] s with Some _ => true | None => false end.
Proof.
  unfold test, exec. destruct s as [|x s]; cbn [searchFrom].
  - destruct (matchAt _ _ _); reflexivity.
  - destruct (matchAt _ _ _); [reflexivity|].
    rewrite searchFrom_anchored. reflexivity.
Qed.

(** A line that starts with the label of the mid-stop line is one. *)
Lemma startsWith_midLabel l :
  startsWith midLabel l = true -> isMidLine l = true.
Proof.
  unfold startsWith, jsstring_eqb. intros H.
  apply bool_decide_eq_true in H.
  rewrite <- (firstn_skipn (length midLabel) l), H.
  generalize (skipn (length midLabel) l) as rest. intros rest.
  unfold isMidLine, reLabelLine. cbn [Seqs].
  rewrite test_anchored. vm_compute. reflexivity.
Qed.

Lemma midLabel_is_no_label_line :
  isPickupLine midLabel = false /\ isDropoffLine midLabel = false.
Proof. split; vm_compute; reflexivity. Qed.

Lemma existsb_none (p : jsstring -> bool) l :
  existsb p l = false <-> noLine p l.
Proof.
  induction l as [|x l IH]; cbn.
  - split; [constructor | reflexivity].
  - rewrite orb_false_iff, IH. split.
    + intros [? ?]. constructor; assumption.
    + intros H. inversion H; subst. split; assumption.
Qed.

Lemma findIndexFrom_found p i A x B :
  noLine p A -> p x = true ->
  findIndexFrom p i (A ++ x :: B) = i + Z.of_nat (length A).
Proof.
  intros HA Hx. revert i. induction HA as [|y A Hy _ IH]; intros i; cbn.
  - rewrite Hx. lia.
  - rewrite Hy, IH. lia.
Qed.

Lemma findIndexFrom_none p i l : noLine p l -> findIndexFrom p i l = -1.
Proof.
  intros H. revert i. induction H as [|y l Hy _ IH]; intros i; cbn.
  - reflexivity.
  - rewrite Hy. apply IH.
Qed.

(** What [findIndex] says about the list. *)
Lemma findIndex_spec p l :
  (findIndex p l = -1 /\ noLine p l)
  \/ exists A x B,
       l = A ++ x :: B /\ noLine p A /\ p x = true
       /\ findIndex p l = Z.of_nat (length A).
Proof.
  induction l as [|y l IH].
  - left. split; [reflexivity | constructor].
  - destruct (p y) eqn:E.
    + right. exists [], y, l. repeat split; [constructor | exact E |].
      unfold findIndex. cbn. rewrite E. reflexivity.
    + destruct IH as [[H N] | (A & x & B & -> & N & Hx & H)].
      * left. split; [|constructor; assumption].
        apply findIndexFrom_none. constructor; assumption.
      * right. exists (y :: A), x, B.
        assert (N' : noLine p (y :: A)) by (constructor; assumption).
        repeat split; try assumption.
        unfold findIndex.
        change (y :: A ++ x :: B) with ((y :: A) ++ x :: B).
        rewrite (findIndexFrom_found p 0 (y :: A) x B N' Hx). lia.
Qed.

(** Without a mid-stop line the scan finds none. *)
Lemma scanMidLines_none lines pIdx dIdx :
  noLine isMidLine lines -> scanMidLines lines pIdx dIdx = (-1, -1).
Proof.
  unfold scanMidLines. generalize (-1, -1) as st. generalize 0%nat as n.
  intros n st H. revert n st.
  induction H as [|l lines Hl _ IH]; intros n st; cbn; [reflexivity|].
  destruct st as [mp md]. rewrite Hl. apply IH.
Qed.

Lemma lineAt_after A x B :
  lineAt (A ++ x :: B) (Z.of_nat (length A) + 1) = head B.
Proof.
  unfold lineAt.
  replace (Z.to_nat (Z.of_nat (length A) + 1)) with (length A + 1)%nat by lia.
  rewrite nth_error_app2 by lia.
  replace (length A + 1 - length A)%nat with 1%nat by lia.
  destruct B; reflexivity.
Qed.

Lemma spliceIn_after A x B y :
  spliceIn (Z.of_nat (length A) + 1) y (A ++ x :: B) = A ++ x :: y :: B.
Proof.
  unfold spliceIn.
  replace (Z.to_nat (Z.of_nat (length A) + 1)) with (length (A ++ [x]))
    by (rewrite length_app; cbn; lia).
  change (A ++ x :: B) with (A ++ [x] ++ B). rewrite app_assoc.
  rewrite firstn_app, Nat.sub_diag, firstn_all. cbn [firstn].
  rewrite app_nil_r, skipn_app, Nat.sub_diag, skipn_all. cbn [skipn app].
  rewrite <- app_assoc. reflexivity.
Qed.

(** [ensureAfter] puts the label in unless the next line is a mid-stop
    line. *)
Lemma ensureAfter_inserts A x B :
  (forall l, head B = Some l -> isMidLine l = false) ->
  ensureAfter (A ++ x :: B) (Z.of_nat (length A))
  = (A ++ x :: midLabel :: B, Z.of_nat (length A) + 1).
Proof.
  intros HB. unfold ensureAfter.
  destruct (Z.eqb_spec (Z.of_nat (length A)) (-1)) as [E|_]; [lia|].
  rewrite lineAt_after, spliceIn_after.
  destruct B as [|[|c l] B]; cbn [head]; try reflexivity.
  specialize (HB (c :: l) eq_refl).
  destruct (startsWith midLabel (c :: l)) eqn:S; [|reflexivity].
  apply startsWith_midLabel in S. congruence.
Qed.

Lemma head_noLine p B l : noLine p B -> head B = Some l -> p l = false.
Proof. intros H E. destruct H; [discriminate|]. injection E as <-. assumption. Qed.

Lemma noLine_app p A B : noLine p (A ++ B) <-> noLine p A /\ noLine p B.
Proof. unfold noLine. apply List.Forall_app. Qed.

Lemma noLine_cons p x A : noLine p (x :: A) <-> p x = false /\ noLine p A.
Proof. unfold noLine. apply List.Forall_cons_iff. Qed.

Lemma split_at_two (A A' : list jsstring) x y B C :
  A ++ x :: B = A' ++ y :: C -> (length A < length A')%nat ->
  exists B1, A' = A ++ x :: B1 /\ B = B1 ++ y :: C.
Proof.
  revert A'. induction A as [|a A IH]; intros [|a' A'] E L; cbn in *;
    try lia.
  - injection E as <- ->. eauto.
  - injection E as <- E. apply IH in E as (B1 & -> & ->); [|lia]. eauto.
Qed.

Lemma setAt_at A y B x :
  setAt (Z.of_nat (length A)) x (A ++ y :: B) = A ++ x :: B.
Proof.
  unfold setAt. rewrite length_app. cbn [length].
  destruct (Z.ltb_spec (Z.of_nat (length A))
              (Z.of_nat (length A + S (length B)))) as [_|L]; [|lia].
  rewrite Nat2Z.id.
  rewrite firstn_app, Nat.sub_diag, firstn_all. cbn [firstn].
  rewrite app_nil_r.
  change (A ++ y :: B) with (A ++ [y] ++ B). rewrite app_assoc.
  replace (S (length A)) with (length (A ++ [y]))
    by (rewrite length_app; cbn; lia).
  rewrite skipn_app, Nat.sub_diag, skipn_all. reflexivity.
Qed.

Lemma insertAfterFirst_found p x A y B :
  noLine p A -> p y = true ->
  insertAfterFirst p x (A ++ y :: B) = A ++ y :: x :: B.
Proof.
  intros HA Hy. induction HA as [|z A Hz _ IH]; cbn.
  - rewrite Hy. reflexivity.
  - rewrite Hz, IH. reflexivity.
Qed.

Lemma insertAfterFirst_none p x l : noLine p l -> insertAfterFirst p x l = l.
Proof.
  intros H. induction H as [|z l Hz _ IH]; cbn; [reflexivity|].
  rewrite Hz, IH. reflexivity.
Qed.

Ltac at_index A :=
  match goal with
  | |- context [setAt ?i _ _] =>
      replace i with (Z.of_nat (length A))
        by (rewrite ?length_app; cbn [length]; lia)
  | |- context [ensureAfter _ ?i] =>
      replace i with (Z.of_nat (length A))
        by (rewrite ?length_app; cbn [length]; lia)
  end.

Lemma index_found (n : nat) : (Z.of_nat n =? -1) = false.
Proof. apply Z.eqb_neq. lia. Qed.

Lemma index_after (n : nat) : (Z.of_nat n + 1 =? -1) = false.
Proof. apply Z.eqb_neq. lia. Qed.

Ltac crunch :=
  repeat (cbv beta iota zeta;
          change (-1 =? -1) with true;
          rewrite ?index_found, ?index_after;
          cbn [negb andb orb]).

(** No pickup line, no drop-off line: the mid-stop line comes last. *)
Lemma placeMidLine_no_label lines t :
  noLine isMidLine lines -> noLine isPickupLine lines ->
  noLine isDropoffLine lines ->
  placeMidLine lines t = lines ++ [t].
Proof.
  intros HM HP HD. unfold placeMidLine, findIndex.
  rewrite (findIndexFrom_none _ 0 _ HP), (findIndexFrom_none _ 0 _ HD).
  rewrite (scanMidLines_none _ _ _ HM).
  crunch.
  change (lines ++ [midLabel]) with (lines ++ midLabel :: []).
  rewrite setAt_at. reflexivity.
Qed.

(** A pickup line and no drop-off line: the mid-stop line follows the
    pickup line. *)
Lemma placeMidLine_pickup_only A p B t :
  noLine isMidLine (A ++ p :: B) -> noLine isPickupLine A ->
  isPickupLine p = true -> noLine isDropoffLine (A ++ p :: B) ->
  placeMidLine (A ++ p :: B) t = A ++ p :: t :: B.
Proof.
  intros HM HP Hp HD. unfold placeMidLine, findIndex.
  rewrite (findIndexFrom_found _ 0 A p B HP Hp), (findIndexFrom_none _ 0 _ HD).
  rewrite (scanMidLines_none _ _ _ HM). rewrite Z.add_0_l.
  apply noLine_app in HM as [_ HM]. apply noLine_cons in HM as [_ HM].
  crunch. rewrite ensureAfter_inserts by (intros l; apply head_noLine, HM).
  crunch.
  change (A ++ p :: midLabel :: B) with (A ++ [p] ++ midLabel :: B).
  rewrite app_assoc. at_index (A ++ [p]).
  rewrite setAt_at, <- app_assoc. reflexivity.
Qed.

(** A drop-off line and no pickup line: the mid-stop line follows the
    drop-off line. *)
Lemma placeMidLine_dropoff_only A d C t :
  noLine isMidLine (A ++ d :: C) -> noLine isDropoffLine A ->
  isDropoffLine d = true -> noLine isPickupLine (A ++ d :: C) ->
  placeMidLine (A ++ d :: C) t = A ++ d :: t :: C.
Proof.
  intros HM HD Hd HP. unfold placeMidLine, findIndex.
  rewrite (findIndexFrom_found _ 0 A d C HD Hd), (findIndexFrom_none _ 0 _ HP).
  rewrite (scanMidLines_none _ _ _ HM). rewrite Z.add_0_l.
  apply noLine_app in HM as [_ HM]. apply noLine_cons in HM as [_ HM].
  crunch. rewrite ensureAfter_inserts by (intros l; apply head_noLine, HM).
  crunch.
  change (A ++ d :: midLabel :: C) with (A ++ [d] ++ midLabel :: C).
  rewrite app_assoc. at_index (A ++ [d]).
  rewrite setAt_at, <- app_assoc. reflexivity.
Qed.

Lemma regroup (A : list jsstring) x B y C :
  A ++ x :: B ++ y :: C = (A ++ x :: B) ++ y :: C.
Proof. rewrite <- app_assoc. reflexivity. Qed.

(** The pickup line before the drop-off line: the mid-stop line follows
    each of them. *)
Lemma placeMidLine_pickup_first A p B d C t :
  noLine isMidLine (A ++ p :: B ++ d :: C) -> noLine isPickupLine A ->
  isPickupLine p = true -> noLine isDropoffLine (A ++ p :: B) ->
  isDropoffLine d = true ->
  placeMidLine (A ++ p :: B ++ d :: C) t = A ++ p :: t :: B ++ d :: t :: C.
Proof.
  intros HM HP Hp HD Hd. unfold placeMidLine, findIndex.
  rewrite (findIndexFrom_found _ 0 A p (B ++ d :: C) HP Hp).
  assert (E : findIndexFrom isDropoffLine 0 (A ++ p :: B ++ d :: C)
              = Z.of_nat (length (A ++ p :: B))).
  { rewrite regroup, (findIndexFrom_found _ 0 _ d C HD Hd). lia. }
  rewrite E. clear E.
  rewrite (scanMidLines_none _ _ _ HM). rewrite !Z.add_0_l.
  apply noLine_app in HM as [_ HM]. apply noLine_cons in HM as [_ HM].
  pose proof HM as HM'. apply noLine_app in HM' as [_ HC].
  apply noLine_cons in HC as [_ HC].
  crunch. rewrite ensureAfter_inserts by (intros l; apply head_noLine, HM).
  crunch.
  assert (L : (Z.of_nat (length A) + 1 <=? Z.of_nat (length (A ++ p :: B)))
              = true).
  { apply Z.leb_le. rewrite length_app. cbn [length]. lia. }
  rewrite L. crunch.
  assert (HD' : noLine isDropoffLine (A ++ p :: midLabel :: B)).
  { apply noLine_app in HD as [HA HB]. apply noLine_cons in HB as [Hp' HB].
    apply noLine_app. split; [exact HA|].
    apply noLine_cons. split; [exact Hp'|].
    apply noLine_cons. split; [apply midLabel_is_no_label_line | exact HB]. }
  change (A ++ p :: midLabel :: B ++ d :: C)
    with (A ++ p :: (midLabel :: B) ++ d :: C).
  rewrite (regroup A p (midLabel :: B) d C).
  rewrite (findIndexFrom_found _ 0 _ d C HD' Hd). rewrite Z.add_0_l.
  crunch. rewrite ensureAfter_inserts by (intros l; apply head_noLine, HC).
  crunch.
  rewrite <- (regroup A p (midLabel :: B) d (midLabel :: C)).
  change (A ++ p :: (midLabel :: B) ++ d :: midLabel :: C)
    with (A ++ [p] ++ midLabel :: (B ++ d :: midLabel :: C)).
  rewrite app_assoc. at_index (A ++ [p]). rewrite setAt_at.
  rewrite <- app_assoc.
  change (A ++ [p] ++ t :: B ++ d :: midLabel :: C)
    with (A ++ p :: (t :: B) ++ d :: [midLabel] ++ C).
  rewrite (regroup A p (t :: B) d ([midLabel] ++ C)).
  change ((A ++ p :: t :: B) ++ d :: [midLabel] ++ C)
    with ((A ++ p :: t :: B) ++ [d] ++ midLabel :: C).
  rewrite app_assoc. at_index ((A ++ p :: t :: B) ++ [d]).
  rewrite setAt_at. rewrite <- !app_assoc. reflexivity.
Qed.

(** The drop-off line before the pickup line: the mid-stop line follows
    the drop-off line and takes the place of the pickup line, which is
    followed by the bare label. *)
Lemma placeMidLine_dropoff_first A d B p C t :
  noLine isMidLine (A ++ d :: B ++ p :: C) -> noLine isDropoffLine A ->
  isDropoffLine d = true -> noLine isPickupLine (A ++ d :: B) ->
  isPickupLine p = true ->
  placeMidLine (A ++ d :: B ++ p :: C) t
  = A ++ d :: t :: B ++ t :: midLabel :: C.
Proof.
  intros HM HD Hd HP Hp. unfold placeMidLine, findIndex.
  rewrite (findIndexFrom_found _ 0 A d (B ++ p :: C) HD Hd).
  assert (E : findIndexFrom isPickupLine 0 (A ++ d :: B ++ p :: C)
              = Z.of_nat (length (A ++ d :: B))).
  { rewrite regroup, (findIndexFrom_found _ 0 _ p C HP Hp). lia. }
  rewrite E. clear E.
  rewrite (scanMidLines_none _ _ _ HM). rewrite !Z.add_0_l.
  apply noLine_app in HM as [_ HM]. apply noLine_cons in HM as [_ HM].
  pose proof HM as HM'. apply noLine_app in HM' as [_ HC].
  apply noLine_cons in HC as [Hpm HC].
  crunch. rewrite (regroup A d B p C).
  rewrite ensureAfter_inserts by (intros l; apply head_noLine, HC).
  crunch.
  assert (L : (Z.of_nat (length (A ++ d :: B)) + 1 <=? Z.of_nat (length A))
              = false).
  { apply Z.leb_gt. rewrite length_app. cbn [length]. lia. }
  rewrite L. crunch.
  rewrite <- (regroup A d B p (midLabel :: C)).
  rewrite ensureAfter_inserts.
  2:{ intros l E. destruct B as [|b B]; cbn in E; injection E as <-.
      - exact Hpm.
      - apply noLine_cons in HM as [Hb _]. exact Hb. }
  crunch.
  change (A ++ d :: midLabel :: B ++ p :: midLabel :: C)
    with (A ++ d :: (midLabel :: B) ++ p :: midLabel :: C).
  rewrite (regroup A d (midLabel :: B) p (midLabel :: C)).
  at_index (A ++ d :: midLabel :: B). rewrite setAt_at.
  rewrite <- (regroup A d (midLabel :: B) t (midLabel :: C)).
  change (A ++ d :: (midLabel :: B) ++ t :: midLabel :: C)
    with (A ++ [d] ++ midLabel :: (B ++ t :: midLabel :: C)).
  rewrite app_assoc. at_index (A ++ [d]). rewrite setAt_at.
  rewrite <- app_assoc. reflexivity.
Qed.

End MidLineFacts.

Module MidLineProps.

Import DateTime Detail SmartLinks DetailView ViewAux MidLineFacts.

Lemma existsb_found (p : jsstring -> bool) A x B :
  p x = true -> existsb p (A ++ x :: B) = true.
Proof.
  intros H. apply existsb_exists. exists x. split; [|exact H].
  apply in_or_app. right. left. reflexivity.
Qed.

(** The mid-stop line is neither a pickup line nor a drop-off line. *)
Lemma midText_is_no_label_line stops :
  isPickupLine (midTextOf stops) = false
  /\ isDropoffLine (midTextOf stops) = false.
Proof.
  assert (G : forall rest,
             isPickupLine (midLabel ++ rest) = false
             /\ isDropoffLine (midLabel ++ rest) = false).
  { intros rest. unfold isPickupLine, isDropoffLine, reLabelLine.
    cbn [Seqs]. rewrite !test_anchored. split; vm_compute; reflexivity. }
  unfold midTextOf. destruct stops as [|s stops].
  - rewrite <- (app_nil_r midLabel). apply G.
  - apply G.
Qed.

(** X24: When no drop-off line comes before the first pickup line, and no line
    is a mid-stop line already, [descriptionWithMidStops] keeps every
    line of the description in its place and adds the mid-stop line after
    the first pickup line and after the first drop-off line, or at the
    end when there is neither. *)
Theorem mid_line_follows_the_labels (description : jsstring) :
  let lines := descriptionLines description in
  existsb isMidLine lines = false ->
  findIndex isPickupLine lines = -1
  \/ findIndex isDropoffLine lines = -1
  \/ findIndex isPickupLine lines < findIndex isDropoffLine lines ->
  descriptionWithMidStops description
  = joinWith [10] (withMidLine (midTextOf (midStops description)) lines).
Proof.
  cbv zeta. intros HM Hord. unfold descriptionWithMidStops. cbv zeta.
  rewrite HM. f_equal. apply existsb_none in HM.
  destruct (midText_is_no_label_line (midStops description)) as [Tp Td].
  set (t := midTextOf (midStops description)) in *.
  set (lines := descriptionLines description) in *.
  unfold withMidLine.
  destruct (findIndex_spec isPickupLine lines)
    as [[Ep Np] | (A & p & B & El & NA & Hp & Ep)];
    destruct (findIndex_spec isDropoffLine lines)
      as [[Ed Nd] | (A' & d & C & El' & NA' & Hd & Ed)].
  - rewrite placeMidLine_no_label by assumption.
    apply existsb_none in Np, Nd. rewrite Np, Nd. reflexivity.
  - rewrite El' in *. rewrite (existsb_found isDropoffLine A' d C Hd).
    rewrite orb_true_r.
    rewrite placeMidLine_dropoff_only by assumption.
    rewrite (insertAfterFirst_none isPickupLine) by assumption.
    rewrite insertAfterFirst_found by assumption. reflexivity.
  - rewrite El in *. rewrite (existsb_found isPickupLine A p B Hp).
    rewrite orb_true_l.
    rewrite placeMidLine_pickup_only by assumption.
    rewrite insertAfterFirst_found by assumption.
    symmetry. apply insertAfterFirst_none.
    apply noLine_app in Nd as [NdA NdB]. apply noLine_cons in NdB as [? ?].
    apply noLine_app. split; [assumption|].
    repeat (apply noLine_cons; split; try assumption).
  - assert (L : (length A < length A')%nat) by lia.
    rewrite El in El'.
    destruct (split_at_two A A' p d B C El' L) as (B1 & -> & ->).
    rewrite El in *. clear El El'.
    rewrite (existsb_found isPickupLine A p _ Hp). rewrite orb_true_l.
    rewrite placeMidLine_pickup_first by assumption.
    rewrite insertAfterFirst_found by assumption.
    change (A ++ p :: t :: B1 ++ d :: C)
      with (A ++ p :: (t :: B1) ++ d :: C).
    rewrite (regroup A p (t :: B1) d C).
    rewrite insertAfterFirst_found; [rewrite <- regroup; reflexivity | | exact Hd].
    apply noLine_app in NA' as [NdA NdB]. apply noLine_cons in NdB as [? ?].
    apply noLine_app. split; [assumption|].
    repeat (apply noLine_cons; split; try assumption).
Qed.

Lemma mid_line_follows_the_labels_witness :
  descriptionWithMidStops pickupFirstText
  = joinWith [10]
      (withMidLine (midTextOf (midStops pickupFirstText))
         (descriptionLines pickupFirstText)).
Proof.
  apply (mid_line_follows_the_labels pickupFirstText).
  - vm_compute; reflexivity.
  - right. right. vm_compute; reflexivity.
Defined.

(** X25: When the first drop-off line comes before the first pickup line, the
    mid-stop line is put after the drop-off line and in the place of the
    pickup line, which is lost; the bare label follows it. *)
Theorem pickup_line_after_dropoff_is_overwritten
    (description : jsstring) (A : list jsstring) (d : jsstring)
    (B : list jsstring) (p : jsstring) (C : list jsstring) :
  descriptionLines description = A ++ d :: B ++ p :: C ->
  existsb isMidLine (descriptionLines description) = false ->
  noLine isDropoffLine A -> isDropoffLine d = true ->
  noLine isPickupLine (A ++ d :: B) -> isPickupLine p = true ->
  descriptionWithMidStops description
  = joinWith [10]
      (A ++ d :: midTextOf (midStops description)
         :: B ++ midTextOf (midStops description) :: midLabel :: C).
Proof.
  intros El HM HD Hd HP Hp. unfold descriptionWithMidStops. cbv zeta.
  rewrite HM. f_equal. apply existsb_none in HM. rewrite El in *.
  apply placeMidLine_dropoff_first; assumption.
Qed.

Example dropoff_first_scenario :
  descriptionWithMidStops dropoffFirstText
  = js "下車地址：台北車站
中途停靠：
聯絡人：王先生
中途停靠：
中途停靠：
備註：無".
Proof. vm_compute. reflexivity. Qed.

Lemma pickup_line_after_dropoff_is_overwritten_witness :
  descriptionWithMidStops dropoffFirstText
  = joinWith [10]
      ([] ++ js "下車地址：台北車站"
          :: midTextOf (midStops dropoffFirstText)
          :: [js "聯絡人：王先生"]
          ++ midTextOf (midStops dropoffFirstText) :: midLabel
          :: [js "備註：無"]).
Proof.
  apply (pickup_line_after_dropoff_is_overwritten dropoffFirstText []
           (js "下車地址：台北車站") [js "聯絡人：王先生"]
           (js "上車地址：市府路45號") [js "備註：無"]).
  - vm_compute; reflexivity.
  - vm_compute; reflexivity.
  - constructor.
  - vm_compute; reflexivity.
  - repeat constructor.
  - vm_compute; reflexivity.
Defined.

End MidLineProps.

(* ===================================================================== *)
(** ** What the patterns of the detail view find *)
(* ===================================================================== *)

Module PatternProps.

Import RegexSem RegexFacts SmartLinks DetailView PhoneFacts.

(** X23: The flight number [flightInfo] reads is two ASCII letters of the
    title or the description, in upper case, and the two to four digits
    that follow them there, directly or after one space or hyphen. *)
Theorem flight_number_shape (title description f : jsstring) :
  flightNo (flightInfo title description) = Some f ->
  exists before letters sep digits after,
    title ++ [10] ++ description
    = before ++ letters ++ sep ++ digits ++ after
    /\ f = toUpperCase letters ++ digits
    /\ length letters = 2%nat
    /\ Forall (fun c => inRange 65 90 c = true) (toUpperCase letters)
    /\ (sep = [] \/ sep = [32] \/ sep = [45])
    /\ (2 <= length digits <= 4)%nat
    /\ Forall (fun c => isDigit c = true) digits.
Proof.
  unfold flightInfo. cbv zeta. cbn [flightNo].
  destruct (exec reFlightNo (title ++ [10] ++ description)) as [m|] eqn:E;
    [|discriminate].
  intros [= <-].
  apply exec_sound in E as (before & text & E & _ & P).
  destruct m as [mpre mtext mcaps mpost]. cbn [m_post m_caps] in *.
  unfold reFlightNo, Digit in P. cbn [Seqs] in P. inv_parse.
  match goal with
  | Hl : length ?l = 2%nat, Hd : (2 <= length ?d <= _)%nat,
    Hs : ?s = [] \/ _ |- _ =>
      exists before, l, s, d, mpost
  end.
  unfold groupOr, group. cbn [m_caps cap app Nat.eqb].
  repeat split; try assumption; try lia.
  - cbn [app] in E |- *. rewrite E, ?app_nil_r, <- ?app_assoc.
    reflexivity.
  - unfold toUpperCase. apply List.Forall_map. assumption.
  - match goal with
    | Hs : _ \/ _ |- _ => destruct Hs as [-> | (x & -> & Hx)]
    end; [left; reflexivity | right].
    change (js " -") with [32; 45] in Hx. unfold oneOf in Hx.
    cbn [existsb] in Hx.
    rewrite orb_false_r in Hx. apply orb_true_iff in Hx as [Hx | Hx];
      apply Z.eqb_eq in Hx; subst; [left | right]; reflexivity.
Qed.

Lemma flight_number_shape_witness :
  exists before letters sep digits after,
    js "接機 ci-123" ++ [10] ++ js "桃園機場"
    = before ++ letters ++ sep ++ digits ++ after
    /\ js "CI123" = toUpperCase letters ++ digits
    /\ length letters = 2%nat
    /\ Forall (fun c => inRange 65 90 c = true) (toUpperCase letters)
    /\ (sep = [] \/ sep = [32] \/ sep = [45])
    /\ (2 <= length digits <= 4)%nat
    /\ Forall (fun c => isDigit c = true) digits.
Proof.
  apply (flight_number_shape (js "接機 ci-123") (js "桃園機場") (js "CI123")).
  vm_compute; reflexivity.
Defined.

(** Counting the digits of a parsed text. *)
Ltac count_digits :=
  rewrite ?List.filter_app, ?length_app;
  repeat match goal with
    | H : Forall (fun x => isDigit x = true) ?m
      |- context [List.filter isDigit ?m] =>
        rewrite (filter_digits_id m H)
    | H : isDigit ?c = true |- context [List.filter isDigit [?c]] =>
        replace (List.filter isDigit [c]) with [c]
          by (cbn [List.filter]; rewrite H; reflexivity)
    | |- context [List.filter isDigit (js ?s)] =>
        let v := eval vm_compute in (List.filter isDigit (js s)) in
        change (List.filter isDigit (js s)) with v
    | |- context [List.filter isDigit []] =>
        change (List.filter isDigit (@nil Z)) with (@nil Z)
    | |- context [List.filter isDigit [Z.pos ?c]] =>
        let v := eval vm_compute in (List.filter isDigit [Z.pos c]) in
        change (List.filter isDigit [Z.pos c]) with v
    end;
  cbn [length].

Lemma phone_match_has_eight_digits text caps :
  Parse phoneRegex text caps ->
  (8 <= length (List.filter isDigit text))%nat.
Proof.
  unfold phoneRegex, reDashOrSpace, Digit. cbn [Alts Seqs]. intros P.
  inv_parse;
    repeat match goal with
      | H : (_ =? _) = true |- _ => apply Z.eqb_eq in H; subst
      end;
    count_digits; lia.
Qed.

(** X22: Every number the pattern of running text finds is linked: it has
    eight digits at least, so that its normalized form is never short of
    the six digits a link needs. *)
Theorem every_phone_match_is_linked (pre s : jsstring) (m : mresult) :
  matchAt phoneRegex pre s = Some m ->
  (8 <= length (List.filter isDigit (m_text m)))%nat
  /\ exists normalized,
       normalizePhoneNumber (m_text m) = Some normalized
       /\ inlinePhoneHref (m_text m) = Some (js "tel:" ++ normalized).
Proof.
  intros H. apply matchAt_sound in H as (_ & text & _ & _ & T & _ & P).
  apply phone_match_has_eight_digits in P. rewrite <- T in P.
  split; [exact P|].
  unfold inlinePhoneHref.
  destruct (normalizePhoneNumber (m_text m)) as [n|] eqn:N.
  - exists n. split; [reflexivity|].
    apply normalize_keeps_digits in N.
    destruct (Nat.leb_spec 6 (length (List.filter isDigit n))); [reflexivity|].
    lia.
  - apply normalize_none_iff in N. rewrite N in P. cbn in P. lia.
Qed.

Lemma every_phone_match_is_linked_witness :
  (8 <= length (List.filter isDigit (js "0912-345-678")))%nat
  /\ exists normalized,
       normalizePhoneNumber (js "0912-345-678") = Some normalized
       /\ inlinePhoneHref (js "0912-345-678")
          = Some (js "tel:" ++ normalized).
Proof.
  apply (every_phone_match_is_linked (rev (js "電話 ")) (js "0912-345-678 謝謝")
           (MResult (rev (js "電話 ")) (js "0912-345-678")
              [(1%nat, js "0912-345-678")] (js " 謝謝"))).
  vm_compute; reflexivity.
Defined.

End PatternProps.

(* ===================================================================== *)
(** ** Zone-less local times are read at +08:00 *)
(* ===================================================================== *)

Module LocalTimeFacts.

Import DateTime Aux CalendarFacts NormalizerFacts.

(** What the patterns of the parser see of a digit. *)
Lemma digit_seen c :
  isDigit c = true ->
  (84 =? c) = false /\ negb (isLineTerminator c) = true
  /\ oneOf (js "Z+-") c = false /\ (58 =? c) = false /\ (45 =? c) = false
  /\ oneOf (js " T") c = false.
Proof.
  unfold isDigit. intros H. apply andb_true_iff in H as [H1 H2].
  apply Z.leb_le in H1. apply Z.leb_le in H2.
  change (js "Z+-") with [90; 43; 45]. change (js " T") with [32; 84].
  unfold isLineTerminator, oneOf. cbn [existsb].
  repeat match goal with
         | |- context [?a =? ?b] => destruct (Z.eqb_spec a b); try lia
         end;
    repeat split; reflexivity.
Qed.

(** Running the matcher on a text whose units are known up to their
    class. *)
Ltac know_digit c :=
  match goal with
  | H : isDigit c = true |- _ =>
      let F := fresh "F" in
      pose proof (digit_seen c H) as F;
      destruct F as (? & ? & ? & ? & ? & ?)
  end.

Ltac decide_test :=
  match goal with
  | H : ?b = _ |- context [if ?b then _ else _] => rewrite H
  | |- context [if ?b then _ else _] =>
      let v := eval vm_compute in b in
      lazymatch v with
      | true => change b with true
      | false => change b with false
      end
  end.

Ltac run_matcher :=
  repeat first
    [ progress unfold test, exec, matchAt, Range, Opt, Chr, Digit, Dot
    | progress cbn [rmatch Seqs Rep UpTo Lit searchFrom head length
                    Nat.ltb Nat.leb Nat.sub firstn app isWordOpt]
    | progress cbv beta iota
    | decide_test ].

Lemma zoneless_is_not_zoned y1 y2 y3 y4 m1 m2 d1 d2 sep h1 h2 n1 n2 :
  isDigit y1 = true -> isDigit y2 = true -> isDigit y3 = true ->
  isDigit y4 = true -> isDigit m1 = true -> isDigit m2 = true ->
  isDigit d1 = true -> isDigit d2 = true -> isDigit h1 = true ->
  isDigit h2 = true -> isDigit n1 = true -> isDigit n2 = true ->
  sep = 32 \/ sep = 84 ->
  test reIsoWithZone
    [y1; y2; y3; y4; 45; m1; m2; 45; d1; d2; sep; h1; h2; 58; n1; n2]
  = false.
Proof.
  intros. know_digit y1. know_digit y2. know_digit y3. know_digit y4.
  know_digit m1. know_digit m2. know_digit d1. know_digit d2.
  know_digit h1. know_digit h2. know_digit n1. know_digit n2.
  unfold reIsoWithZone.
  match goal with Hs : _ \/ _ |- _ => destruct Hs; subst sep end;
    run_matcher; reflexivity.
Qed.

Lemma zoneless_date_time_match y1 y2 y3 y4 m1 m2 d1 d2 sep h1 h2 n1 n2 :
  isDigit y1 = true -> isDigit y2 = true -> isDigit y3 = true ->
  isDigit y4 = true -> isDigit m1 = true -> isDigit m2 = true ->
  isDigit d1 = true -> isDigit d2 = true -> isDigit h1 = true ->
  isDigit h2 = true -> isDigit n1 = true -> isDigit n2 = true ->
  sep = 32 \/ sep = 84 ->
  exec reDateTime
    [y1; y2; y3; y4; 45; m1; m2; 45; d1; d2; sep; h1; h2; 58; n1; n2]
  = Some (MResult []
            [y1; y2; y3; y4; 45; m1; m2; 45; d1; d2; sep; h1; h2; 58; n1; n2]
            [(2%nat, [h1; h2; 58; n1; n2]);
             (1%nat, [y1; y2; y3; y4; 45; m1; m2; 45; d1; d2])] []).
Proof.
  intros. unfold reDateTime, reYmd.
  match goal with Hs : _ \/ _ |- _ => destruct Hs; subst sep end;
    run_matcher; reflexivity.
Qed.

Lemma date_only_is_not_zoned y1 y2 y3 y4 m1 m2 d1 d2 :
  isDigit y1 = true -> isDigit y2 = true -> isDigit y3 = true ->
  isDigit y4 = true -> isDigit m1 = true -> isDigit m2 = true ->
  isDigit d1 = true -> isDigit d2 = true ->
  test reIsoWithZone [y1; y2; y3; y4; 45; m1; m2; 45; d1; d2] = false
  /\ exec reDateTime [y1; y2; y3; y4; 45; m1; m2; 45; d1; d2] = None.
Proof.
  intros. know_digit y1. know_digit y2. know_digit y3. know_digit y4.
  know_digit m1. know_digit m2. know_digit d1. know_digit d2.
  unfold reIsoWithZone, reDateTime, reYmd.
  split; run_matcher; reflexivity.
Qed.

Lemma date_only_match y1 y2 y3 y4 m1 m2 d1 d2 :
  isDigit y1 = true -> isDigit y2 = true -> isDigit y3 = true ->
  isDigit y4 = true -> isDigit m1 = true -> isDigit m2 = true ->
  isDigit d1 = true -> isDigit d2 = true ->
  exec reDateOnly [y1; y2; y3; y4; 45; m1; m2; 45; d1; d2]
  = Some (MResult [] [y1; y2; y3; y4; 45; m1; m2; 45; d1; d2]
            [(1%nat, [y1; y2; y3; y4; 45; m1; m2; 45; d1; d2])] []).
Proof.
  intros. unfold reDateOnly, reYmd. run_matcher. reflexivity.
Qed.

(** The digits of a number are digits, and read back as the number. *)
Lemma digit_of k : 0 <= k <= 9 -> isDigit (48 + k) = true.
Proof.
  intros H. unfold isDigit. apply andb_true_iff.
  split; apply Z.leb_le; lia.
Qed.

Lemma twoDigits_digits n :
  0 <= n <= 99 ->
  isDigit (48 + n / 10) = true /\ isDigit (48 + n mod 10) = true.
Proof. intros H. split; apply digit_of; Z.div_mod_to_equations; lia. Qed.

Lemma fourDigits_digits n :
  0 <= n <= 9999 ->
  isDigit (48 + n / 1000) = true /\ isDigit (48 + n / 100 mod 10) = true
  /\ isDigit (48 + n / 10 mod 10) = true /\ isDigit (48 + n mod 10) = true.
Proof.
  intros H. repeat split; apply digit_of; Z.div_mod_to_equations; lia.
Qed.

Lemma twoDigits_value n :
  (0 * 10 + (48 + n / 10 - 48)) * 10 + (48 + n mod 10 - 48) = n.
Proof. Z.div_mod_to_equations. lia. Qed.

Lemma fourDigits_value n :
  (((0 * 10 + (48 + n / 1000 - 48)) * 10 + (48 + n / 100 mod 10 - 48)) * 10
   + (48 + n / 10 mod 10 - 48)) * 10 + (48 + n mod 10 - 48) = n.
Proof. Z.div_mod_to_equations. lia. Qed.

(** A year of four digits is read as such. *)
Lemma readYear_digit c r :
  isDigit c = true -> readYear (c :: r) = readDigits 4 0 (c :: r).
Proof.
  unfold isDigit. intros H. apply andb_true_iff in H as [H1 H2].
  apply Z.leb_le in H1. apply Z.leb_le in H2.
  assert (C : c = 48 \/ c = 49 \/ c = 50 \/ c = 51 \/ c = 52 \/ c = 53
              \/ c = 54 \/ c = 55 \/ c = 56 \/ c = 57) by lia.
  repeat (destruct C as [-> | C]; [reflexivity|]). subst. reflexivity.
Qed.

(** The instants of the years of four digits are time values. *)
Lemma four_digit_year_in_range y mo d time :
  0 <= y <= 9999 -> 0 <= mo <= 11 -> 1 <= d <= 31 ->
  - msPerDay <= time <= msPerDay ->
  TimeClip (MakeDate (MakeDay y mo d) time)
  = Some (MakeDate (MakeDay y mo d) time).
Proof.
  intros Hy Hm Hd Ht. unfold TimeClip.
  assert (B : Z.abs (MakeDate (MakeDay y mo d) time) <= maxTime).
  { unfold MakeDate, MakeDay, maxTime, msPerDay in *.
    rewrite Z.div_small, Z.mod_small, Z.add_0_r by lia.
    pose proof (leapDays_cases y) as L.
    assert (M : 0 <= monthStart mo (leapDays y) <= 366).
    { unfold monthStart.
      repeat match goal with
             | |- context [?a <=? ?b] => destruct (Z.leb_spec a b)
             | |- context [?a =? ?b] => destruct (Z.eqb_spec a b)
             end; lia. }
    unfold DayFromYear. Z.div_mod_to_equations. lia. }
  apply Z.leb_le in B. rewrite B. reflexivity.
Qed.

End LocalTimeFacts.

Module LocalParseFacts.

Import DateTime Aux ViewAux CalendarFacts NormalizerFacts LocalTimeFacts.

(** Reading a string of the interchange format whose units are known up
    to their class. *)
Ltac run_parser :=
  repeat first
    [ rewrite readYear_digit by assumption
    | progress unfold isoParse, readMonthDay, readTime, readOffset
    | progress cbn [readDigits app]
    | progress cbv beta iota
    | match goal with
      | H : ?b = _ |- context [if ?b then _ else _] => rewrite H
      end ].

Lemma day_of_month_bound y mo d :
  1 <= mo <= 12 -> 1 <= d <= DaysInMonth y (mo - 1) -> d <= 31.
Proof.
  intros Hmo [_ Hd]. revert Hd. unfold DaysInMonth, monthStart.
  pose proof (leapDays_cases y).
  repeat match goal with
         | |- context [?a <=? ?b] => destruct (Z.leb_spec a b)
         | |- context [?a =? ?b] => destruct (Z.eqb_spec a b)
         end; lia.
Qed.

Lemma isoParse_local_date_time tza y mo d h mi :
  wallClock y mo d h mi ->
  isoParse tza
    (localDateText y mo d ++ js "T" ++ (twoDigits h ++ [58] ++ twoDigits mi)
     ++ js "+08:00")
  = Some (taipeiInstant y mo d h mi).
Proof.
  intros (Hy & Hmo & Hd & Hh & Hmi).
  pose proof (day_of_month_bound y mo d Hmo Hd) as Dd.
  destruct (fourDigits_digits y Hy) as (Y1 & Y2 & Y3 & Y4).
  destruct (twoDigits_digits mo ltac:(lia)) as (M1 & M2).
  destruct (twoDigits_digits d ltac:(lia)) as (D1 & D2).
  destruct (twoDigits_digits h ltac:(lia)) as (H1 & H2).
  destruct (twoDigits_digits mi ltac:(lia)) as (N1 & N2).
  unfold taipeiInstant, localDateText, fourDigits, twoDigits.
  change (js "T") with [84]. change (js "+08:00") with [43; 48; 56; 58; 48; 48].
  run_parser.
  rewrite !twoDigits_value, fourDigits_value.
  assert (L : (1 <=? mo) && (mo <=? 12) && (1 <=? d)
              && (d <=? DaysInMonth y (mo - 1)) = true).
  { repeat (apply andb_true_iff; split); apply Z.leb_le; lia. }
  rewrite L.
  assert (T : (h <=? 23) && (mi <=? 59) = true).
  { apply andb_true_iff; split; apply Z.leb_le; lia. }
  rewrite T. reflexivity.
Qed.

Lemma taipeiInstant_in_range y mo d h mi :
  wallClock y mo d h mi ->
  TimeClip (taipeiInstant y mo d h mi) = Some (taipeiInstant y mo d h mi).
Proof.
  intros (Hy & Hmo & Hd & Hh & Hmi).
  pose proof (day_of_month_bound y mo d Hmo Hd) as Dd.
  unfold taipeiInstant, taipei, MakeTime, msPerHour, msPerMinute,
    msPerSecond.
  replace (MakeDate (MakeDay y (mo - 1) d)
             (h * 3600000 + mi * 60000 + 0 * 1000 + 0) - 8 * 3600000)
    with (MakeDate (MakeDay y (mo - 1) d)
            (h * 3600000 + mi * 60000 - 8 * 3600000))
    by (unfold MakeDate; lia).
  apply four_digit_year_in_range; unfold msPerDay; lia.
Qed.

Lemma parse_local_date_time env y mo d sep h mi :
  wallClock y mo d h mi -> sep = 32 \/ sep = 84 ->
  parseModelDateTimeLocal env (Some (localDateTimeText y mo d sep h mi))
  = Some (Some (taipeiInstant y mo d h mi)).
Proof.
  intros W Hsep.
  pose proof (isoParse_local_date_time (localTZA env) y mo d h mi W) as P.
  pose proof (taipeiInstant_in_range y mo d h mi W) as R.
  destruct W as (Hy & Hmo & Hd & Hh & Hmi).
  pose proof (day_of_month_bound y mo d Hmo Hd) as Dd.
  destruct (fourDigits_digits y Hy) as (Y1 & Y2 & Y3 & Y4).
  destruct (twoDigits_digits mo ltac:(lia)) as (M1 & M2).
  destruct (twoDigits_digits d ltac:(lia)) as (D1 & D2).
  destruct (twoDigits_digits h ltac:(lia)) as (H1 & H2).
  destruct (twoDigits_digits mi ltac:(lia)) as (N1 & N2).
  unfold localDateTimeText, localDateText, fourDigits, twoDigits in *.
  cbn [app] in P |- *.
  unfold parseModelDateTimeLocal. cbv beta iota.
  rewrite zoneless_is_not_zoned by assumption.
  rewrite zoneless_date_time_match by assumption.
  cbv zeta. unfold groupOr, group. cbn [m_caps cap Nat.eqb].
  change (js "T") with [84] in *.
  cbn [app] in P |- *.
  unfold newDateStr. rewrite P, R. reflexivity.
Qed.

Lemma parse_local_date env y mo d :
  wallClock y mo d 0 0 ->
  parseModelDateTimeLocal env (Some (localDateText y mo d))
  = Some (Some (taipeiInstant y mo d 0 0)).
Proof.
  intros W.
  pose proof (isoParse_local_date_time (localTZA env) y mo d 0 0 W) as P.
  pose proof (taipeiInstant_in_range y mo d 0 0 W) as R.
  destruct W as (Hy & Hmo & Hd & Hh & Hmi).
  pose proof (day_of_month_bound y mo d Hmo Hd) as Dd.
  destruct (fourDigits_digits y Hy) as (Y1 & Y2 & Y3 & Y4).
  destruct (twoDigits_digits mo ltac:(lia)) as (M1 & M2).
  destruct (twoDigits_digits d ltac:(lia)) as (D1 & D2).
  unfold localDateText, fourDigits, twoDigits in *.
  change (js "T") with [84] in P.
  change ([48 + 0 / 10; 48 + 0 mod 10] ++ [58] ++ [48 + 0 / 10; 48 + 0 mod 10])
    with [48; 48; 58; 48; 48] in P.
  cbn [app] in P |- *.
  unfold parseModelDateTimeLocal. cbv beta iota.
  destruct (date_only_is_not_zoned _ _ _ _ _ _ _ _ Y1 Y2 Y3 Y4 M1 M2 D1 D2)
    as [Z1 Z2].
  rewrite Z1, Z2. rewrite date_only_match by assumption.
  cbv zeta. unfold groupOr, group. cbn [m_caps cap Nat.eqb].
  change (js "T00:00+08:00")
    with ([84; 48; 48; 58; 48; 48] ++ js "+08:00").
  cbn [app] in P |- *.
  unfold newDateStr. rewrite P, R. reflexivity.
Qed.

(** The year of a day made of a date that exists. *)
Lemma year_of_date y mo d :
  1 <= mo <= 12 -> 1 <= d <= DaysInMonth y (mo - 1) ->
  YearFromDay (MakeDay y (mo - 1) d) = y.
Proof.
  intros Hmo Hd. apply YearFromDay_unique.
  rewrite DayFromYear_step. unfold MakeDay.
  rewrite Z.div_small, Z.mod_small, Z.add_0_r by lia.
  pose proof (leapDays_cases y) as L.
  unfold DaysInMonth, monthStart in *.
  repeat match goal with
         | H : context [?a <=? ?b] |- _ => destruct (Z.leb_spec a b)
         | H : context [?a =? ?b] |- _ => destruct (Z.eqb_spec a b)
         | |- context [?a <=? ?b] => destruct (Z.leb_spec a b)
         | |- context [?a =? ?b] => destruct (Z.eqb_spec a b)
         end; lia.
Qed.

End LocalParseFacts.

Module LocalTimeProps.

Import DateTime Aux ViewAux CalendarFacts NormalizerFacts LocalTimeFacts
  LocalParseFacts.

Example local_texts :
  localDateTimeText 2024 8 15 32 14 0 = js "2024-08-15 14:00"
  /\ localDateTimeText 2024 8 15 84 9 5 = js "2024-08-15T09:05"
  /\ localDateText 2025 11 30 = js "2025-11-30".
Proof. by_computation. Qed.

(** X2: [YYYY-MM-DD HH:mm] and [YYYY-MM-DDTHH:mm] with a date and a time of
    day that exist are read as that wall-clock time at +08:00, whatever
    the zone of the host and whatever else the host would parse. *)
Theorem zoneless_date_time_is_taipei_time env y mo d sep h mi :
  wallClock y mo d h mi -> sep = 32 \/ sep = 84 ->
  parseModelDateTimeLocal env (Some (localDateTimeText y mo d sep h mi))
  = Some (Some (taipeiInstant y mo d h mi)).
Proof. apply parse_local_date_time. Qed.

Lemma zoneless_date_time_is_taipei_time_witness :
  parseModelDateTimeLocal serverHost
    (Some (localDateTimeText 2024 8 15 32 14 0))
  = Some (Some (taipeiInstant 2024 8 15 14 0)).
Proof.
  apply (zoneless_date_time_is_taipei_time serverHost 2024 8 15 32 14 0).
  - vm_compute. repeat split; discriminate.
  - left; reflexivity.
Defined.

(** X3: [YYYY-MM-DD] with a date that exists is read as the midnight that
    starts that day at +08:00, on every host. *)
Theorem date_only_is_taipei_midnight env y mo d :
  wallClock y mo d 0 0 ->
  parseModelDateTimeLocal env (Some (localDateText y mo d))
  = Some (Some (taipeiInstant y mo d 0 0)).
Proof. apply parse_local_date. Qed.

Lemma date_only_is_taipei_midnight_witness :
  parseModelDateTimeLocal serverHost (Some (localDateText 2025 11 30))
  = Some (Some (taipeiInstant 2025 11 30 0 0)).
Proof.
  apply (date_only_is_taipei_midnight serverHost 2025 11 30).
  vm_compute. repeat split; discriminate.
Defined.

(** X9: A timed event whose start and end are zone-less local times, the
    end after the start, gets those two instants at +08:00 on every
    host. *)
Theorem timed_event_is_the_same_on_every_host
    env y mo d sep h mi y' mo' d' sep' h' mi' :
  wallClock y mo d h mi -> sep = 32 \/ sep = 84 ->
  wallClock y' mo' d' h' mi' -> sep' = 32 \/ sep' = 84 ->
  taipeiInstant y mo d h mi < taipeiInstant y' mo' d' h' mi' ->
  normalizeEventTimesFromText env
    (Some (localDateTimeText y mo d sep h mi))
    (Some (localDateTimeText y' mo' d' sep' h' mi')) false
  = MkTimes (Some (taipeiInstant y mo d h mi))
      (Some (taipeiInstant y' mo' d' h' mi')) false.
Proof.
  intros W S W' S' Hlt.
  rewrite normalize_stages.
  rewrite (startOf_parsed _ _ _ (parse_local_date_time env _ _ _ _ _ _ W S)).
  rewrite (endOf_parsed _ _ _ _
             (parse_local_date_time env _ _ _ _ _ _ W' S')).
  rewrite finish_timed. cbn [dateLe].
  apply Z.leb_gt in Hlt. rewrite Hlt. reflexivity.
Qed.

Lemma timed_event_is_the_same_on_every_host_witness :
  normalizeEventTimesFromText serverHost
    (Some (localDateTimeText 2024 8 15 32 14 0))
    (Some (localDateTimeText 2024 8 15 84 15 30)) false
  = MkTimes (Some (taipeiInstant 2024 8 15 14 0))
      (Some (taipeiInstant 2024 8 15 15 30)) false.
Proof.
  apply (timed_event_is_the_same_on_every_host serverHost
           2024 8 15 32 14 0 2024 8 15 84 15 30).
  - vm_compute. repeat split; discriminate.
  - left; reflexivity.
  - vm_compute. repeat split; discriminate.
  - right; reflexivity.
  - vm_compute. reflexivity.
Defined.

(** X10: On a host whose zone is at +08:00 with no daylight saving time,
    as [Asia/Taipei] has been since 1980, an all-day event given a date
    that exists, in the year 1980 or later, runs from the +08:00 midnight
    that starts that day to the next, whatever its end argument. *)
Theorem all_day_date_on_taipei_host env y mo d en :
  localTZA env = taipei -> 1980 <= y -> wallClock y mo d 0 0 ->
  normalizeEventTimesFromText env (Some (localDateText y mo d)) en true
  = MkTimes (Some (taipeiInstant y mo d 0 0))
      (Some (taipeiInstant y mo d 0 0 + dayMs)) true.
Proof.
  intros Hz Hy W.
  pose proof (taipeiInstant_in_range y mo d 0 0 W) as R.
  rewrite normalize_stages.
  rewrite (startOf_parsed _ _ _ (parse_local_date env _ _ _ W)).
  rewrite finish_allDay.
  destruct W as (Hy' & Hmo & Hd & _ & _).
  pose proof (day_of_month_bound y mo d Hmo Hd) as Dd.
  assert (E : taipeiInstant y mo d 0 0 + localTZA env
              = MakeDay y (mo - 1) d * msPerDay).
  { rewrite Hz. unfold taipeiInstant, MakeDate, MakeTime. lia. }
  assert (Y : YearFromTime (taipeiInstant y mo d 0 0 + localTZA env) = y).
  { rewrite E. unfold YearFromTime. rewrite Day_of_midnight.
    apply year_of_date; assumption. }
  rewrite midnightOf_own_day
    by (rewrite Y; unfold fullYear;
        destruct (Z.leb_spec y 99); [lia|];
        rewrite andb_false_r; reflexivity).
  assert (M : localMidnight env (taipeiInstant y mo d 0 0)
              = taipeiInstant y mo d 0 0).
  { unfold localMidnight. rewrite E, Day_of_midnight. lia. }
  rewrite M, R. unfold plusMs. cbn [getTime numAdd newDateNum].
  assert (R' : TimeClip (taipeiInstant y mo d 0 0 + dayMs)
               = Some (taipeiInstant y mo d 0 0 + dayMs)).
  { unfold taipeiInstant, taipei, MakeTime, msPerHour, msPerMinute,
      msPerSecond, dayMs.
    replace (MakeDate (MakeDay y (mo - 1) d) (0 * 3600000 + 0 * 60000
               + 0 * 1000 + 0) - 8 * 3600000 + 24 * 60 * 60 * 1000)
      with (MakeDate (MakeDay y (mo - 1) d) (16 * 3600000))
      by (unfold MakeDate; lia).
    apply four_digit_year_in_range; unfold msPerDay; lia. }
  rewrite R'. reflexivity.
Qed.

Lemma all_day_date_on_taipei_host_witness :
  normalizeEventTimesFromText browserHost (Some (localDateText 2025 11 30))
    (Some (js "2025-12-01")) true
  = MkTimes (Some (taipeiInstant 2025 11 30 0 0))
      (Some (taipeiInstant 2025 11 30 0 0 + dayMs)) true.
Proof.
  apply (all_day_date_on_taipei_host browserHost 2025 11 30
           (Some (js "2025-12-01"))).
  - reflexivity.
  - lia.
  - vm_compute. repeat split; discriminate.
Defined.

End LocalTimeProps.

(* ===================================================================== *)
(** ** The date and time a description carries *)
(* ===================================================================== *)

Module OverrideFacts.

Import RegexSem RegexFacts DateTime Server CalendarFacts NormalizerFacts
  PhoneFacts.

Lemma digit_bounds c : isDigit c = true -> 48 <= c <= 57.
Proof.
  unfold isDigit. intros H. apply andb_true_iff in H as [H1 H2].
  apply Z.leb_le in H1. apply Z.leb_le in H2. lia.
Qed.

Lemma inRange_bounds lo hi c : inRange lo hi c = true -> lo <= c <= hi.
Proof.
  unfold inRange. intros H. apply andb_true_iff in H as [H1 H2].
  apply Z.leb_le in H1. apply Z.leb_le in H2. lia.
Qed.

(** [parseInt] of a text that starts with a digit reads its digits. *)
Lemma parseInt10_digit_head c r :
  isDigit c = true -> parseInt10 (c :: r) = digitRun (c :: r) None.
Proof.
  intros H. unfold parseInt10.
  rewrite trimStart_head by (apply digit_not_space, H).
  apply digit_bounds in H.
  assert (C : c = 48 \/ c = 49 \/ c = 50 \/ c = 51 \/ c = 52 \/ c = 53
              \/ c = 54 \/ c = 55 \/ c = 56 \/ c = 57) by lia.
  repeat (destruct C as [-> | C]; [reflexivity|]). subst. reflexivity.
Qed.

(** [parseInt] of one to four digits. *)
Lemma parseInt10_digits ds :
  Forall (fun c => isDigit c = true) ds -> (1 <= length ds <= 4)%nat ->
  exists n,
    parseInt10 ds = Some n /\ 0 <= n <= 9999
    /\ ((length ds <= 2)%nat -> n <= 99).
Proof.
  intros F L.
  destruct ds as [|a [|b [|c [|d [|e ds]]]]]; cbn [length] in L; try lia;
    repeat match goal with
           | H : Forall _ (_ :: _) |- _ =>
               apply List.Forall_cons_iff in H as [? H]
           end;
    rewrite parseInt10_digit_head by assumption; cbn [digitRun];
    repeat match goal with
           | H : isDigit ?x = true |- context [isDigit ?x] => rewrite H
           end;
    repeat match goal with
           | H : isDigit ?x = true |- _ => apply digit_bounds in H
           end;
    eexists; (split; [reflexivity|]); cbn [length]; split; lia.
Qed.

(** The instants [Date.UTC] makes of the fields the legacy parser can
    read are time values. *)
Lemma DateUTC_of_read_fields y m d hh mm :
  0 <= y <= 9999 -> -1 <= m <= 98 -> 0 <= d <= 99 -> -8 <= hh <= 91 ->
  0 <= mm <= 99 ->
  exists t, DateUTC y m d hh mm 0 = Some t /\ Z.abs t <= maxTime.
Proof.
  intros Hy Hm Hd Hh Hmm. unfold DateUTC, TimeClip.
  match goal with
  | |- context [Z.abs ?x <=? maxTime] =>
      assert (B : Z.abs x <= maxTime)
  end.
  { assert (Fy : 0 <= fullYear y <= 9999).
    { unfold fullYear. destruct (Z.leb_spec y 99).
      - destruct (0 <=? y); cbn [andb]; lia.
      - rewrite andb_false_r. lia. }
    unfold MakeDate, MakeDay, MakeTime, maxTime, msPerDay, msPerHour,
      msPerMinute, msPerSecond.
    cbv zeta.
    set (ym := fullYear y + m / 12). set (mn := m mod 12).
    assert (Hym : -1 <= ym <= 10007)
      by (subst ym; Z.div_mod_to_equations; lia).
    assert (Hmn : 0 <= mn <= 11) by (subst mn; Z.div_mod_to_equations; lia).
    pose proof (leapDays_cases ym) as L.
    assert (M : 0 <= monthStart mn (leapDays ym) <= 366).
    { unfold monthStart.
      repeat match goal with
             | |- context [?a <=? ?b] => destruct (Z.leb_spec a b)
             | |- context [?a =? ?b] => destruct (Z.eqb_spec a b)
             end; lia. }
    unfold DayFromYear. Z.div_mod_to_equations. lia. }
  pose proof B as B'. apply Z.leb_le in B'. rewrite B'. eauto.
Qed.

(** Splitting at a one-unit separator. *)
Lemma matchAt_Chr_other x pre c s :
  c <> x -> matchAt (Chr x) pre (c :: s) = None.
Proof.
  intros H. unfold matchAt, Chr. cbn [rmatch].
  destruct (Z.eqb_spec x c); [congruence | reflexivity].
Qed.

Lemma matchAt_Chr_same x pre s :
  matchAt (Chr x) pre (x :: s) = Some (MResult pre [x] [] s).
Proof.
  unfold matchAt, Chr. cbn [rmatch]. rewrite Z.eqb_refl.
  change (x :: s) with ([x] ++ s). rewrite firstn_consumed. reflexivity.
Qed.

Lemma splitFrom_no_separator x s :
  Forall (fun c => c <> x) s ->
  forall fuel pre piece,
    (length s < fuel)%nat ->
    splitFrom fuel (Chr x) pre piece s = [rev piece ++ s].
Proof.
  induction 1 as [|c s Hc _ IH]; intros fuel pre piece L;
    (destruct fuel as [|fuel]; [cbn in L; lia|]); cbn [splitFrom].
  - rewrite app_nil_r. reflexivity.
  - cbv zeta. rewrite (matchAt_Chr_other x pre c s Hc).
    rewrite IH by (cbn in L; lia). cbn [rev]. rewrite <- app_assoc.
    reflexivity.
Qed.

Lemma splitFrom_one_separator x a b :
  Forall (fun c => c <> x) a -> Forall (fun c => c <> x) b ->
  forall fuel pre piece,
    (length a + length b + 1 < fuel)%nat ->
    splitFrom fuel (Chr x) pre piece (a ++ x :: b) = [rev piece ++ a; b].
Proof.
  intros Ha Hb. induction Ha as [|c a Hc _ IH]; intros fuel pre piece L;
    (destruct fuel as [|fuel]; [cbn in L; lia|]); cbn [splitFrom app].
  - cbv zeta. rewrite matchAt_Chr_same. cbn [m_text m_post].
    rewrite app_nil_r.
    assert (T : splitFrom fuel (Chr x) (rev [x] ++ pre) [] b = [b]).
    { rewrite (splitFrom_no_separator x b Hb) by (cbn in L; lia).
      reflexivity. }
    destruct piece; rewrite T; reflexivity.
  - cbv zeta. rewrite (matchAt_Chr_other x pre c _ Hc).
    rewrite IH by (cbn in L; lia). cbn [rev]. rewrite <- app_assoc.
    reflexivity.
Qed.

Lemma splitOn_once x a b :
  Forall (fun c => c <> x) a -> Forall (fun c => c <> x) b ->
  splitOn x (a ++ x :: b) = [a; b].
Proof.
  intros Ha Hb. unfold splitOn, splitRe.
  rewrite (splitFrom_one_separator x a b Ha Hb).
  - reflexivity.
  - rewrite length_app. cbn [length]. lia.
Qed.

Lemma splitOn_clock o h m0 m1 :
  o = [] \/ (exists o1, o = [o1] /\ inRange 48 50 o1 = true) ->
  isDigit h = true -> inRange 48 53 m0 = true -> isDigit m1 = true ->
  splitOn 58 (o ++ [h] ++ [58] ++ [m0] ++ [m1]) = [o ++ [h]; [m0; m1]].
Proof.
  intros Ho Hh Hm0 Hm1.
  apply digit_bounds in Hh, Hm1. apply inRange_bounds in Hm0.
  change (o ++ [h] ++ [58] ++ [m0] ++ [m1])
    with (o ++ [h] ++ 58 :: [m0; m1]).
  rewrite app_assoc. apply splitOn_once.
  - destruct Ho as [-> | (o1 & -> & Ho1)].
    + repeat constructor. lia.
    + apply inRange_bounds in Ho1. repeat constructor; lia.
  - repeat constructor; lia.
Qed.

(** The legacy parser answers [null] or a valid date. *)
Lemma legacy_parse_valid text d :
  parseTransportDateTime text = Some d ->
  exists t, d = Some t /\ Z.abs t <= maxTime.
Proof.
  unfold parseTransportDateTime. destruct text as [|c0 text]; [discriminate|].
  destruct (exec reLegacyDate (c0 :: text)) as [dm|] eqn:Ed; [|discriminate].
  destruct (exec reLegacyTime (c0 :: text)) as [tm|] eqn:Et; [|discriminate].
  apply exec_sound in Ed as (_ & dtext & _ & _ & Pd).
  apply exec_sound in Et as (_ & ttext & _ & _ & Pt).
  destruct dm as [? ? dcaps ?], tm as [? ? tcaps ?].
  cbn [m_caps] in Pd, Pt.
  unfold reLegacyDate, reChineseDate, reColon, Space, Digit in Pd.
  cbn [Seqs] in Pd.
  unfold reLegacyTime, reClock, reColon, Space, Digit in Pt.
  cbn [Seqs] in Pt.
  inv_parse.
  unfold parseGroup, groupOr, group. cbn [m_caps cap app Nat.eqb].
  match goal with
  | Ho : ?o = [] \/ _, Hh : isDigit ?h = true,
    Hm0 : inRange 48 53 ?m0 = true, Hm1 : isDigit ?m1 = true
    |- context [splitOn 58 (?o ++ [?h; 58; ?m0; ?m1])] =>
      change (o ++ [h; 58; m0; m1]) with (o ++ [h] ++ [58] ++ [m0] ++ [m1]);
      rewrite (splitOn_clock o h m0 m1 Ho Hh Hm0 Hm1);
      assert (Fh : Forall (fun c => isDigit c = true) (o ++ [h]) /\
                   (1 <= length (o ++ [h]) <= 2)%nat);
      [ destruct Ho as [-> | (o1 & -> & Ho1)];
        [ split; [repeat constructor; assumption | cbn; lia]
        | apply inRange_bounds in Ho1; split;
          [ repeat constructor; try assumption;
            unfold isDigit; apply andb_true_iff;
            split; apply Z.leb_le; lia
          | cbn; lia ] ]
      | assert (Fm : Forall (fun c => isDigit c = true) [m0; m1]);
        [ apply inRange_bounds in Hm0; repeat constructor; try assumption;
          unfold isDigit; apply andb_true_iff; split; apply Z.leb_le; lia
        | ] ]
  end.
  cbn [map nth]. destruct Fh as [Fh Lh].
  repeat match goal with
    | |- context [match parseInt10 ?m with _ => _ end] =>
        let n := fresh "n" in
        let Hn := fresh "Hn" in
        let Hs := fresh "Hs" in
        destruct (parseInt10_digits m) as (n & -> & Hn & Hs);
        [ assumption | cbn [length]; lia
        | try specialize (Hs ltac:(cbn [length]; lia)) ]
    end.
  intros [= <-].
  match goal with
  | |- context [DateUTC ?y ?m ?d ?hh ?mm 0] =>
      destruct (DateUTC_of_read_fields y m d hh mm) as (t & E & B); try lia
  end.
  exists t. rewrite E. unfold newDateNum, TimeClip.
  pose proof B as B'. apply Z.leb_le in B'. rewrite B'. auto.
Qed.

(** The date and time read from a description, by either parser, is a
    valid date. *)
Lemma override_valid env desc d :
  transportOverride env desc = Some d ->
  exists t, d = Some t /\ Z.abs t <= maxTime.
Proof.
  unfold transportOverride, orElse.
  destruct (parseTransportDateTimeV2 env desc) as [v|] eqn:V.
  - intros [= <-]. unfold parseTransportDateTimeV2 in V.
    destruct desc as [|c0 desc]; [discriminate|].
    destruct (firstMatch dateRegexes (c0 :: desc)) as [[md dlen]|];
      [|discriminate].
    destruct (firstMatch timeRegexes (c0 :: desc)) as [[mt tlen]|];
      [|discriminate].
    cbv zeta in V.
    repeat match type of V with
           | match ?e with _ => _ end = _ => destruct e; [|discriminate]
           end.
    apply validOrNull_Some in V as [V (t & ->)].
    exists t. split; [reflexivity|]. eapply newDateStr_range, V.
  - apply legacy_parse_valid.
Qed.

End OverrideFacts.

Module OverrideProps.

Import DateTime Server Aux CalendarFacts NormalizerFacts OverrideFacts.

(** X12: The date and time the webhook reads from a description, with the
    new parser or the legacy one, is a valid date, never an Invalid
    Date. *)
Theorem embedded_time_is_a_valid_date env desc d :
  transportOverride env desc = Some d ->
  exists t, d = Some t /\ Z.abs t <= maxTime.
Proof. apply override_valid. Qed.

Lemma embedded_time_is_a_valid_date_witness :
  exists t, Some 1723771800000 = Some t /\ Z.abs t <= maxTime.
Proof.
  apply (embedded_time_is_a_valid_date serverHost bookingText
           (Some 1723771800000)).
  vm_compute; reflexivity.
Defined.

(** X13: When the description of a timed event carries a date and time of
    its own, the event the webhook creates starts at that valid instant
    and ends one hour later, whatever its time arguments say. *)
Theorem webhook_create_prefers_embedded_time env args d :
  transportOverride env (optStr (arg_description args)) = Some d ->
  optBool (arg_allDay args) = false ->
  exists t,
    d = Some t
    /\ timesOf (Server.createCalendarEvent env args)
       = MkTimes (Some t) (TimeClip (t + hourMs)) false.
Proof.
  intros Hd Ha. destruct (override_valid env _ _ Hd) as (t & -> & _).
  exists t. split; [reflexivity|].
  unfold Server.createCalendarEvent, timesOf. cbv zeta.
  rewrite Hd, Ha. reflexivity.
Qed.

Lemma webhook_create_prefers_embedded_time_witness :
  exists t,
    Some 1723771800000 = Some t
    /\ timesOf (Server.createCalendarEvent serverHost bookingArgs)
       = MkTimes (Some t) (TimeClip (t + hourMs)) false.
Proof.
  apply (webhook_create_prefers_embedded_time serverHost bookingArgs
           (Some 1723771800000));
    vm_compute; reflexivity.
Defined.

(** X14: The webhook's own copy of the normalizer returns what the shared
    normalizer returns for every timed event, and for all-day events
    too on a host whose zone is UTC. *)
Theorem webhook_copy_agrees_with_shared env st en a :
  a = false \/ localTZA env = 0 ->
  Server.normalizeEventTimesFromText env st en a
  = DateTime.normalizeEventTimesFromText env st en a.
Proof.
  intros H.
  unfold Server.normalizeEventTimesFromText,
    DateTime.normalizeEventTimesFromText.
  cbv zeta.
  match goal with
  | |- context [newDateNum (numAdd (getTime ?s3) hourMs)] =>
      generalize s3
  end.
  intros s3.
  match goal with
  | |- context [if a then _ else (s3, ?e3)] => generalize e3
  end.
  intros e3. destruct a; [|reflexivity].
  destruct H as [H | H]; [discriminate|].
  destruct s3 as [t|]; [|reflexivity].
  cbn [getUTCFullYear getUTCMonth getUTCDate getFullYear getMonth getDate
       newDateLocalMidnight].
  unfold LocalTime, newDateLocal, DateUTC. rewrite H, Z.add_0_r, Z.sub_0_r.
  unfold MakeTime. cbn [Z.mul Z.add].
  destruct (TimeClip _) as [m|] eqn:E; [|reflexivity].
  cbn [newDateNum numAdd getTime].
  apply TimeClip_Some in E as E'. subst m. rewrite E. reflexivity.
Qed.

Lemma webhook_copy_agrees_with_shared_witness :
  Server.normalizeEventTimesFromText serverHost (Some (js "2025-11-30"))
    None true
  = DateTime.normalizeEventTimesFromText serverHost (Some (js "2025-11-30"))
      None true.
Proof.
  apply (webhook_copy_agrees_with_shared serverHost (Some (js "2025-11-30"))
           None true).
  right. reflexivity.
Defined.

(** X15: An update that touches no time field writes the payload as it came,
    less its [id]: the re-parsing of its else branch never changes a
    field, in the assistant and in the webhook alike. *)
Theorem update_without_times_writes_payload env args :
  toBoolean (args !! "id") = true ->
  Server.touchesTimes (delete "id" args) = false ->
  Server.updateCalendarEvent env args = Some (Some (delete "id" args))
  /\ Client.updateCalendarEvent env args = Some (Some (delete "id" args)).
Proof.
  intros Hid Ht.
  unfold Server.updateCalendarEvent, Client.updateCalendarEvent.
  cbv zeta. rewrite Hid.
  change (Client.touchesTimes (delete "id" args))
    with (Server.touchesTimes (delete "id" args)).
  rewrite Ht. unfold Server.touchesTimes in Ht.
  apply orb_false_iff in Ht as [Ht _].
  apply orb_false_iff in Ht as [Hs He].
  set (u := delete "id" args) in *.
  assert (S1 : Server.reparse env "startTime" u = u).
  { unfold Server.reparse. destruct (u !! "startTime") as [v|]; [|reflexivity].
    rewrite Hs. reflexivity. }
  assert (S2 : Server.reparse env "endTime" u = u).
  { unfold Server.reparse. destruct (u !! "endTime") as [v|]; [|reflexivity].
    rewrite He. reflexivity. }
  assert (C1 : Client.reparse env "startTime" u = u).
  { unfold Client.reparse.
    destruct (u !! "startTime") as [[[|c s]|b|dt]|]; try reflexivity.
    discriminate. }
  assert (C2 : Client.reparse env "endTime" u = u).
  { unfold Client.reparse.
    destruct (u !! "endTime") as [[[|c s]|b|dt]|]; try reflexivity.
    discriminate. }
  rewrite S1, S2, C1, C2. split; reflexivity.
Qed.

Lemma update_without_times_writes_payload_witness :
  Server.updateCalendarEvent serverHost descOnlyUpdate
  = Some (Some (delete "id" descOnlyUpdate))
  /\ Client.updateCalendarEvent serverHost descOnlyUpdate
     = Some (Some (delete "id" descOnlyUpdate)).
Proof.
  apply (update_without_times_writes_payload serverHost descOnlyUpdate);
    vm_compute; reflexivity.
Defined.

End OverrideProps.
